(** * python_mcml: Monte Carlo multi-layer photon transport

    A shallow embedding of [scattering_pulse_oximetry.py] and the
    properties of its photon walker, boundary physics and normaliser.

    Conventions of the embedding.
    - Python/NumPy floating-point numbers are idealised as the real
      numbers [R]: [+ - * /] are the field operations, [x**0.5] is
      [sqrt x], [x**2] and [x**2.0] are [x ^ 2], [np.log], [np.cos],
      [np.sin], [np.arccos] are [ln], [cos], [sin], [acos], and [np.pi]
      is [PI].  Rounding, overflow, [nan] and [inf] are outside the model.
    - Division by zero is outside the model as well: Python raises
      [ZeroDivisionError] when one of its own numbers is divided by zero
      and NumPy answers [inf] or [nan], while [x / 0] is just some real
      number here.  The statements are to be read for inputs that keep
      the divisors away from zero: nonzero (in a physical stack,
      positive) refractive indices, [mua + mus <> 0] in a tissue layer,
      a draw that is not 0 under [np.log].
    - Python integers are [Z]; [int(x)] on a float truncates towards zero.
    - Indexing a list or an array follows Python: a negative index counts
      from the end, an index outside [-len, len) raises [IndexError].
    - Reading a never-assigned local raises [UnboundLocalError]; reading
      a missing attribute raises [AttributeError].  A raised exception
      aborts the call: the functions return in the [result] monad.
    - NumPy's global generator is an explicit [RandomState]: an infinite
      stream of draws with the position of the next one. *)

From Stdlib Require Import String Ascii.
From Stdlib Require Import Reals Lra Lia ZArith List Bool Psatz.
Import ListNotations.
Open Scope R_scope.

(** ** Python runtime: exceptions, indexing, numeric helpers *)

Inductive exn : Type :=
| IndexError
| UnboundLocalError
| AttributeError.

Inductive result (T : Type) : Type :=
| Ok (v : T)
| Raise (e : exn).
Arguments Ok {T} v.
Arguments Raise {T} e.

Definition bind {T U : Type} (c : result T) (k : T -> result U) : result U :=
  match c with
  | Ok v => k v
  | Raise e => Raise e
  end.

Declare Scope py_scope.
Delimit Scope py_scope with py.
Notation "x <- c ;; k" := (bind c (fun x => k))
  (at level 100, c at next level, right associativity) : py_scope.
Notation "' p <- c ;; k" := (bind c (fun p => k))
  (at level 100, p pattern, c at next level, right associativity) : py_scope.
Open Scope py_scope.

Module py.

(** Position of index [i] in a sequence of length [len]. *)
Definition index (len : nat) (i : Z) : result nat :=
  if (0 <=? i)%Z then
    if (i <? Z.of_nat len)%Z then Ok (Z.to_nat i) else Raise IndexError
  else
    if (- Z.of_nat len <=? i)%Z then Ok (Z.to_nat (i + Z.of_nat len))
    else Raise IndexError.

(** [l[i]] *)
Definition getitem {T : Type} (l : list T) (i : Z) : result T :=
  k <- index (List.length l) i ;;
  match nth_error l k with
  | Some v => Ok v
  | None => Raise IndexError
  end.

(** The list [l] with position [k] replaced by [v]. *)
Fixpoint replace {T : Type} (k : nat) (v : T) (l : list T) : list T :=
  match l, k with
  | [], _ => []
  | _ :: t, O => v :: t
  | h :: t, S k' => h :: replace k' v t
  end.

(** [l[i] = v] *)
Definition setitem {T : Type} (l : list T) (i : Z) (v : T) : result (list T) :=
  k <- index (List.length l) i ;;
  Ok (replace k v l).

(** Comparisons of floats: [x == y], [x < y], [x <= y], [x > y], [x >= y]. *)
Definition eq (x y : R) : bool := if Req_dec_T x y then true else false.
Definition lt (x y : R) : bool := if Rlt_dec x y then true else false.
Definition le (x y : R) : bool := if Rle_dec x y then true else false.
Definition gt (x y : R) : bool := if Rgt_dec x y then true else false.
Definition ge (x y : R) : bool := if Rge_dec x y then true else false.

(** [int(x)] for a float [x]: truncation towards zero. *)
Definition int (x : R) : Z :=
  if le 0 x then Zfloor x else Zceil x.

(** [for i in range(lo, hi): s = body(i, s)] *)
Fixpoint for_loop {S : Type} (count : nat) (i : Z)
         (body : Z -> S -> result S) (s : S) : result S :=
  match count with
  | O => Ok s
  | Datatypes.S c => s' <- body i s ;; for_loop c (i + 1)%Z body s'
  end.

Definition for_range {S : Type} (lo hi : Z)
           (body : Z -> S -> result S) (s : S) : result S :=
  for_loop (Z.to_nat (hi - lo)) lo body s.

(** [str.lower()] on ASCII text. *)
Definition lower_ascii (c : ascii) : ascii :=
  let k := nat_of_ascii c in
  if ((65 <=? k) && (k <=? 90))%nat then ascii_of_nat (k + 32) else c.

Fixpoint lower (s : string) : string :=
  match s with
  | EmptyString => EmptyString
  | String c t => String (lower_ascii c) (lower t)
  end.

End py.

Module np.

Definition array1 : Type := list R.
Definition array2 : Type := list (list R).

(** [np.zeros(n)] and [np.zeros((rows, cols))] *)
Definition zeros1 (n : Z) : array1 := repeat 0 (Z.to_nat n).
Definition zeros2 (rows cols : Z) : array2 := repeat (zeros1 cols) (Z.to_nat rows).

(** [a[i, j]] *)
Definition get2 (a : array2) (i j : Z) : result R :=
  row <- py.getitem a i ;; py.getitem row j.

(** [a[i, j] = v] *)
Definition set2 (a : array2) (i j : Z) (v : R) : result array2 :=
  row <- py.getitem a i ;;
  row' <- py.setitem row j v ;;
  py.setitem a i row'.

(** [np.sign(x)] *)
Definition sign (x : R) : R :=
  if py.lt 0 x then 1 else if py.lt x 0 then -1 else 0.

(** Total weight held by an array. *)
Definition sum1 (a : array1) : R := fold_right Rplus 0 a.
Definition sum2 (a : array2) : R := sum1 (map sum1 a).

(** NumPy's global generator: the stream of uniform draws of [0, 1)
    and the position of the next draw. *)
Record RandomState : Type := mkRandomState {
  stream : nat -> R;
  pos : nat
}.

(** [np.random.random()] / [np.random.random_sample()] *)
Definition random (rs : RandomState) : R * RandomState :=
  (stream rs (pos rs), mkRandomState (stream rs) (S (pos rs))).


End np.

(** ** Module-level constants *)

Definition WEIGHT : R := 1e-4.
Definition M : R := 0.1.
Definition COSZERO : R := 1.0 - 1.0e-12.
Definition COS90 : R := 1.0e-6.
Definition PARTIAL_REFLECTION : Z := 0.

(** ** Layers

  The classes [medium], [skin], [Fat] and [Muscle] all expose [name],
  [n], [g], [z], [mua], [mus]; the constructors of [skin], [Fat] and
  [Muscle], which set [mua] and [mus] from tables, follow the walker.  Only
  [Muscle] carries the bone attributes, so they are optional here and
  reading them on another class raises [AttributeError]. *)

Module Bone.
Record t : Type := mk {
  nBone : R;
  muaBone : R;
  musBone : R;
  gBone : R;
  rBone : R;
  boneCenter : R * R * R
}.
End Bone.

Module medium.
Record t : Type := mk {
  name : string;
  n : R;
  g : R;
  z : R;
  mua : R;
  mus : R;
  bone : option Bone.t
}.

(** Attribute access [layer.nBone], [layer.muaBone], ... *)
Definition bone_attr {T : Type} (f : Bone.t -> T) (l : t) : result T :=
  match bone l with
  | Some b => Ok (f b)
  | None => Raise AttributeError
  end.
End medium.

(** ** The model: layer structure, grid geometry and accumulators *)

Module model.

Record t : Type := mk {
  layers : list medium.t;
  numberOfLayers : Z;
  layerDepth : list (R * R);
  W_th : R;
  cosCrit : list (R * R);
  nx : Z;
  ny : Z;
  nz : Z;
  nr : Z;
  na : Z;
  dx : R;
  dy : R;
  dz : R;
  dr : R;
  da : R;
  numberOfPhotons : Z;
  Rsp : R;
  Rd : R;
  A : R;
  Tt : R;
  Rd_ra : np.array2;
  Rd_r : np.array1;
  Rd_a : np.array1;
  A_rz : np.array2;
  A_z : np.array1;
  A_l : np.array1;
  Phi_rz : np.array2;
  Phi_z : np.array1;
  Tt_ra : np.array2;
  Tt_r : np.array1;
  Tt_a : np.array1
}.

(** In-place attribute assignment [self.f = v]. *)
Definition set_numberOfPhotons (v : Z) (m : t) : t :=
  mk (layers m) (numberOfLayers m) (layerDepth m) (W_th m) (cosCrit m)
    (nx m) (ny m) (nz m) (nr m) (na m) (dx m) (dy m) (dz m) (dr m) (da m)
    v (Rsp m) (Rd m) (A m) (Tt m) (Rd_ra m) (Rd_r m) (Rd_a m) (A_rz m)
    (A_z m) (A_l m) (Phi_rz m) (Phi_z m) (Tt_ra m) (Tt_r m) (Tt_a m).
Definition set_Rd (v : R) (m : t) : t :=
  mk (layers m) (numberOfLayers m) (layerDepth m) (W_th m) (cosCrit m)
    (nx m) (ny m) (nz m) (nr m) (na m) (dx m) (dy m) (dz m) (dr m) (da m)
    (numberOfPhotons m) (Rsp m) v (A m) (Tt m) (Rd_ra m) (Rd_r m) (Rd_a m)
    (A_rz m) (A_z m) (A_l m) (Phi_rz m) (Phi_z m) (Tt_ra m) (Tt_r m)
    (Tt_a m).
Definition set_A (v : R) (m : t) : t :=
  mk (layers m) (numberOfLayers m) (layerDepth m) (W_th m) (cosCrit m)
    (nx m) (ny m) (nz m) (nr m) (na m) (dx m) (dy m) (dz m) (dr m) (da m)
    (numberOfPhotons m) (Rsp m) (Rd m) v (Tt m) (Rd_ra m) (Rd_r m)
    (Rd_a m) (A_rz m) (A_z m) (A_l m) (Phi_rz m) (Phi_z m) (Tt_ra m)
    (Tt_r m) (Tt_a m).
Definition set_Tt (v : R) (m : t) : t :=
  mk (layers m) (numberOfLayers m) (layerDepth m) (W_th m) (cosCrit m)
    (nx m) (ny m) (nz m) (nr m) (na m) (dx m) (dy m) (dz m) (dr m) (da m)
    (numberOfPhotons m) (Rsp m) (Rd m) (A m) v (Rd_ra m) (Rd_r m) (Rd_a m)
    (A_rz m) (A_z m) (A_l m) (Phi_rz m) (Phi_z m) (Tt_ra m) (Tt_r m)
    (Tt_a m).
Definition set_Rd_ra (v : np.array2) (m : t) : t :=
  mk (layers m) (numberOfLayers m) (layerDepth m) (W_th m) (cosCrit m)
    (nx m) (ny m) (nz m) (nr m) (na m) (dx m) (dy m) (dz m) (dr m) (da m)
    (numberOfPhotons m) (Rsp m) (Rd m) (A m) (Tt m) v (Rd_r m) (Rd_a m)
    (A_rz m) (A_z m) (A_l m) (Phi_rz m) (Phi_z m) (Tt_ra m) (Tt_r m)
    (Tt_a m).
Definition set_Rd_r (v : np.array1) (m : t) : t :=
  mk (layers m) (numberOfLayers m) (layerDepth m) (W_th m) (cosCrit m)
    (nx m) (ny m) (nz m) (nr m) (na m) (dx m) (dy m) (dz m) (dr m) (da m)
    (numberOfPhotons m) (Rsp m) (Rd m) (A m) (Tt m) (Rd_ra m) v (Rd_a m)
    (A_rz m) (A_z m) (A_l m) (Phi_rz m) (Phi_z m) (Tt_ra m) (Tt_r m)
    (Tt_a m).
Definition set_Rd_a (v : np.array1) (m : t) : t :=
  mk (layers m) (numberOfLayers m) (layerDepth m) (W_th m) (cosCrit m)
    (nx m) (ny m) (nz m) (nr m) (na m) (dx m) (dy m) (dz m) (dr m) (da m)
    (numberOfPhotons m) (Rsp m) (Rd m) (A m) (Tt m) (Rd_ra m) (Rd_r m) v
    (A_rz m) (A_z m) (A_l m) (Phi_rz m) (Phi_z m) (Tt_ra m) (Tt_r m)
    (Tt_a m).
Definition set_A_rz (v : np.array2) (m : t) : t :=
  mk (layers m) (numberOfLayers m) (layerDepth m) (W_th m) (cosCrit m)
    (nx m) (ny m) (nz m) (nr m) (na m) (dx m) (dy m) (dz m) (dr m) (da m)
    (numberOfPhotons m) (Rsp m) (Rd m) (A m) (Tt m) (Rd_ra m) (Rd_r m)
    (Rd_a m) v (A_z m) (A_l m) (Phi_rz m) (Phi_z m) (Tt_ra m) (Tt_r m)
    (Tt_a m).
Definition set_A_z (v : np.array1) (m : t) : t :=
  mk (layers m) (numberOfLayers m) (layerDepth m) (W_th m) (cosCrit m)
    (nx m) (ny m) (nz m) (nr m) (na m) (dx m) (dy m) (dz m) (dr m) (da m)
    (numberOfPhotons m) (Rsp m) (Rd m) (A m) (Tt m) (Rd_ra m) (Rd_r m)
    (Rd_a m) (A_rz m) v (A_l m) (Phi_rz m) (Phi_z m) (Tt_ra m) (Tt_r m)
    (Tt_a m).
Definition set_A_l (v : np.array1) (m : t) : t :=
  mk (layers m) (numberOfLayers m) (layerDepth m) (W_th m) (cosCrit m)
    (nx m) (ny m) (nz m) (nr m) (na m) (dx m) (dy m) (dz m) (dr m) (da m)
    (numberOfPhotons m) (Rsp m) (Rd m) (A m) (Tt m) (Rd_ra m) (Rd_r m)
    (Rd_a m) (A_rz m) (A_z m) v (Phi_rz m) (Phi_z m) (Tt_ra m) (Tt_r m)
    (Tt_a m).
Definition set_Phi_rz (v : np.array2) (m : t) : t :=
  mk (layers m) (numberOfLayers m) (layerDepth m) (W_th m) (cosCrit m)
    (nx m) (ny m) (nz m) (nr m) (na m) (dx m) (dy m) (dz m) (dr m) (da m)
    (numberOfPhotons m) (Rsp m) (Rd m) (A m) (Tt m) (Rd_ra m) (Rd_r m)
    (Rd_a m) (A_rz m) (A_z m) (A_l m) v (Phi_z m) (Tt_ra m) (Tt_r m)
    (Tt_a m).
Definition set_Phi_z (v : np.array1) (m : t) : t :=
  mk (layers m) (numberOfLayers m) (layerDepth m) (W_th m) (cosCrit m)
    (nx m) (ny m) (nz m) (nr m) (na m) (dx m) (dy m) (dz m) (dr m) (da m)
    (numberOfPhotons m) (Rsp m) (Rd m) (A m) (Tt m) (Rd_ra m) (Rd_r m)
    (Rd_a m) (A_rz m) (A_z m) (A_l m) (Phi_rz m) v (Tt_ra m) (Tt_r m)
    (Tt_a m).
Definition set_Tt_ra (v : np.array2) (m : t) : t :=
  mk (layers m) (numberOfLayers m) (layerDepth m) (W_th m) (cosCrit m)
    (nx m) (ny m) (nz m) (nr m) (na m) (dx m) (dy m) (dz m) (dr m) (da m)
    (numberOfPhotons m) (Rsp m) (Rd m) (A m) (Tt m) (Rd_ra m) (Rd_r m)
    (Rd_a m) (A_rz m) (A_z m) (A_l m) (Phi_rz m) (Phi_z m) v (Tt_r m)
    (Tt_a m).
Definition set_Tt_r (v : np.array1) (m : t) : t :=
  mk (layers m) (numberOfLayers m) (layerDepth m) (W_th m) (cosCrit m)
    (nx m) (ny m) (nz m) (nr m) (na m) (dx m) (dy m) (dz m) (dr m) (da m)
    (numberOfPhotons m) (Rsp m) (Rd m) (A m) (Tt m) (Rd_ra m) (Rd_r m)
    (Rd_a m) (A_rz m) (A_z m) (A_l m) (Phi_rz m) (Phi_z m) (Tt_ra m) v
    (Tt_a m).
Definition set_Tt_a (v : np.array1) (m : t) : t :=
  mk (layers m) (numberOfLayers m) (layerDepth m) (W_th m) (cosCrit m)
    (nx m) (ny m) (nz m) (nr m) (na m) (dx m) (dy m) (dz m) (dr m) (da m)
    (numberOfPhotons m) (Rsp m) (Rd m) (A m) (Tt m) (Rd_ra m) (Rd_r m)
    (Rd_a m) (A_rz m) (A_z m) (A_l m) (Phi_rz m) (Phi_z m) (Tt_ra m)
    (Tt_r m) v.
Definition set_Rsp (v : R) (m : t) : t :=
  mk (layers m) (numberOfLayers m) (layerDepth m) (W_th m) (cosCrit m)
    (nx m) (ny m) (nz m) (nr m) (na m) (dx m) (dy m) (dz m) (dr m) (da m)
    (numberOfPhotons m) v (Rd m) (A m) (Tt m) (Rd_ra m) (Rd_r m) (Rd_a m)
    (A_rz m) (A_z m) (A_l m) (Phi_rz m) (Phi_z m) (Tt_ra m) (Tt_r m)
    (Tt_a m).

(** [model.calcSpecular]: specular reflection at the first tissue layer,
    composed with the second interface when layer 1 is clear. *)
Definition calcSpecular (m : t) : result R :=
  l0 <- py.getitem (layers m) 0 ;;
  l1 <- py.getitem (layers m) 1 ;;
  let r1 := ((medium.n l0 - medium.n l1) / (medium.n l0 + medium.n l1)) ^ 2 in
  if py.eq (medium.mua l1) 0 && py.eq (medium.mus l1) 0 then
    l2 <- py.getitem (layers m) 2 ;;
    let r2 := ((medium.n l1 - medium.n l2) / (medium.n l1 + medium.n l2)) ^ 2 in
    Ok (r1 + (((1 - r1) ^ 2) * r2) / (1 - r1 * r2))
  else Ok r1.

(** Critical-angle cosine of a face from index [n_i] towards [n_t]. *)
Definition cosCritFace (n_i n_t : R) : R :=
  if py.ge n_i n_t then sqrt (1 - (n_t ^ 2) / (n_i ^ 2)) else 0.

(** [model.__init__(structure, numberOfLayers)] *)
Definition __init__ (structure : list medium.t) (numberOfLayers : Z) : result t :=
  '(_, layerDepth) <-
    py.for_range 1 (numberOfLayers + 1)
      (fun i '(z, layerDepth) =>
         l <- py.getitem structure i ;;
         Ok (z + medium.z l, layerDepth ++ [(z, z + medium.z l)]))
      (0, [(0, 0)]) ;;
  cosCrit <-
    py.for_range 1 (numberOfLayers + 1)
      (fun i cosCrit =>
         l_i <- py.getitem structure i ;;
         l_up <- py.getitem structure (i - 1) ;;
         let cosCritTop := cosCritFace (medium.n l_i) (medium.n l_up) in
         l_down <- py.getitem structure (i + 1) ;;
         let cosCritBott := cosCritFace (medium.n l_i) (medium.n l_down) in
         Ok (cosCrit ++ [(cosCritTop, cosCritBott)]))
      [(0, 0)] ;;
  let nx := 650%Z in
  let ny := 650%Z in
  let nz := 650%Z in
  let nr := 250%Z in
  let na := 30%Z in
  let self :=
    mk structure numberOfLayers layerDepth WEIGHT cosCrit
       nx ny nz nr na 2e-2 2e-2 2e-2 2e-2 (0.5 * PI / IZR na)
       0 0 0 0 0
       (np.zeros2 nr na) (np.zeros1 nr) (np.zeros1 na)
       (np.zeros2 nr nz) (np.zeros1 nz) (np.zeros1 (numberOfLayers + 2))
       (np.zeros2 nr nz) (np.zeros1 nz)
       (np.zeros2 nr na) (np.zeros1 nr) (np.zeros1 na) in
  Rsp <- calcSpecular self ;;
  Ok (set_Rsp Rsp self).

(** [model.sumRT]: radial and angular projections and scalar totals. *)
Definition sumRT (m : t) : result t :=
  m <- py.for_range 0 (nr m)
    (fun ir m =>
       '(sumR, sumT) <-
         py.for_range 0 (na m)
           (fun ia '(sumR, sumT) =>
              r <- np.get2 (Rd_ra m) ir ia ;;
              t <- np.get2 (Tt_ra m) ir ia ;;
              Ok (sumR + r, sumT + t))
           (0, 0) ;;
       Rd_r' <- py.setitem (Rd_r m) ir sumR ;;
       Tt_r' <- py.setitem (Tt_r m) ir sumT ;;
       Ok (set_Tt_r Tt_r' (set_Rd_r Rd_r' m)))
    m ;;
  m <- py.for_range 0 (na m)
    (fun ia m =>
       '(sumR, sumT) <-
         py.for_range 0 (nr m)
           (fun ir '(sumR, sumT) =>
              r <- np.get2 (Rd_ra m) ir ia ;;
              t <- np.get2 (Tt_ra m) ir ia ;;
              Ok (sumR + r, sumT + t))
           (0, 0) ;;
       Rd_a' <- py.setitem (Rd_a m) ia sumR ;;
       Tt_a' <- py.setitem (Tt_a m) ia sumT ;;
       Ok (set_Tt_a Tt_a' (set_Rd_a Rd_a' m)))
    m ;;
  '(sumR, sumT) <-
    py.for_range 0 (nr m)
      (fun ir '(sumR, sumT) =>
         r <- py.getitem (Rd_r m) ir ;;
         t <- py.getitem (Tt_r m) ir ;;
         Ok (sumR + r, sumT + t))
      (0, 0) ;;
  Ok (set_Tt sumT (set_Rd sumR m)).

(** The loop of [indexLayer] and [muaIz]:
    [while (iz+0.5)*dz >= layerDepth[i][1] and i < numberOfLayers: i += 1].
    [i] grows by one per turn and the loop stops once it reaches
    [numberOfLayers], so [numberOfLayers - i] turns are enough; [fuel]
    counts them. *)
Fixpoint layerOfBin (fuel : nat) (m : t) (iz i : Z) : result Z :=
  d <- py.getitem (layerDepth m) i ;;
  if py.ge ((IZR iz + 0.5) * dz m) (snd d) && (i <? numberOfLayers m)%Z then
    match fuel with
    | O => Ok (i + 1)%Z
    | S fuel' => layerOfBin fuel' m iz (i + 1)
    end
  else Ok i.

(** [model.indexLayer(iz)] *)
Definition indexLayer (m : t) (iz : Z) : result Z :=
  layerOfBin (Z.to_nat (numberOfLayers m)) m iz 1.

(** [model.muaIz(iz)] *)
Definition muaIz (m : t) (iz : Z) : result R :=
  i <- layerOfBin (Z.to_nat (numberOfLayers m)) m iz 1 ;;
  l <- py.getitem (layers m) i ;;
  Ok (medium.mua l).

(** [model.sumA]: depth projection, per-layer totals and total absorption. *)
Definition sumA (m : t) : result t :=
  m <- py.for_range 0 (nz m)
    (fun iz m =>
       sumA <-
         py.for_range 0 (nr m)
           (fun ir sumA => a <- np.get2 (A_rz m) ir iz ;; Ok (sumA + a))
           0 ;;
       A_z' <- py.setitem (A_z m) iz sumA ;;
       Ok (set_A_z A_z' m))
    m ;;
  '(sumA, m) <-
    py.for_range 0 (nz m)
      (fun iz '(sumA, m) =>
         a <- py.getitem (A_z m) iz ;;
         il <- indexLayer m iz ;;
         old <- py.getitem (A_l m) il ;;
         a' <- py.getitem (A_z m) iz ;;
         A_l' <- py.setitem (A_l m) il (old + a') ;;
         Ok (sumA + a, set_A_l A_l' m))
      (0, m) ;;
  Ok (set_A sumA m).

(** [model.Fluence] *)
Definition Fluence (m : t) : result t :=
  py.for_range 0 (nz m)
    (fun iz m =>
       py.for_range 0 (nr m)
         (fun ir m =>
            mua <- muaIz m iz ;;
            a <- np.get2 (A_rz m) ir iz ;;
            Phi_rz' <- np.set2 (Phi_rz m) ir iz (a / mua) ;;
            let m := set_Phi_rz Phi_rz' m in
            az <- py.getitem (A_z m) iz ;;
            Phi_z' <- py.setitem (Phi_z m) iz (az / mua) ;;
            Ok (set_Phi_z Phi_z' m))
         m)
    m.

(** Geometric factors of the scaling: ring area and solid angle. *)
Definition dArea (m : t) (ir : Z) : R :=
  2.0 * PI * (IZR ir + 0.5) * (dr m ^ 2).

Definition dSolidAngle (m : t) (ia : Z) : R :=
  4.0 * PI * sin ((IZR ia + 0.5) * da m) * sin (0.5 * da m).

(** The divisors used by [scaleRT] and [scaleA], cell by cell. *)
Definition scale_ra (m : t) (ir ia : Z) : R :=
  dArea m ir * cos ((IZR ia + 0.5) * da m) * dSolidAngle m ia
  * IZR (numberOfPhotons m).

Definition scale_r (m : t) (ir : Z) : R :=
  dArea m ir * IZR (numberOfPhotons m).

Definition scale_a (m : t) (ia : Z) : R :=
  dSolidAngle m ia * IZR (numberOfPhotons m).

Definition scale_rz (m : t) (ir : Z) : R :=
  dArea m ir * dz m * IZR (numberOfPhotons m).

Definition scale_z (m : t) : R :=
  dz m * IZR (numberOfPhotons m).

(** [model.scaleRT] *)
Definition scaleRT (m : t) : result t :=
  m <- py.for_range 0 (nr m)
    (fun ir m =>
       py.for_range 0 (na m)
         (fun ia m =>
            let scale := scale_ra m ir ia in
            r <- np.get2 (Rd_ra m) ir ia ;;
            Rd_ra' <- np.set2 (Rd_ra m) ir ia (r / scale) ;;
            let m := set_Rd_ra Rd_ra' m in
            t <- np.get2 (Tt_ra m) ir ia ;;
            Tt_ra' <- np.set2 (Tt_ra m) ir ia (t / scale) ;;
            Ok (set_Tt_ra Tt_ra' m))
         m)
    m ;;
  m <- py.for_range 0 (nr m)
    (fun ir m =>
       let scale := scale_r m ir in
       r <- py.getitem (Rd_r m) ir ;;
       Rd_r' <- py.setitem (Rd_r m) ir (r / scale) ;;
       let m := set_Rd_r Rd_r' m in
       t <- py.getitem (Tt_r m) ir ;;
       Tt_r' <- py.setitem (Tt_r m) ir (t / scale) ;;
       Ok (set_Tt_r Tt_r' m))
    m ;;
  m <- py.for_range 0 (na m)
    (fun ia m =>
       let scale := scale_a m ia in
       r <- py.getitem (Rd_a m) ia ;;
       Rd_a' <- py.setitem (Rd_a m) ia (r / scale) ;;
       let m := set_Rd_a Rd_a' m in
       t <- py.getitem (Tt_a m) ia ;;
       Tt_a' <- py.setitem (Tt_a m) ia (t / scale) ;;
       Ok (set_Tt_a Tt_a' m))
    m ;;
  let scale := IZR (numberOfPhotons m) in
  let m := set_Rd (Rd m / scale) m in
  Ok (set_Tt (Tt m / scale) m).

(** [model.scaleA] *)
Definition scaleA (m : t) : result t :=
  m <- py.for_range 0 (nz m)
    (fun iz m =>
       py.for_range 0 (nr m)
         (fun ir m =>
            let scale := scale_rz m ir in
            a <- np.get2 (A_rz m) ir iz ;;
            A_rz' <- np.set2 (A_rz m) ir iz (a / scale) ;;
            Ok (set_A_rz A_rz' m))
         m)
    m ;;
  let scale := scale_z m in
  m <- py.for_range 0 (nz m)
    (fun iz m =>
       a <- py.getitem (A_z m) iz ;;
       A_z' <- py.setitem (A_z m) iz (a / scale) ;;
       Ok (set_A_z A_z' m))
    m ;;
  let scale := IZR (numberOfPhotons m) in
  m <- py.for_range 0 (numberOfLayers m + 2)
    (fun il m =>
       a <- py.getitem (A_l m) il ;;
       A_l' <- py.setitem (A_l m) il (a / scale) ;;
       Ok (set_A_l A_l' m))
    m ;;
  Ok (set_A (A m / scale) m).

(** [model.computeAndScaleArraySums] *)
Definition computeAndScaleArraySums (m : t) : result t :=
  m <- sumRT m ;;
  m <- scaleRT m ;;
  m <- sumA m ;;
  m <- scaleA m ;;
  Fluence m.

End model.

(** ** The photon packet and its walk *)

Module Photon.

Record t : Type := mk {
  x : R;
  y : R;
  z : R;
  ux : R;
  uy : R;
  uz : R;
  w : R;
  dead : bool;
  layer : Z;
  s : R;
  s_rem : R
}.

(** In-place attribute assignment [self.f = v]. *)
Definition set_x (v : R) (p : t) : t :=
    mk v (y p) (z p) (ux p) (uy p) (uz p) (w p) (dead p) (layer p) (s p)
      (s_rem p).
Definition set_y (v : R) (p : t) : t :=
    mk (x p) v (z p) (ux p) (uy p) (uz p) (w p) (dead p) (layer p) (s p)
      (s_rem p).
Definition set_z (v : R) (p : t) : t :=
    mk (x p) (y p) v (ux p) (uy p) (uz p) (w p) (dead p) (layer p) (s p)
      (s_rem p).
Definition set_ux (v : R) (p : t) : t :=
    mk (x p) (y p) (z p) v (uy p) (uz p) (w p) (dead p) (layer p) (s p)
      (s_rem p).
Definition set_uy (v : R) (p : t) : t :=
    mk (x p) (y p) (z p) (ux p) v (uz p) (w p) (dead p) (layer p) (s p)
      (s_rem p).
Definition set_uz (v : R) (p : t) : t :=
    mk (x p) (y p) (z p) (ux p) (uy p) v (w p) (dead p) (layer p) (s p)
      (s_rem p).
Definition set_w (v : R) (p : t) : t :=
    mk (x p) (y p) (z p) (ux p) (uy p) (uz p) v (dead p) (layer p) (s p)
      (s_rem p).
Definition set_dead (v : bool) (p : t) : t :=
    mk (x p) (y p) (z p) (ux p) (uy p) (uz p) (w p) v (layer p) (s p)
      (s_rem p).
Definition set_layer (v : Z) (p : t) : t :=
    mk (x p) (y p) (z p) (ux p) (uy p) (uz p) (w p) (dead p) v (s p)
      (s_rem p).
Definition set_s (v : R) (p : t) : t :=
    mk (x p) (y p) (z p) (ux p) (uy p) (uz p) (w p) (dead p) (layer p) v
      (s_rem p).
Definition set_s_rem (v : R) (p : t) : t :=
    mk (x p) (y p) (z p) (ux p) (uy p) (uz p) (w p) (dead p) (layer p) (s p)
      v.

(** The value of a local variable that some paths leave unassigned. *)
Definition local {T : Type} (v : option T) : result T :=
  match v with
  | Some a => Ok a
  | None => Raise UnboundLocalError
  end.

(** [Photon.__init__(model)].  The attribute [layer] is first set to [2]
    on the clear-layer path and then assigned [1] unconditionally. *)
Definition __init__ (m : model.t) : result t :=
  let x := 0 in
  let y := 0 in
  let z := 0 in
  l1 <- py.getitem (model.layers m) 1 ;;
  '(layer, z) <-
    (if py.eq (medium.mua l1) 0 && py.eq (medium.mus l1) 0 then
       d <- py.getitem (model.layerDepth m) 2 ;;
       Ok (Some 2%Z, fst d)
     else Ok (@None Z, z)) ;;
  let ux := 0 in
  let uy := 0 in
  let uz := 1 in
  let w := 1 - model.Rsp m in
  let dead := false in
  let layer := 1%Z in
  let s := 0 in
  let s_rem := 0 in
  Ok (mk x y z ux uy uz w dead layer s s_rem).

(** [Photon.roulette] *)
Definition roulette (p : t) (rs : np.RandomState) : t * np.RandomState :=
  if py.eq (w p) 0 then (set_dead true p, rs)
  else
    let '(u, rs) := np.random rs in
    if py.lt u M then (set_w (w p / M) p, rs)
    else (set_dead true p, rs).

(** [Photon.stepSizeGlass] *)
Definition stepSizeGlass (m : model.t) (p : t) : result t :=
  let layer := layer p in
  let z := z p in
  let uz := uz p in
  d <- py.getitem (model.layerDepth m) layer ;;
  let d_b := if py.gt uz 0 then (snd d - z) / uz else (fst d - z) / uz in
  Ok (set_s d_b p).

(** [Photon.calcFresnel(n1, n2, cosInc)]: reflectance and transmitted cosine. *)
Definition calcFresnel (n1 n2 cosInc : R) : R * R :=
  if py.eq n1 n2 then (0, cosInc)
  else if py.gt (Rabs cosInc) COSZERO then
    let r := (n2 - n1) / (n2 + n1) in
    (r * r, cosInc)
  else if py.lt (Rabs cosInc) COS90 then (1, 0)
  else
    let sinInc := sqrt (1 - Rabs cosInc ^ 2) in
    let sinTran := (n1 / n2) * sinInc in
    if py.ge sinTran 1 then (1, 0)
    else
      let cosTran := sqrt (1 - sinTran ^ 2) in
      let cosPlus := cosInc * cosTran - sinInc * sinTran in
      let cosMinus := cosInc * cosTran + sinInc * sinTran in
      let sinPlus := sinInc * cosTran + cosInc * sinTran in
      let sinMinus := sinInc * cosTran - cosInc * sinTran in
      (0.5 * (sinMinus ^ 2) * (cosMinus ^ 2 + cosPlus ^ 2)
       / (sinPlus ^ 2 * cosMinus ^ 2),
       cosTran).

(** Grid bin of a coordinate: [int(v / d)], folded into the last of [n] bins. *)
Definition bin (v d : R) (n : Z) : Z :=
  let i := py.int (v / d) in
  if (i >? n - 1)%Z then (n - 1)%Z else i.

(** [Photon.recordReduce(model, reflectance)] *)
Definition recordReduce (m : model.t) (p : t) (reflectance : R)
  : result (model.t * t) :=
  let x := x p in
  let y := y p in
  let ir := bin (sqrt (x ^ 2 + y ^ 2)) (model.dr m) (model.nr m) in
  let ia := bin (acos (Rabs (uz p))) (model.da m) (model.na m) in
  if (layer p =? 1)%Z then
    old <- np.get2 (model.Rd_ra m) ir ia ;;
    Rd_ra' <- np.set2 (model.Rd_ra m) ir ia (old + w p * (1 - reflectance)) ;;
    Ok (model.set_Rd_ra Rd_ra' m, set_w (w p * reflectance) p)
  else
    old <- np.get2 (model.Tt_ra m) ir ia ;;
    Tt_ra' <- np.set2 (model.Tt_ra m) ir ia (old + w p * (1 - reflectance)) ;;
    Ok (model.set_Tt_ra Tt_ra' m, set_w (w p * reflectance) p).

(** The reflectance at a face: [1] with [uzNew] left unassigned below the
    critical cosine, Fresnel's otherwise. *)
Definition faceReflectance (cosCritFace n_i n_t cosInc : R) : R * option R :=
  if py.le (Rabs cosInc) cosCritFace then (1, None)
  else let '(r, uzNew) := calcFresnel n_i n_t cosInc in (r, Some uzNew).

(** Crossing into the neighbouring layer [layer + step]. *)
Definition transmit (step : Z) (n_i n_t uz' : R) (p : t) : t :=
  set_uz uz'
    (set_uy (uy p * (n_i / n_t))
       (set_ux (ux p * (n_i / n_t)) (set_layer (layer p + step) p))).

(** [Photon.newLayerCheck(model)] *)
Definition newLayerCheck (m : model.t) (p : t) (rs : np.RandomState)
  : result (model.t * t * np.RandomState) :=
  let uz := uz p in
  if py.lt uz 0 then
    l_i <- py.getitem (model.layers m) (layer p) ;;
    let n_i := medium.n l_i in
    l_t <- py.getitem (model.layers m) (layer p - 1) ;;
    let n_t := medium.n l_t in
    cc <- py.getitem (model.cosCrit m) (layer p) ;;
    let '(r, uzNew) := faceReflectance (fst cc) n_i n_t (Rabs uz) in
    if (PARTIAL_REFLECTION =? 1)%Z then
      if (layer p =? 1)%Z && py.lt r 1 then
        c <- local uzNew ;;
        '(m, p) <- recordReduce m (set_uz (- c) p) r ;;
        Ok (m, set_uz (- uz) p, rs)
      else
        let '(u, rs) := np.random rs in
        if py.gt u r then
          c <- local uzNew ;;
          Ok (m, transmit (-1) n_i n_t (- c) p, rs)
        else Ok (m, set_uz (- uz) p, rs)
    else
      let '(u, rs) := np.random rs in
      if py.gt u r then
        if (layer p =? 1)%Z then
          c <- local uzNew ;;
          '(m, p) <- recordReduce m (set_uz (- c) p) 0 ;;
          Ok (m, set_dead true p, rs)
        else
          c <- local uzNew ;;
          Ok (m, transmit (-1) n_i n_t (- c) p, rs)
      else Ok (m, set_uz (- uz) p, rs)
  else
    l_i <- py.getitem (model.layers m) (layer p) ;;
    let n_i := medium.n l_i in
    l_t <- py.getitem (model.layers m) (layer p + 1) ;;
    let n_t := medium.n l_t in
    cc <- py.getitem (model.cosCrit m) (layer p) ;;
    let '(r, uzNew) := faceReflectance (snd cc) n_i n_t uz in
    if (PARTIAL_REFLECTION =? 1)%Z then
      if (layer p =? model.numberOfLayers m)%Z && py.lt r 1 then
        c <- local uzNew ;;
        '(m, p) <- recordReduce m (set_uz c p) r ;;
        Ok (m, set_uz (- uz) p, rs)
      else
        let '(u, rs) := np.random rs in
        if py.gt u r then
          c <- local uzNew ;;
          Ok (m, transmit 1 n_i n_t c p, rs)
        else Ok (m, set_uz (- uz) p, rs)
    else
      let '(u, rs) := np.random rs in
      if py.gt u r then
        if (layer p =? model.numberOfLayers m)%Z then
          c <- local uzNew ;;
          '(m, p) <- recordReduce m (set_uz c p) 0 ;;
          Ok (m, set_dead true p, rs)
        else
          c <- local uzNew ;;
          Ok (m, transmit 1 n_i n_t c p, rs)
      else Ok (m, set_uz (- uz) p, rs).

(** [Photon.hop] *)
Definition hop (p : t) : t :=
  let s := s p in
  let p := set_x (x p + s * ux p) p in
  let p := set_y (y p + s * uy p) p in
  set_z (z p + s * uz p) p.

(** [Photon.hopDropSpinGlass(model)] *)
Definition hopDropSpinGlass (m : model.t) (p : t) (rs : np.RandomState)
  : result (model.t * t * np.RandomState) :=
  if py.eq (uz p) 0 then Ok (m, set_dead true p, rs)
  else
    p <- stepSizeGlass m p ;;
    newLayerCheck m (hop p) rs.

(** [Photon.stepSizeTissue(model)] *)
Definition stepSizeTissue (m : model.t) (p : t) (rs : np.RandomState)
  : result (t * np.RandomState) :=
  let layer := layer p in
  l <- py.getitem (model.layers m) layer ;;
  let mua := medium.mua l in
  let mus := medium.mus l in
  let mut := mua + mus in
  if py.eq (s_rem p) 0 then
    let '(rand, rs) := np.random rs in
    Ok (set_s (- ln rand / mut) p, rs)
  else
    Ok (set_s_rem 0 (set_s (s_rem p / mut) p), rs).

(** [Photon.boundaryHit(model)].  The local [hit] is assigned only under
    [uz != 0]; [return hit] reads it. *)
Definition boundaryHit (m : model.t) (p : t) : result (bool * t) :=
  let layer := layer p in
  let z := z p in
  let uz := uz p in
  l <- py.getitem (model.layers m) layer ;;
  let mua := medium.mua l in
  let mus := medium.mus l in
  let mut := mua + mus in
  '(hit, p) <-
    (if negb (py.eq uz 0) then
       d <- py.getitem (model.layerDepth m) layer ;;
       let d_b := if py.gt uz 0 then (snd d - z) / uz else (fst d - z) / uz in
       if py.gt (s p) d_b then
         Ok (Some true, set_s d_b (set_s_rem ((s p - d_b) * mut) p))
       else Ok (Some false, p)
     else Ok (@None bool, p)) ;;
  hit <- local hit ;;
  Ok (hit, p).

(** [Photon.inBone(model)] *)
Definition inBone (m : model.t) (p : t) (rs : np.RandomState)
  : result (bool * t * np.RandomState) :=
  let uz := uz p in
  l <- py.getitem (model.layers m) (layer p) ;;
  let n_i := medium.n l in
  n_t <- medium.bone_attr Bone.nBone l ;;
  let '(r, uzNew) := calcFresnel n_i n_t (Rabs uz) in
  let '(u, rs) := np.random rs in
  if py.gt u r then
    let p := set_ux (ux p * (n_i / n_t)) p in
    let p := set_uy (uy p * (n_i / n_t)) p in
    if py.gt uz 0 then Ok (true, set_uz uzNew p, rs)
    else Ok (true, set_uz (- uzNew) p, rs)
  else Ok (false, set_uz (- uz) p, rs).

(** [Photon.drop(model)] *)
Definition drop (m : model.t) (p : t) (rs : np.RandomState)
  : result (model.t * t * np.RandomState) :=
  let x := x p in
  let y := y p in
  let layer := layer p in
  l <- py.getitem (model.layers m) layer ;;
  '(inside, p, rs) <-
    (if String.eqb (py.lower (medium.name l)) (py.lower "muscle") then
       inBone m p rs
     else Ok (false, p, rs)) ;;
  '(mua, mus) <-
    (if inside then
       mua <- medium.bone_attr Bone.muaBone l ;;
       mus <- medium.bone_attr Bone.musBone l ;;
       Ok (mua, mus)
     else Ok (medium.mua l, medium.mus l)) ;;
  let mut := mua + mus in
  let iz := bin (z p) (model.dz m) (model.nz m) in
  let ir := bin (sqrt (x ^ 2 + y ^ 2)) (model.dr m) (model.nr m) in
  let dw := w p * mua / mut in
  old <- np.get2 (model.A_rz m) ir iz ;;
  A_rz' <- np.set2 (model.A_rz m) ir iz (old + dw) ;;
  Ok (model.set_A_rz A_rz' m, set_w (w p - dw) p, rs).

(** The direction update that ends [Photon.spin], for a deflection with
    cosine and sine [cosTheta], [sinTheta] and an azimuth with cosine and
    sine [cosPsi], [sinPsi]. *)
Definition deflect (cosTheta sinTheta cosPsi sinPsi : R) (p : t) : t :=
  let ux := ux p in
  let uy := uy p in
  let uz := uz p in
  if py.gt (Rabs uz) COSZERO then
    set_uz (cosTheta * np.sign uz)
      (set_uy (sinTheta * sinPsi) (set_ux (sinTheta * cosPsi) p))
  else
    set_uz (- sinTheta * cosPsi * sqrt (1 - uz ^ 2) + uz * cosTheta)
      (set_uy (sinTheta * (uy * uz * cosPsi + ux * sinPsi)
               / sqrt (1 - uz ^ 2) + uy * cosTheta)
         (set_ux (sinTheta * (ux * uz * cosPsi - uy * sinPsi)
                  / sqrt (1 - uz ^ 2) + ux * cosTheta) p)).

(** The deflection cosine sampled by [Photon.spin] from a draw [u]. *)
Definition sampleCosTheta (g u : R) : R :=
  if py.eq g 0 then 2 * u - 1
  else
    let brack := (1 - g ^ 2) / (1 - g + 2 * g * u) in
    let cosTheta := (1 + g ^ 2 - brack ^ 2) / (2 * g) in
    if py.lt cosTheta (-1) then -1.0
    else if py.gt cosTheta 1 then 1.0
    else cosTheta.

(** [Photon.spin(g)] *)
Definition spin (g : R) (p : t) (rs : np.RandomState) : t * np.RandomState :=
  let '(u, rs) := np.random rs in
  let cosTheta := sampleCosTheta g u in
  let sinTheta := sqrt (1 - cosTheta ^ 2) in
  let '(v, rs) := np.random rs in
  let psi := 2.0 * PI * v in
  let cosPsi := cos psi in
  let sinPsi :=
    if py.lt psi PI then sqrt (1 - cosPsi ^ 2) else - sqrt (1 - cosPsi ^ 2) in
  (deflect cosTheta sinTheta cosPsi sinPsi p, rs).

(** [Photon.hopDropSpinTissue(model)] *)
Definition hopDropSpinTissue (m : model.t) (p : t) (rs : np.RandomState)
  : result (model.t * t * np.RandomState) :=
  '(p, rs) <- stepSizeTissue m p rs ;;
  '(hit, p) <- boundaryHit m p ;;
  if hit then newLayerCheck m (hop p) rs
  else
    '(m, p, rs) <- drop m (hop p) rs ;;
    l <- py.getitem (model.layers m) (layer p) ;;
    let '(p, rs) := spin (medium.g l) p rs in
    Ok (m, p, rs).



End Photon.


(** ** Vocabulary of the properties *)

(** Weight held by the three accumulation grids a walk deposits into. *)
Definition deposited (m : model.t) : R :=
  np.sum2 (model.A_rz m) + np.sum2 (model.Rd_ra m) + np.sum2 (model.Tt_ra m).

(** Weight of a packet together with everything deposited so far. *)
Definition carried (m : model.t) (p : Photon.t) : R :=
  Photon.w p + deposited m.

(** Weight a packet still brings to the walk: a terminated one brings none. *)
Definition live_weight (p : Photon.t) : R :=
  if Photon.dead p then 0 else Photon.w p.

(** The draw the generator hands out next. *)
Definition next_draw (rs : np.RandomState) : R := np.stream rs (np.pos rs).

(** The generator [rs] with the draw it hands out next replaced by [u]. *)
Definition redraw (u : R) (rs : np.RandomState) : np.RandomState :=
  np.mkRandomState
    (fun k => if Nat.eqb k (np.pos rs) then u else np.stream rs k)
    (np.pos rs).

(** [uniform_mean f e]: the step function [f] of one draw has mean [e]
    when the draw is uniform on the unit interval, that is, [e] is the
    integral of [f] along a subdivision of [0, 1] adapted to [f]. *)
Definition uniform_mean (f : R -> R) (e : R) : Prop :=
  exists l lf, adapted_couple f 0 1 l lf /\ Int_SF lf l = e.

(** A quantity [q] of the packet that [roulette] leaves, as a function of
    the draw [roulette] receives. *)
Definition after_roulette (q : Photon.t -> R) (p : Photon.t)
           (rs : np.RandomState) (u : R) : R :=
  q (fst (Photon.roulette p (redraw u rs))).

(** Squared length of the direction of a packet. *)
Definition norm2 (p : Photon.t) : R :=
  Photon.ux p ^ 2 + Photon.uy p ^ 2 + Photon.uz p ^ 2.

(** Shapes of the arrays, as [np.zeros] allocates them. *)
Definition shape1 (a : np.array1) (n : Z) : Prop :=
  Z.of_nat (length a) = n.

Definition shape2 (a : np.array2) (rows cols : Z) : Prop :=
  Z.of_nat (length a) = rows /\
  Forall (fun row => Z.of_nat (length row) = cols) a.


(** The accumulators have the shapes [model.__init__] gave them. *)
Definition grids_allocated (m : model.t) : Prop :=
  shape2 (model.Rd_ra m) (model.nr m) (model.na m) /\
  shape1 (model.Rd_r m) (model.nr m) /\
  shape1 (model.Rd_a m) (model.na m) /\
  shape2 (model.A_rz m) (model.nr m) (model.nz m) /\
  shape1 (model.A_z m) (model.nz m) /\
  shape1 (model.A_l m) (model.numberOfLayers m + 2) /\
  shape2 (model.Phi_rz m) (model.nr m) (model.nz m) /\
  shape1 (model.Phi_z m) (model.nz m) /\
  shape2 (model.Tt_ra m) (model.nr m) (model.na m) /\
  shape1 (model.Tt_r m) (model.nr m) /\
  shape1 (model.Tt_a m) (model.na m).

(** The bin the properties speak of: the floor of [v / d], folded into
    the last of [n] bins. *)
Definition floor_bin (v d : R) (n : Z) : Z :=
  Z.min (Zfloor (v / d)) (n - 1).

(** The layer tables reach every tissue layer and the ambient one below. *)
Definition stack_ok (m : model.t) : Prop :=
  (1 <= model.numberOfLayers m)%Z /\
  Z.of_nat (length (model.layerDepth m)) = (model.numberOfLayers m + 1)%Z /\
  (model.numberOfLayers m + 2 <= Z.of_nat (length (model.layers m)))%Z.

(** Cell [(i, j)] of a 2D array, when it exists. *)
Definition cell (a : np.array2) (i j : nat) : option R :=
  match nth_error a i with
  | Some row => nth_error row j
  | None => None
  end.

(** [a'] is [a] with every cell divided by its factor [f i j]. *)
Definition scaled2 (f : Z -> Z -> R) (a a' : np.array2) : Prop :=
  forall i j,
    cell a' i j
    = option_map (fun v => v / f (Z.of_nat i) (Z.of_nat j)) (cell a i j).

(** The layer structure, the geometry and the photon count of [s] are
    those of [m]. *)
Definition config_eq (m s : model.t) : Prop :=
  model.layers s = model.layers m /\
  model.numberOfLayers s = model.numberOfLayers m /\
  model.layerDepth s = model.layerDepth m /\
  model.nz s = model.nz m /\ model.nr s = model.nr m /\
  model.na s = model.na m /\
  model.dz s = model.dz m /\ model.dr s = model.dr m /\
  model.da s = model.da m /\
  model.numberOfPhotons s = model.numberOfPhotons m.

(** [s] keeps the configuration and the three 2D grids of [m], and its
    arrays are allocated. *)
Definition frame (m s : model.t) : Prop :=
  config_eq m s /\ grids_allocated s /\
  model.Rd_ra s = model.Rd_ra m /\ model.Tt_ra s = model.Tt_ra m /\
  model.A_rz s = model.A_rz m.

(** The cells marked by [done] are scaled, the others are as in [a]. *)
Definition partly_scaled2 (done : nat -> nat -> bool) (f : Z -> Z -> R)
           (a a' : np.array2) : Prop :=
  forall r c,
    cell a' r c
    = if done r c
      then option_map (fun v => v / f (Z.of_nat r) (Z.of_nat c)) (cell a r c)
      else cell a r c.

(** State of the first loop of [scaleRT]: the cells marked by [done] of
    both exit grids are scaled, the rest of the model is kept. *)
Definition scalingRT (done : nat -> nat -> bool) (m s : model.t) : Prop :=
  config_eq m s /\ grids_allocated s /\
  model.A_rz s = model.A_rz m /\
  partly_scaled2 done (model.scale_ra m) (model.Rd_ra m) (model.Rd_ra s) /\
  partly_scaled2 done (model.scale_ra m) (model.Tt_ra m) (model.Tt_ra s).

(** State of the first loop of [scaleA]: the cells marked by [done] of
    the absorption grid are scaled, the rest of the model is kept. *)
Definition scalingA (done : nat -> nat -> bool) (m s : model.t) : Prop :=
  config_eq m s /\ grids_allocated s /\
  model.Rd_ra s = model.Rd_ra m /\ model.Tt_ra s = model.Tt_ra m /\
  partly_scaled2 done (fun ir _ => model.scale_rz m ir)
                 (model.A_rz m) (model.A_rz s).

(** What one call of the normaliser does to the 2D grids. *)
Definition normalised (m s : model.t) : Prop :=
  config_eq m s /\ grids_allocated s /\
  scaled2 (model.scale_ra m) (model.Rd_ra m) (model.Rd_ra s) /\
  scaled2 (model.scale_ra m) (model.Tt_ra m) (model.Tt_ra s) /\
  scaled2 (fun ir _ => model.scale_rz m ir) (model.A_rz m) (model.A_rz s).









(** ** The layer classes [skin], [Fat] and [Muscle]

  Each builds an object with the attributes [name], [n], [g], [z], [mua]
  and [mus] the walker reads; [layer] gives that view of it.  [x**y] with
  a positive float base is [Rpower x y]. *)

Module skin.

(** The attributes [skin.__init__] sets from its wavelength tables; for
    a wavelength other than 660 and 940 they are never assigned. *)
Record optics : Type := mkOptics {
  muaHbO2 : R;
  muaHb : R;
  musHbO2 : R;
  musHb : R;
  mus : R;
  muaw : R
}.

Record t : Type := mk {
  name : string;
  n : R;
  g : R;
  z : R;
  percentOxy : R;
  Vb : R;
  vVen : R;
  vArt : R;
  Vw : R;
  wavelength : R;
  table : optics;
  mua : R
}.

Definition tables (wavelength : R) : option optics :=
  if py.eq wavelength 660 then
    Some (mkOptics 0.15 1.64 87.61 81.45 25.62 0.0036)
  else if py.eq wavelength 940 then
    Some (mkOptics 0.65 0.43 66.08 49.66 15.68 0.2674)
  else None.

(** Reading an attribute the constructor may not have assigned. *)
Definition attr {T : Type} (v : option T) : result T :=
  match v with
  | Some a => Ok a
  | None => Raise AttributeError
  end.

(** [skin.calcMua], on the attributes assigned so far. *)
Definition calcMua (name : string) (percentOxy vArt vVen Vw wavelength : R)
           (o : option optics) : result R :=
  let SaO2 := percentOxy in
  let SvO2 := if py.eq percentOxy 0 then 0 else percentOxy - 0.1 in
  o <- attr o ;;
  let muaHbO2 := muaHbO2 o in
  let muaHb := muaHb o in
  let vWat := Vw in
  let vMel := 0.1 in
  let watMua := muaw o in
  let lam := wavelength in
  let muab := 7.84e7 * Rpower lam (-3.255) in
  let artMua := SaO2 * muaHbO2 + (1.0 - SaO2) * muaHb in
  let venMua := SvO2 * muaHbO2 + (1.0 - SvO2) * muaHb in
  if String.eqb name "epidermis" || String.eqb name "stratum corneum" then
    let melMua := 6.6e10 * Rpower lam (-3.33) in
    Ok (vMel * melMua + vWat * watMua + (1.0 - (vMel + vWat)) * muab)
  else
    Ok (vArt * artMua + vVen * venMua + vWat * watMua
        + (1.0 - (vArt + vVen + vWat)) * muab).

(** [skin.__init__(name, n, g, z, Vb, Vw, p, wavelength, ds)] *)
Definition __init__ (name : string) (n g z Vb Vw p wavelength : R)
           (ds : string) : result t :=
  let '(Vb', vVen, vArt) :=
    if String.eqb (py.lower ds) (py.lower "diastole") then
      (Vb, 0.75 * Vb, Vb - 0.75 * Vb)
    else
      (1.25 * Vb, 0.75 * Vb, 1.25 * Vb - 0.75 * Vb) in
  let o := tables wavelength in
  mua <- calcMua name p vArt vVen Vw wavelength o ;;
  o <- attr o ;;
  Ok (mk name n g z p Vb' vVen vArt Vw wavelength o mua).

(** The object as the walker sees it. *)
Definition layer (s : t) : medium.t :=
  medium.mk (name s) (n s) (g s) (z s) (mua s) (mus (table s)) None.

End skin.

Module Fat.

Record t : Type := mk {
  name : string;
  n : R;
  g : R;
  z : R;
  wavelength : R;
  mua : R;
  mus : R
}.

(** [Fat.__init__(name, n, g, z, wavelength)] *)
Definition __init__ (name : string) (n g z wavelength : R) : t :=
  if py.eq wavelength 660 then mk name n g z wavelength 0.0104 6.20
  else mk name n g z wavelength 0.017 5.42.

Definition layer (f : t) : medium.t :=
  medium.mk (name f) (n f) (g f) (z f) (mua f) (mus f) None.

End Fat.

Module Muscle.

Record t : Type := mk {
  name : string;
  n : R;
  g : R;
  z : R;
  nBone : R;
  wavelength : R;
  mua : R;
  mus : R;
  muaBone : R;
  musBone : R;
  gBone : R;
  rBone : R;
  boneCenter : R * R * R
}.

(** [Muscle.__init__(name, n, g, z, wavelength)] *)
Definition __init__ (name : string) (n g z wavelength : R) : t :=
  let nBone := 2.0 in
  let '(mua, mus, muaBone, musBone) :=
    if py.eq wavelength 660 then (0.0816, 8.61, 0.0351, 34.45)
    else (0.0401, 5.81, 0.0457, 24.70) in
  let gBone := 0.092 in
  let rBone := 2.0 in
  let boneCenter := (0, 0, 6.5) in
  mk name n g z nBone wavelength mua mus muaBone musBone gBone rBone
     boneCenter.

Definition layer (b : t) : medium.t :=
  medium.mk (name b) (n b) (g b) (z b) (mua b) (mus b)
    (Some (Bone.mk (nBone b) (muaBone b) (musBone b) (gBone b) (rBone b)
             (boneCenter b))).

End Muscle.

(** ** Example stacks

    Concrete inputs used to exercise the properties below. *)

Module example.

Definition air : medium.t := medium.mk "air" 1.0 0 0 0 0 None.

Definition dermis : medium.t := medium.mk "dermis" 1.25 0.9 1.0 0.1 10.0 None.

(** The model [model(slab, 1)] builds: one tissue layer between air. *)
Definition slab : list medium.t := [air; dermis; air].

Definition slab_model : model.t :=
  model.mk slab 1 [(0, 0); (0, 0 + 1.0)] WEIGHT
    [(0, 0); (model.cosCritFace 1.25 1.0, model.cosCritFace 1.25 1.0)]
    650 650 650 250 30 2e-2 2e-2 2e-2 2e-2 (0.5 * PI / 30)
    0 (((1.0 - 1.25) / (1.0 + 1.25)) ^ 2) 0 0 0
    (np.zeros2 250 30) (np.zeros1 250) (np.zeros1 30)
    (np.zeros2 250 650) (np.zeros1 650) (np.zeros1 (1 + 2))
    (np.zeros2 250 650) (np.zeros1 650)
    (np.zeros2 250 30) (np.zeros1 250) (np.zeros1 30).

(** A generator whose every draw is [u]. *)
Definition constant_draws (u : R) : np.RandomState :=
  np.mkRandomState (fun _ => u) 0.

(** A packet half-way down the slab, off the axis, on an oblique course. *)
Definition probe : Photon.t :=
  Photon.mk 0.3 0.4 0.5 0.6 0 0.8 0.5 false 1 1.0 0.

(** A packet on the axis heading straight down, half-way down layer 1. *)
Definition falling : Photon.t :=
  Photon.mk 0 0 0.5 0 0 1 0.5 false 1 0 0.

(** The same packet arrived at the bottom face of the slab. *)
Definition landed : Photon.t :=
  Photon.mk 0 0 1.0 0 0 1 0.5 false 1 0.5 0.

(** A packet at the bottom face of the slab on a shallow course. *)
Definition shallow : Photon.t :=
  Photon.mk 0 0 1.0 0.96 0 0.28 0.5 false 1 0.5 0.

(** The probe packet worn down to half the threshold weight. *)
Definition faint : Photon.t :=
  Photon.mk 0.3 0.4 0.5 0.6 0 0.8 5e-5 false 1 1.0 0.

(** A packet in the slab moving level. *)
Definition level : Photon.t :=
  Photon.mk 0 0 0.5 1 0 0 0.5 false 1 0 0.

(** A packet almost on the axis: a unit direction with
    [uz = (t^2 - 1) / (t^2 + 1)] and [ux = 2 t / (t^2 + 1)], [t = 10^7]. *)
Definition nearly_vertical : Photon.t :=
  Photon.mk 0 0 1.0 (20000000 / 100000000000001) 0
            (99999999999999 / 100000000000001) 0.5 false 1 0.5 0.

(** A [Muscle] layer at 660 nm between air: [model(arm, 1)]. *)
Definition muscle : medium.t :=
  medium.mk "muscle" 1.4 0.9 10.0 0.0816 8.61
            (Some (Bone.mk 2.0 0.0351 34.45 0.092 2.0 (0, 0, 6.5))).

Definition arm : list medium.t := [air; muscle; air].

Definition arm_model : model.t :=
  model.mk arm 1 [(0, 0); (0, 0 + 10.0)] WEIGHT
    [(0, 0); (model.cosCritFace 1.4 1.0, model.cosCritFace 1.4 1.0)]
    650 650 650 250 30 2e-2 2e-2 2e-2 2e-2 (0.5 * PI / 30)
    0 (((1.0 - 1.4) / (1.0 + 1.4)) ^ 2) 0 0 0
    (np.zeros2 250 30) (np.zeros1 250) (np.zeros1 30)
    (np.zeros2 250 650) (np.zeros1 650) (np.zeros1 (1 + 2))
    (np.zeros2 250 650) (np.zeros1 650)
    (np.zeros2 250 30) (np.zeros1 250) (np.zeros1 30).

(** A clear cover glass on the dermis: [model(window, 2)]. *)
Definition glass : medium.t := medium.mk "glass" 1.5 0 0.1 0 0 None.

Definition window : list medium.t := [air; glass; dermis; air].

Definition window_Rsp : R :=
  let r1 := ((1.0 - 1.5) / (1.0 + 1.5)) ^ 2 in
  let r2 := ((1.5 - 1.25) / (1.5 + 1.25)) ^ 2 in
  r1 + (((1 - r1) ^ 2) * r2) / (1 - r1 * r2).

Definition window_model : model.t :=
  model.mk window 2 [(0, 0); (0, 0 + 0.1); (0 + 0.1, 0 + 0.1 + 1.0)] WEIGHT
    [(0, 0);
     (model.cosCritFace 1.5 1.0, model.cosCritFace 1.5 1.25);
     (model.cosCritFace 1.25 1.5, model.cosCritFace 1.25 1.0)]
    650 650 650 250 30 2e-2 2e-2 2e-2 2e-2 (0.5 * PI / 30)
    0 window_Rsp 0 0 0
    (np.zeros2 250 30) (np.zeros1 250) (np.zeros1 30)
    (np.zeros2 250 650) (np.zeros1 650) (np.zeros1 (2 + 2))
    (np.zeros2 250 650) (np.zeros1 650)
    (np.zeros2 250 30) (np.zeros1 250) (np.zeros1 30).

(** A model on a grid of a single bin in each direction, with the
    contents of every accumulator left open. *)
Definition one_bin (N : Z) (Rd A Tt rd_ra rd_r rd_a a_rz a_z al0 al1 al2
                    phi_rz phi_z tt_ra tt_r tt_a : R) : model.t :=
  model.mk slab 1 [(0, 0); (0, 1)] WEIGHT [(0, 0); (0.6, 0.6)]
    1 1 1 1 1 1 1 1 1 (0.5 * PI / 1)
    N 0 Rd A Tt
    [[rd_ra]] [rd_r] [rd_a]
    [[a_rz]] [a_z] [al0; al1; al2]
    [[phi_rz]] [phi_z]
    [[tt_ra]] [tt_r] [tt_a].

(** The slab on a grid of a single bin in each direction, after a run of
    two packets that left a weight of 2 in the only cell of [A_rz]. *)
Definition tiny : model.t :=
  model.mk slab 1 [(0, 0); (0, 1)] WEIGHT [(0, 0); (0.6, 0.6)]
    1 1 1 1 1 1 1 1 1 (0.5 * PI / 1)
    2 0 0 0 0
    [[0]] [0] [0]
    [[2]] [0] [0; 0; 0]
    [[0]] [0]
    [[0]] [0] [0].







End example.

(** * Properties *)

(** ** Comparisons *)

#[global] Arguments np.zeros1 : simpl never.
#[global] Arguments np.zeros2 : simpl never.
#[global] Arguments py.eq : simpl never.
#[global] Arguments py.lt : simpl never.
#[global] Arguments py.le : simpl never.
#[global] Arguments py.gt : simpl never.
#[global] Arguments py.ge : simpl never.

Lemma py_eq_spec (x y : R) : reflect (x = y) (py.eq x y).
Proof. unfold py.eq. destruct (Req_dec_T x y); constructor; assumption. Qed.

Lemma py_lt_spec (x y : R) : reflect (x < y) (py.lt x y).
Proof. unfold py.lt. destruct (Rlt_dec x y); constructor; assumption. Qed.

Lemma py_le_spec (x y : R) : reflect (x <= y) (py.le x y).
Proof. unfold py.le. destruct (Rle_dec x y); constructor; assumption. Qed.

Lemma py_gt_spec (x y : R) : reflect (x > y) (py.gt x y).
Proof. unfold py.gt. destruct (Rgt_dec x y); constructor; assumption. Qed.

Lemma py_ge_spec (x y : R) : reflect (x >= y) (py.ge x y).
Proof. unfold py.ge. destruct (Rge_dec x y); constructor; assumption. Qed.

(** Reduction of the packet's attribute reads over attribute updates. *)
Ltac attrs :=
  cbn [Photon.x Photon.y Photon.z Photon.ux Photon.uy Photon.uz Photon.w
       Photon.dead Photon.layer Photon.s Photon.s_rem
       Photon.set_x Photon.set_y Photon.set_z Photon.set_ux Photon.set_uy
       Photon.set_uz Photon.set_w Photon.set_dead Photon.set_layer
       Photon.set_s Photon.set_s_rem fst snd] in *.

(** Reduction of the model's attribute reads over attribute updates. *)
Ltac mattrs :=
  cbn [model.layers model.numberOfLayers model.layerDepth model.W_th
       model.cosCrit model.nx model.ny model.nz model.nr model.na model.dx
       model.dy model.dz model.dr model.da model.numberOfPhotons model.Rsp
       model.Rd model.A model.Tt model.Rd_ra model.Rd_r model.Rd_a
       model.A_rz model.A_z model.A_l model.Phi_rz model.Phi_z model.Tt_ra
       model.Tt_r model.Tt_a model.set_numberOfPhotons model.set_Rd
       model.set_A model.set_Tt model.set_Rd_ra model.set_Rd_r
       model.set_Rd_a model.set_A_rz model.set_A_z model.set_A_l
       model.set_Phi_rz model.set_Phi_z model.set_Tt_ra model.set_Tt_r
       model.set_Tt_a model.set_Rsp] in *.

(** Case analysis on a float comparison. *)
Ltac cmp_on c :=
  lazymatch c with
  | py.eq ?a ?b => destruct (py_eq_spec a b)
  | py.lt ?a ?b => destruct (py_lt_spec a b)
  | py.le ?a ?b => destruct (py_le_spec a b)
  | py.gt ?a ?b => destruct (py_gt_spec a b)
  | py.ge ?a ?b => destruct (py_ge_spec a b)
  | negb ?c' => cmp_on c'
  | andb ?c' _ => cmp_on c'
  end.

(** Case analysis on the test of the conditional the goal starts with, or
    else on the first conditional found in it. *)
Ltac cmp :=
  lazymatch goal with
  | |- (if ?c then _ else _) = _ => cmp_on c
  | |- context [if ?c then _ else _] => cmp_on c
  end.


Lemma COS90_pos : 0 < COS90 < COSZERO.
Proof. unfold COS90, COSZERO; lra. Qed.

(** ** Boundary physics *)

(** The branches of [calcFresnel], one by one. *)
Lemma calcFresnel_cases (n1 n2 cosInc : R) :
  (n1 = n2 -> Photon.calcFresnel n1 n2 cosInc = (0, cosInc)) /\
  (Rabs cosInc > 1 - 1e-12 ->
   Photon.calcFresnel n1 n2 cosInc = (((n2 - n1) / (n2 + n1)) ^ 2, cosInc)) /\
  (n1 <> n2 -> Rabs cosInc < 1e-6 ->
   Photon.calcFresnel n1 n2 cosInc = (1, 0)) /\
  (n1 <> n2 -> Rabs cosInc <= 1 - 1e-12 ->
   (n1 / n2) * sqrt (1 - Rabs cosInc ^ 2) >= 1 ->
   Photon.calcFresnel n1 n2 cosInc = (1, 0)).
Proof.
  unfold Photon.calcFresnel, COSZERO, COS90.
  repeat split.
  - intros ->. cmp; [reflexivity | contradiction].
  - intros Hc. cmp.
    + subst n2. f_equal. unfold Rdiv. rewrite Rminus_diag. ring.
    + cmp; [cbv zeta; f_equal; ring | lra].
  - intros Hn Hc. cmp; [contradiction |]. cmp; [lra |]. cmp; [reflexivity | lra].
  - intros Hn Hc Hs. cmp; [contradiction |]. cmp; [lra |].
    cmp; [reflexivity |]. cmp; [reflexivity | contradiction].
Qed.

(** C2.  [calcFresnel] on its edge cases, taken in the order of the
    function's tests.  Equal indices give reflectance 0 and leave the
    cosine unchanged; near-normal incidence gives the normal-incidence
    reflectance [((n2 - n1) / (n2 + n1)) ^ 2], for indices whose sum is
    not zero, and leaves the cosine unchanged (with equal indices that
    reflectance is 0); with distinct indices, near-grazing incidence
    gives total reflection; and with distinct indices outside the
    near-normal band and [n2 <> 0], a Snell sine [(n1 / n2) * sinInc]
    of at least 1 gives total reflection. *)
Theorem calcFresnel_edge_cases (n1 n2 cosInc : R) :
  (n1 = n2 -> Photon.calcFresnel n1 n2 cosInc = (0, cosInc)) /\
  (n1 + n2 <> 0 -> Rabs cosInc > 1 - 1e-12 ->
   Photon.calcFresnel n1 n2 cosInc = (((n2 - n1) / (n2 + n1)) ^ 2, cosInc)) /\
  (n1 <> n2 -> Rabs cosInc < 1e-6 ->
   Photon.calcFresnel n1 n2 cosInc = (1, 0)) /\
  (n1 <> n2 -> n2 <> 0 -> Rabs cosInc <= 1 - 1e-12 ->
   (n1 / n2) * sqrt (1 - Rabs cosInc ^ 2) >= 1 ->
   Photon.calcFresnel n1 n2 cosInc = (1, 0)).
Proof.
  destruct (calcFresnel_cases n1 n2 cosInc) as (H1 & H2 & H3 & H4).
  split; [exact H1 |]. split; [intros _; exact H2 |].
  split; [exact H3 |]. intros Hn _. exact (H4 Hn).
Qed.

(** ** Indexing *)

Lemma index_bound (len : nat) (i : Z) (k : nat) :
  py.index len i = Ok k -> (k < len)%nat.
Proof.
  unfold py.index.
  destruct (0 <=? i)%Z eqn:H0.
  - destruct (i <? Z.of_nat len)%Z eqn:H1; [| discriminate].
    intros [= <-]. lia.
  - destruct (- Z.of_nat len <=? i)%Z eqn:H1; [| discriminate].
    intros [= <-]. lia.
Qed.

Lemma index_nonneg (len : nat) (i : Z) :
  (0 <= i < Z.of_nat len)%Z -> py.index len i = Ok (Z.to_nat i).
Proof.
  intros H. unfold py.index.
  destruct (0 <=? i)%Z eqn:H0; [| lia].
  destruct (i <? Z.of_nat len)%Z eqn:H1; [reflexivity | lia].
Qed.

Lemma getitem_index {T : Type} (l : list T) (i : Z) (v : T) :
  py.getitem l i = Ok v ->
  exists k, py.index (length l) i = Ok k /\ nth_error l k = Some v.
Proof.
  unfold py.getitem. destruct (py.index (length l) i) as [k | e]; simpl.
  - destruct (nth_error l k) eqn:E; [| discriminate].
    intros [= ->]. exists k. split; [reflexivity | assumption].
  - discriminate.
Qed.

Lemma getitem_raises {T : Type} (l : list T) (i : Z) (e : exn) :
  py.getitem l i = Raise e -> e = IndexError.
Proof.
  unfold py.getitem, py.index.
  destruct (0 <=? i)%Z.
  - destruct (i <? Z.of_nat (length l))%Z; simpl.
    + destruct (nth_error l (Z.to_nat i)); congruence.
    + congruence.
  - destruct (- Z.of_nat (length l) <=? i)%Z; simpl.
    + destruct (nth_error l (Z.to_nat (i + Z.of_nat (length l)))); congruence.
    + congruence.
Qed.

Lemma getitem_nth_error {T : Type} (l : list T) (i : Z) (v : T) :
  (0 <= i)%Z -> nth_error l (Z.to_nat i) = Some v -> py.getitem l i = Ok v.
Proof.
  intros Hi Hn. unfold py.getitem.
  assert (Z.to_nat i < length l)%nat by (apply nth_error_Some; congruence).
  rewrite index_nonneg by lia. simpl. rewrite Hn. reflexivity.
Qed.

Lemma getitem_total {T : Type} (l : list T) (i : Z) :
  (0 <= i < Z.of_nat (length l))%Z -> exists v, py.getitem l i = Ok v.
Proof.
  intros H. destruct (nth_error l (Z.to_nat i)) eqn:E.
  - exists t. apply getitem_nth_error; [lia | assumption].
  - apply nth_error_None in E. lia.
Qed.

Lemma replace_length {T : Type} (k : nat) (v : T) (l : list T) :
  length (py.replace k v l) = length l.
Proof.
  revert k. induction l as [| h t IH]; intros [| k]; simpl; auto.
Qed.

Lemma nth_error_replace_same {T : Type} (k : nat) (v : T) (l : list T) :
  (k < length l)%nat -> nth_error (py.replace k v l) k = Some v.
Proof.
  revert k. induction l as [| h t IH]; intros [| k] H; simpl in *;
    try lia; auto.
  apply IH. lia.
Qed.

Lemma nth_error_replace_other {T : Type} (k j : nat) (v : T) (l : list T) :
  k <> j -> nth_error (py.replace k v l) j = nth_error l j.
Proof.
  revert k j. induction l as [| h t IH]; intros [| k] [| j] H; simpl;
    try reflexivity; try congruence.
  apply IH. congruence.
Qed.

Lemma setitem_total {T : Type} (l : list T) (i : Z) (old v : T) :
  py.getitem l i = Ok old -> exists l', py.setitem l i v = Ok l'.
Proof.
  intros H. apply getitem_index in H. destruct H as (k & Hk & _).
  unfold py.setitem. rewrite Hk. simpl. eauto.
Qed.

Lemma getitem_setitem_same {T : Type} (l l' : list T) (i : Z) (v : T) :
  py.setitem l i v = Ok l' -> py.getitem l' i = Ok v.
Proof.
  unfold py.setitem, py.getitem.
  destruct (py.index (length l) i) as [k | e] eqn:Hk; simpl; [| discriminate].
  intros [= <-]. rewrite replace_length, Hk. simpl.
  rewrite nth_error_replace_same; [reflexivity |].
  eapply index_bound; eassumption.
Qed.

Lemma setitem_length {T : Type} (l l' : list T) (i : Z) (v : T) :
  py.setitem l i v = Ok l' -> length l' = length l.
Proof.
  unfold py.setitem.
  destruct (py.index (length l) i); simpl; [| discriminate].
  intros [= <-]. apply replace_length.
Qed.

(** ** Totals of the accumulation arrays *)

Lemma sum1_replace (k : nat) (old v : R) (a : np.array1) :
  nth_error a k = Some old ->
  np.sum1 (py.replace k v a) = np.sum1 a - old + v.
Proof.
  revert k. induction a as [| h t IH]; intros [| k] H; simpl in *;
    try discriminate.
  - injection H as ->. lra.
  - rewrite (IH _ H). lra.
Qed.

Lemma sum2_replace (k : nat) (old new : np.array1) (a : np.array2) :
  nth_error a k = Some old ->
  np.sum2 (py.replace k new a) = np.sum2 a - np.sum1 old + np.sum1 new.
Proof.
  unfold np.sum2.
  revert k. induction a as [| h t IH]; intros [| k] H; simpl in *;
    try discriminate.
  - injection H as ->. lra.
  - rewrite (IH _ H). lra.
Qed.

(** Adding [dw] to one cell adds [dw] to the total of the array. *)
Lemma sum2_deposit (a a' : np.array2) (i j : Z) (old dw : R) :
  np.get2 a i j = Ok old ->
  np.set2 a i j (old + dw) = Ok a' ->
  np.sum2 a' = np.sum2 a + dw.
Proof.
  unfold np.get2, np.set2.
  destruct (py.getitem a i) as [row | e] eqn:Hrow; simpl; [| discriminate].
  intros Hold.
  destruct (py.setitem row j (old + dw)) as [row' | e] eqn:Hrow'; simpl;
    [| discriminate].
  intros Ha'.
  apply getitem_index in Hrow. destruct Hrow as (k & Hk & Hnk).
  apply getitem_index in Hold. destruct Hold as (c & Hc & Hnc).
  unfold py.setitem in Hrow', Ha'. rewrite Hc in Hrow'. rewrite Hk in Ha'.
  simpl in Hrow', Ha'. injection Hrow' as <-. injection Ha' as <-.
  rewrite (sum2_replace _ _ _ _ Hnk), (sum1_replace _ _ _ _ Hnc). lra.
Qed.

Lemma set2_total (a : np.array2) (i j : Z) (old v : R) :
  np.get2 a i j = Ok old -> exists a', np.set2 a i j v = Ok a'.
Proof.
  unfold np.get2, np.set2.
  destruct (py.getitem a i) as [row | e] eqn:Hrow; simpl; [| discriminate].
  intros Hold.
  destruct (setitem_total row j old v Hold) as (row' & ->). simpl.
  eapply setitem_total. eassumption.
Qed.

(** ** Weight bookkeeping *)

(** Inversion of a successful [bind]. *)
Ltac inv_bind H :=
  match type of H with
  | bind ?c _ = Ok _ =>
      let E := fresh "E" in
      destruct c eqn:E; unfold bind at 1 in H; [| discriminate H]
  end.

Lemma recordReduce_spec (m m' : model.t) (p p' : Photon.t) (r : R) :
  Photon.recordReduce m p r = Ok (m', p') ->
  let ir := Photon.bin (sqrt (Photon.x p ^ 2 + Photon.y p ^ 2))
                       (model.dr m) (model.nr m) in
  let ia := Photon.bin (acos (Rabs (Photon.uz p))) (model.da m) (model.na m) in
  p' = Photon.set_w (Photon.w p * r) p /\
  exists old a',
    if (Photon.layer p =? 1)%Z then
      np.get2 (model.Rd_ra m) ir ia = Ok old /\
      np.set2 (model.Rd_ra m) ir ia (old + Photon.w p * (1 - r)) = Ok a' /\
      m' = model.set_Rd_ra a' m
    else
      np.get2 (model.Tt_ra m) ir ia = Ok old /\
      np.set2 (model.Tt_ra m) ir ia (old + Photon.w p * (1 - r)) = Ok a' /\
      m' = model.set_Tt_ra a' m.
Proof.
  intros H ir ia. unfold Photon.recordReduce in H. fold ir ia in H.
  destruct (Photon.layer p =? 1)%Z.
  - inv_bind H. inv_bind H. injection H as <- <-.
    split; [reflexivity |]. eauto.
  - inv_bind H. inv_bind H. injection H as <- <-.
    split; [reflexivity |]. eauto.
Qed.

Lemma recordReduce_conserves (m m' : model.t) (p p' : Photon.t) (r : R) :
  Photon.recordReduce m p r = Ok (m', p') ->
  Photon.w p' = Photon.w p * r /\
  deposited m' = deposited m + Photon.w p * (1 - r) /\
  carried m' p' = carried m p.
Proof.
  intros H. apply recordReduce_spec in H. cbv zeta in H.
  destruct H as (-> & old & a' & H).
  unfold carried, deposited.
  destruct (Photon.layer p =? 1)%Z; destruct H as (Hg & Hs & ->); simpl;
    rewrite (sum2_deposit _ _ _ _ _ _ Hg Hs); repeat split; lra.
Qed.

(** [inBone] only turns the packet: weight, position, layer, steps and
    life flag are untouched. *)
Lemma inBone_frame (m : model.t) (p p' : Photon.t) (rs rs' : np.RandomState)
      (inside : bool) :
  Photon.inBone m p rs = Ok (inside, p', rs') ->
  Photon.w p' = Photon.w p /\ Photon.x p' = Photon.x p /\
  Photon.y p' = Photon.y p /\ Photon.z p' = Photon.z p /\
  Photon.layer p' = Photon.layer p /\ Photon.dead p' = Photon.dead p /\
  Photon.s p' = Photon.s p /\ Photon.s_rem p' = Photon.s_rem p.
Proof.
  unfold Photon.inBone. intros H.
  inv_bind H. inv_bind H.
  destruct (Photon.calcFresnel (medium.n v) v0 (Rabs (Photon.uz p))) as [r c].
  unfold np.random in H.
  repeat match type of H with
         | (if ?b then _ else _) = _ => destruct b
         end;
    injection H as _ <- _; repeat split.
Qed.

Lemma drop_spec (m m' : model.t) (p p' : Photon.t) (rs rs' : np.RandomState) :
  Photon.drop m p rs = Ok (m', p', rs') ->
  exists dw old a',
    Photon.w p' = Photon.w p - dw /\
    np.get2 (model.A_rz m)
      (Photon.bin (sqrt (Photon.x p ^ 2 + Photon.y p ^ 2))
                  (model.dr m) (model.nr m))
      (Photon.bin (Photon.z p) (model.dz m) (model.nz m)) = Ok old /\
    np.set2 (model.A_rz m)
      (Photon.bin (sqrt (Photon.x p ^ 2 + Photon.y p ^ 2))
                  (model.dr m) (model.nr m))
      (Photon.bin (Photon.z p) (model.dz m) (model.nz m)) (old + dw) = Ok a' /\
    m' = model.set_A_rz a' m.
Proof.
  unfold Photon.drop. intros H.
  inv_bind H. inv_bind H. destruct v0 as [[inside p1] rs1].
  assert (Hw : Photon.w p1 = Photon.w p /\ Photon.z p1 = Photon.z p).
  { destruct (String.eqb _ _).
    - apply inBone_frame in E0. tauto.
    - injection E0 as _ <- _. tauto. }
  destruct Hw as [Hw Hz].
  inv_bind H. destruct v0 as [mua mus].
  inv_bind H. inv_bind H. injection H as <- <- _.
  rewrite Hz, Hw in *.
  eexists _, v0, v1. simpl. repeat split; eassumption.
Qed.

Lemma drop_conserves (m m' : model.t) (p p' : Photon.t)
      (rs rs' : np.RandomState) :
  Photon.drop m p rs = Ok (m', p', rs') -> carried m' p' = carried m p.
Proof.
  intros H. apply drop_spec in H.
  destruct H as (dw & old & a' & Hw & Hg & Hs & ->).
  unfold carried, deposited. simpl.
  rewrite (sum2_deposit _ _ _ _ _ _ Hg Hs), Hw. lra.
Qed.

(** One step of inversion of a successful monadic computation. *)
Ltac inv_step H :=
  match type of H with
  | bind ?c _ = Ok _ => inv_bind H
  | (let '(_, _) := ?c in _) = Ok _ =>
      let E := fresh "E" in destruct c eqn:E
  | (if ?b then _ else _) = Ok _ =>
      let E := fresh "E" in destruct b eqn:E
  | Raise _ = Ok _ => discriminate H
  end.

Lemma newLayerCheck_conserves (m m' : model.t) (p p' : Photon.t)
      (rs rs' : np.RandomState) :
  Photon.newLayerCheck m p rs = Ok (m', p', rs') ->
  carried m' p' = carried m p.
Proof.
  unfold Photon.newLayerCheck, PARTIAL_REFLECTION, np.random,
    Photon.transmit. simpl Z.eqb. cbv iota.
  intros H.
  repeat inv_step H;
    try (injection H as <- <- _; reflexivity);
    match goal with
    | E : Photon.recordReduce _ _ _ = Ok _ |- _ =>
        injection H as <- <- _;
        apply recordReduce_conserves in E; destruct E as (Hw & Hd & Hc);
        unfold carried in *; simpl in *; lra
    end.
Qed.

Lemma hop_weight (p : Photon.t) : Photon.w (Photon.hop p) = Photon.w p.
Proof. reflexivity. Qed.

Lemma deflect_weight (ct st cp sp : R) (p : Photon.t) :
  Photon.w (Photon.deflect ct st cp sp p) = Photon.w p.
Proof. unfold Photon.deflect. cmp; reflexivity. Qed.

Lemma spin_weight (g : R) (p : Photon.t) (rs : np.RandomState) :
  Photon.w (fst (Photon.spin g p rs)) = Photon.w p.
Proof. unfold Photon.spin, np.random. simpl. apply deflect_weight. Qed.

Lemma stepSizeTissue_weight (m : model.t) (p p' : Photon.t)
      (rs rs' : np.RandomState) :
  Photon.stepSizeTissue m p rs = Ok (p', rs') -> Photon.w p' = Photon.w p.
Proof.
  unfold Photon.stepSizeTissue, np.random. intros H.
  repeat inv_step H; injection H as <- _; reflexivity.
Qed.

Lemma stepSizeGlass_weight (m : model.t) (p p' : Photon.t) :
  Photon.stepSizeGlass m p = Ok p' -> Photon.w p' = Photon.w p.
Proof.
  unfold Photon.stepSizeGlass. intros H.
  repeat inv_step H; injection H as <-; reflexivity.
Qed.

Lemma boundaryHit_weight (m : model.t) (p p' : Photon.t) (hit : bool) :
  Photon.boundaryHit m p = Ok (hit, p') -> Photon.w p' = Photon.w p.
Proof.
  unfold Photon.boundaryHit. intros H.
  inv_bind H. inv_bind H. destruct v0 as [h p1]. inv_bind H.
  injection H as _ <-.
  repeat inv_step E0; injection E0 as _ <-; reflexivity.
Qed.

Lemma hopDropSpinGlass_conserves (m m' : model.t) (p p' : Photon.t)
      (rs rs' : np.RandomState) :
  Photon.hopDropSpinGlass m p rs = Ok (m', p', rs') ->
  carried m' p' = carried m p.
Proof.
  unfold Photon.hopDropSpinGlass. intros H. inv_step H.
  - injection H as <- <- _. reflexivity.
  - inv_bind H. apply newLayerCheck_conserves in H. rewrite H.
    unfold carried. rewrite hop_weight.
    rewrite (stepSizeGlass_weight _ _ _ E0). reflexivity.
Qed.

Lemma hopDropSpinTissue_conserves (m m' : model.t) (p p' : Photon.t)
      (rs rs' : np.RandomState) :
  Photon.hopDropSpinTissue m p rs = Ok (m', p', rs') ->
  carried m' p' = carried m p.
Proof.
  unfold Photon.hopDropSpinTissue. intros H.
  inv_bind H. destruct v as [p1 rs1].
  inv_bind H. destruct v as [hit p2].
  apply stepSizeTissue_weight in E. apply boundaryHit_weight in E0.
  destruct hit.
  - apply newLayerCheck_conserves in H. rewrite H.
    unfold carried. rewrite hop_weight. congruence.
  - inv_bind H. destruct v as [[m3 p3] rs3]. inv_bind H.
    destruct (Photon.spin (medium.g v) p3 rs3) as [p4 rs4] eqn:Hs.
    injection H as <- <- _.
    apply drop_conserves in E1.
    assert (Photon.w p4 = Photon.w p3).
    { change p4 with (fst (p4, rs4)). rewrite <- Hs. apply spin_weight. }
    unfold carried in *. rewrite hop_weight in E1. lra.
Qed.

Lemma roulette_cases (p : Photon.t) (rs : np.RandomState) :
  (Photon.w p = 0 -> Photon.roulette p rs = (Photon.set_dead true p, rs)) /\
  (Photon.w p <> 0 -> next_draw rs < M ->
   Photon.roulette p rs
   = (Photon.set_w (Photon.w p / M) p, snd (np.random rs))) /\
  (Photon.w p <> 0 -> M <= next_draw rs ->
   Photon.roulette p rs = (Photon.set_dead true p, snd (np.random rs))).
Proof.
  unfold Photon.roulette, next_draw, np.random. simpl.
  repeat split; intros.
  - cmp; [reflexivity | contradiction].
  - cmp; [contradiction |]. cmp; [reflexivity | contradiction].
  - cmp; [contradiction |]. cmp; [lra | reflexivity].
Qed.

Lemma next_draw_redraw (u : R) (rs : np.RandomState) :
  next_draw (redraw u rs) = u.
Proof. unfold next_draw, redraw. cbn. rewrite Nat.eqb_refl. reflexivity. Qed.

(** A step function has one mean. *)
Lemma uniform_mean_unique (f : R -> R) (e1 e2 : R) :
  uniform_mean f e1 -> uniform_mean f e2 -> e1 = e2.
Proof.
  intros (l1 & lf1 & H1 & <-) (l2 & lf2 & H2 & <-).
  exact (StepFun_P17 H1 H2).
Qed.

(** A function of the draw that takes one value below [M] and another
    above it has the mean that weighs the two by [M] and [1 - M]. *)
Lemma two_valued_mean (f : R -> R) (v1 v2 : R) :
  (forall u, 0 < u < M -> f u = v1) ->
  (forall u, M < u < 1 -> f u = v2) ->
  uniform_mean f (M * v1 + (1 - M) * v2).
Proof.
  intros H1 H2. exists [0; M; 1], [v1; v2]. split.
  - unfold adapted_couple. split; [| split; [| split; [| split]]].
    + intros i Hi. cbn in Hi.
      destruct i as [| [| i]]; cbn; unfold M; try lra; lia.
    + cbn. unfold Rmin. destruct (Rle_dec 0 1); lra.
    + cbn. unfold Rmax. destruct (Rle_dec 0 1); lra.
    + reflexivity.
    + intros i Hi. cbn in Hi.
      destruct i as [| [| i]]; cbn; [| | lia]; intros u Hu; auto.
  - cbn. ring.
Qed.

(** The mean, over the draw, of a quantity of the packet after roulette. *)
Lemma roulette_mean (q : Photon.t -> R) (p : Photon.t) (rs : np.RandomState) :
  uniform_mean (after_roulette q p rs)
    (M * q (if py.eq (Photon.w p) 0 then Photon.set_dead true p
            else Photon.set_w (Photon.w p / M) p)
     + (1 - M) * q (Photon.set_dead true p)).
Proof.
  apply two_valued_mean; intros u Hu; unfold after_roulette;
    destruct (roulette_cases p (redraw u rs)) as (R0 & R1 & R2);
    rewrite next_draw_redraw in R1, R2;
    destruct (py_eq_spec (Photon.w p) 0) as [E | E].
  - rewrite R0 by assumption. reflexivity.
  - rewrite R1 by tauto. reflexivity.
  - rewrite R0 by assumption. reflexivity.
  - rewrite R2 by (try assumption; lra). reflexivity.
Qed.

Lemma roulette_mean_carried (m : model.t) (p : Photon.t) (rs : np.RandomState) :
  uniform_mean (after_roulette (carried m) p rs)
               (carried m p + (1 - M) * Photon.w p).
Proof.
  pose proof (roulette_mean (carried m) p rs) as H.
  match type of H with
  | uniform_mean _ ?e =>
      replace e with (carried m p + (1 - M) * Photon.w p) in H; [exact H |]
  end.
  unfold carried, M.
  destruct (py_eq_spec (Photon.w p) 0) as [E | E]; cbn; [rewrite E |]; lra.
Qed.

Lemma roulette_mean_live (p : Photon.t) (rs : np.RandomState) :
  Photon.dead p = false ->
  uniform_mean (after_roulette live_weight p rs) (Photon.w p).
Proof.
  intros Hd. pose proof (roulette_mean live_weight p rs) as H.
  match type of H with
  | uniform_mean _ ?e => replace e with (Photon.w p) in H; [exact H |]
  end.
  unfold live_weight, M.
  destruct (py_eq_spec (Photon.w p) 0) as [E | E]; cbn;
    [rewrite E | rewrite Hd]; lra.
Qed.

(** C1 (amended).  Weight conservation along a walk.  The quantity is the
    packet weight plus the total held by [A_rz], [Rd_ra] and [Tt_ra].
    Hop and spin (for an anisotropy [g] that is zero or keeps the divisor
    [1 - g + 2 g u] of the sampling formula away from zero) leave it
    unchanged; a drop that returns moves some [dw]
    from the packet to [A_rz]; [recordReduce] moves [w * (1 - reflectance)]
    to the exit grid and leaves [w * reflectance]; boundary resolution and
    the two hop-drop-spin turns leave the quantity unchanged, the glass
    turn also when it terminates a level packet, whose weight it keeps.
    Roulette never touches the grids and is the only operation that
    changes the quantity: a draw below [M] rescales [w] to [w / M], any
    other draw terminates the packet and keeps [w].  So the mean of the
    quantity after roulette, over a uniform draw, is the quantity plus
    [(1 - M) * w], not the quantity.  What roulette preserves in the mean
    is the live weight, which counts a terminated packet as carrying
    nothing; the live weight in turn is lost without any deposit when
    the glass turn terminates a level packet. *)
Theorem weight_conservation (m : model.t) (p : Photon.t) (rs : np.RandomState) :
  carried m (Photon.hop p) = carried m p /\
  (forall g,
      g = 0 \/ 1 - g + 2 * g * next_draw rs <> 0 ->
      carried m (fst (Photon.spin g p rs)) = carried m p) /\
  (forall m' p' rs',
      Photon.drop m p rs = Ok (m', p', rs') ->
      (exists dw, Photon.w p' = Photon.w p - dw /\
                  np.sum2 (model.A_rz m') = np.sum2 (model.A_rz m) + dw /\
                  model.Rd_ra m' = model.Rd_ra m /\
                  model.Tt_ra m' = model.Tt_ra m) /\
      carried m' p' = carried m p) /\
  (forall r m' p',
      Photon.recordReduce m p r = Ok (m', p') ->
      Photon.w p' = Photon.w p * r /\
      deposited m' = deposited m + Photon.w p * (1 - r) /\
      carried m' p' = carried m p) /\
  (forall m' p' rs',
      Photon.newLayerCheck m p rs = Ok (m', p', rs') ->
      carried m' p' = carried m p) /\
  (forall m' p' rs',
      Photon.hopDropSpinTissue m p rs = Ok (m', p', rs') ->
      carried m' p' = carried m p) /\
  (forall m' p' rs',
      Photon.hopDropSpinGlass m p rs = Ok (m', p', rs') ->
      carried m' p' = carried m p) /\
  (Photon.w p = 0 -> Photon.roulette p rs = (Photon.set_dead true p, rs)) /\
  (Photon.w p <> 0 -> next_draw rs < M ->
   fst (Photon.roulette p rs) = Photon.set_w (Photon.w p / M) p /\
   carried m (fst (Photon.roulette p rs)) <> carried m p) /\
  (Photon.w p <> 0 -> M <= next_draw rs ->
   fst (Photon.roulette p rs) = Photon.set_dead true p /\
   carried m (fst (Photon.roulette p rs)) = carried m p) /\
  (forall e,
      uniform_mean (after_roulette (carried m) p rs) e <->
      e = carried m p + (1 - M) * Photon.w p) /\
  (Photon.dead p = false ->
   forall e,
     uniform_mean (after_roulette live_weight p rs) e <-> e = Photon.w p) /\
  (Photon.dead p = false -> Photon.uz p = 0 ->
   exists p',
     Photon.hopDropSpinGlass m p rs = Ok (m, p', rs) /\
     carried m p' = carried m p /\
     live_weight p = Photon.w p /\ live_weight p' = 0).
Proof.
  destruct (roulette_cases p rs) as (R0 & R1 & R2).
  split; [reflexivity |].
  split; [intros g _; unfold carried; rewrite spin_weight; reflexivity |].
  split.
  { intros m' p' rs' H. split; [| eapply drop_conserves; eassumption].
    apply drop_spec in H.
    destruct H as (dw & old & a' & Hw & Hg & Hs & ->).
    exists dw. simpl. rewrite (sum2_deposit _ _ _ _ _ _ Hg Hs). auto. }
  split; [intros r m' p'; apply recordReduce_conserves |].
  split; [intros m' p' rs'; apply newLayerCheck_conserves |].
  split; [intros m' p' rs'; apply hopDropSpinTissue_conserves |].
  split; [intros m' p' rs'; apply hopDropSpinGlass_conserves |].
  split; [assumption |].
  split.
  { intros Hw Hu. rewrite R1 by assumption. split; [reflexivity |].
    unfold carried, M in *. simpl. intros Heq. apply Hw. lra. }
  split; [intros Hw Hu; rewrite R2 by assumption; split; reflexivity |].
  split.
  { intros e. split.
    - intros He.
      exact (uniform_mean_unique _ _ _ He (roulette_mean_carried m p rs)).
    - intros ->. apply roulette_mean_carried. }
  split.
  { intros Hd e. split.
    - intros He.
      exact (uniform_mean_unique _ _ _ He (roulette_mean_live p rs Hd)).
    - intros ->. apply roulette_mean_live. exact Hd. }
  intros Hd Hz. exists (Photon.set_dead true p).
  split.
  { unfold Photon.hopDropSpinGlass. rewrite Hz.
    destruct (py_eq_spec 0 0) as [_ | N]; [reflexivity | contradiction]. }
  split; [reflexivity |].
  unfold live_weight. rewrite Hd. split; reflexivity.
Qed.

(** ** Horizontal packets *)

Lemma boundaryHit_horizontal_raises (m : model.t) (p : Photon.t) (l : medium.t) :
  py.getitem (model.layers m) (Photon.layer p) = Ok l ->
  Photon.uz p = 0 ->
  Photon.boundaryHit m p = Raise UnboundLocalError.
Proof.
  intros Hl Hz. unfold Photon.boundaryHit. rewrite Hl. simpl.
  rewrite Hz. cmp; [reflexivity | contradiction].
Qed.

(** C9.  [boundaryHit] is partial.  It raises [UnboundLocalError] only for
    a horizontal packet; for a horizontal packet in an existing layer it
    does raise it, and so does the tissue turn [hopDropSpinTissue] in a
    tissue layer ([mua + mus <> 0], so that [stepSizeTissue] gets as far
    as returning); with [uz <> 0] and the layer's depths on record it
    returns a boolean.  The glass turn is the one that terminates a
    horizontal packet. *)
Theorem boundaryHit_partial (m : model.t) (p : Photon.t) (rs : np.RandomState) :
  (Photon.boundaryHit m p = Raise UnboundLocalError -> Photon.uz p = 0) /\
  (forall l,
      py.getitem (model.layers m) (Photon.layer p) = Ok l ->
      (Photon.uz p = 0 ->
       Photon.boundaryHit m p = Raise UnboundLocalError /\
       (medium.mua l + medium.mus l <> 0 ->
        Photon.hopDropSpinTissue m p rs = Raise UnboundLocalError)) /\
      (Photon.uz p <> 0 ->
       forall d,
         py.getitem (model.layerDepth m) (Photon.layer p) = Ok d ->
         exists hit p', Photon.boundaryHit m p = Ok (hit, p'))) /\
  (Photon.uz p = 0 ->
   Photon.hopDropSpinGlass m p rs = Ok (m, Photon.set_dead true p, rs)).
Proof.
  split; [| split].
  - unfold Photon.boundaryHit.
    destruct (py.getitem (model.layers m) (Photon.layer p)) eqn:El; simpl;
      [| apply getitem_raises in El; subst; intros X; discriminate X].
    destruct (py_eq_spec (Photon.uz p) 0) as [Hz | Hz]; [auto |]. simpl.
    destruct (py.getitem (model.layerDepth m) (Photon.layer p)) eqn:Ed; simpl;
      [| apply getitem_raises in Ed; subst; intros X; discriminate X].
    cmp; simpl; intros X; discriminate X.
  - intros l Hl. split.
    + intros Hz. split.
      * eapply boundaryHit_horizontal_raises; eassumption.
      * intros _.
        unfold Photon.hopDropSpinTissue, Photon.stepSizeTissue, np.random.
        rewrite Hl. simpl.
        destruct (py.eq (Photon.s_rem p) 0); simpl;
          erewrite boundaryHit_horizontal_raises; simpl; eauto.
    + intros Hz d Hd. unfold Photon.boundaryHit. rewrite Hl. simpl.
      destruct (py_eq_spec (Photon.uz p) 0) as [E | E]; [contradiction |].
      simpl. rewrite Hd. simpl.
      cmp; simpl; eauto.
  - intros Hz. unfold Photon.hopDropSpinGlass. rewrite Hz.
    cmp; [reflexivity | contradiction].
Qed.

(** ** Residual step *)

Lemma newLayerCheck_s_rem (m m' : model.t) (p p' : Photon.t)
      (rs rs' : np.RandomState) :
  Photon.newLayerCheck m p rs = Ok (m', p', rs') ->
  Photon.s_rem p' = Photon.s_rem p /\ model.layers m' = model.layers m.
Proof.
  unfold Photon.newLayerCheck, PARTIAL_REFLECTION, np.random,
    Photon.transmit. simpl Z.eqb. cbv iota.
  intros H.
  repeat inv_step H;
    try (injection H as <- <- _; split; reflexivity);
    match goal with
    | E : Photon.recordReduce _ _ _ = Ok _ |- _ =>
        injection H as <- <- _;
        apply recordReduce_spec in E; cbv zeta in E;
        destruct E as (-> & old & a' & E);
        match type of E with
        | context [if ?b then _ else _] =>
            destruct b; destruct E as (_ & _ & ->); split; reflexivity
        end
    end.
Qed.

Lemma hopDropSpinGlass_s_rem (m m' : model.t) (p p' : Photon.t)
      (rs rs' : np.RandomState) :
  Photon.hopDropSpinGlass m p rs = Ok (m', p', rs') ->
  Photon.s_rem p' = Photon.s_rem p /\ model.layers m' = model.layers m.
Proof.
  unfold Photon.hopDropSpinGlass, Photon.stepSizeGlass. intros H.
  inv_step H.
  - injection H as <- <- _. split; reflexivity.
  - inv_bind H. inv_bind E0. injection E0 as <-.
    apply newLayerCheck_s_rem in H. exact H.
Qed.

(** C6.  Residual-step bookkeeping.  In a tissue layer (coefficients not
    negative and not both zero) with [uz <> 0], a step [s] longer than the
    distance [d_b] to the face ahead makes [boundaryHit] answer [True],
    cut the step to [d_b] and store [s_rem = (s - d_b) * mut], which is
    not zero.  Hop, boundary resolution and a glass turn keep [s_rem].
    The next [stepSizeTissue], in a layer of coefficient [mut' <> 0],
    sets [s = s_rem / mut'], resets [s_rem] and leaves the generator
    alone; the optical path of the two parts adds up to that of the
    sampled step. *)
Theorem residual_step (m : model.t) (p : Photon.t) (l : medium.t) (d : R * R) :
  py.getitem (model.layers m) (Photon.layer p) = Ok l ->
  py.getitem (model.layerDepth m) (Photon.layer p) = Ok d ->
  Photon.uz p <> 0 ->
  0 <= medium.mua l -> 0 <= medium.mus l ->
  ~ (medium.mua l = 0 /\ medium.mus l = 0) ->
  let mut := medium.mua l + medium.mus l in
  let d_b := if py.gt (Photon.uz p) 0
             then (snd d - Photon.z p) / Photon.uz p
             else (fst d - Photon.z p) / Photon.uz p in
  Photon.s p > d_b ->
  let p1 := Photon.set_s d_b (Photon.set_s_rem ((Photon.s p - d_b) * mut) p) in
  Photon.boundaryHit m p = Ok (true, p1) /\
  Photon.s_rem p1 <> 0 /\
  Photon.s_rem (Photon.hop p1) = Photon.s_rem p1 /\
  (forall rs m' p2 rs',
      Photon.newLayerCheck m (Photon.hop p1) rs = Ok (m', p2, rs') \/
      Photon.hopDropSpinGlass m (Photon.hop p1) rs = Ok (m', p2, rs') ->
      Photon.s_rem p2 = Photon.s_rem p1 /\ model.layers m' = model.layers m) /\
  (forall m' p2 rs l',
      Photon.s_rem p2 = Photon.s_rem p1 ->
      py.getitem (model.layers m') (Photon.layer p2) = Ok l' ->
      let mut' := medium.mua l' + medium.mus l' in
      mut' <> 0 ->
      Photon.stepSizeTissue m' p2 rs
      = Ok (Photon.set_s_rem 0
              (Photon.set_s ((Photon.s p - d_b) * mut / mut') p2), rs) /\
      d_b * mut + ((Photon.s p - d_b) * mut / mut') * mut' = Photon.s p * mut).
Proof.
  intros Hl Hd Hz Ha Hs Hne mut d_b Hsd p1.
  assert (Hmut : 0 < mut) by (unfold mut; lra).
  assert (Hrem : Photon.s_rem p1 <> 0).
  { simpl. apply Rmult_integral_contrapositive_currified; lra. }
  split; [| split; [exact Hrem | split; [reflexivity | split]]].
  - unfold Photon.boundaryHit. rewrite Hl. simpl.
    destruct (py_eq_spec (Photon.uz p) 0) as [E | E]; [contradiction |].
    simpl. rewrite Hd. simpl. fold d_b.
    destruct (py_gt_spec (Photon.s p) d_b) as [G | G]; [| contradiction].
    reflexivity.
  - intros rs m' p2 rs' [H | H].
    + apply newLayerCheck_s_rem in H. exact H.
    + apply hopDropSpinGlass_s_rem in H. exact H.
  - intros m' p2 rs l' Hrem2 Hl' mut' Hm'. split.
    + unfold Photon.stepSizeTissue. rewrite Hl'. simpl.
      destruct (py_eq_spec (Photon.s_rem p2) 0) as [E | E].
      * rewrite Hrem2 in E. contradiction.
      * rewrite Hrem2. reflexivity.
    + field. exact Hm'.
Qed.

(** ** Boundary resolution *)

Lemma random_advances (rs : np.RandomState) :
  np.pos (snd (np.random rs)) = S (np.pos rs) /\ snd (np.random rs) <> rs.
Proof.
  split; [reflexivity |].
  destruct rs as [f k]. unfold np.random. simpl. intros H.
  injection H as H. induction k; [discriminate | injection H as H; auto].
Qed.

(** A packet moving up at a face. *)
Lemma newLayerCheck_up (m : model.t) (p : Photon.t) (rs : np.RandomState)
      (l_i l_t : medium.t) (cc : R * R) :
  py.getitem (model.layers m) (Photon.layer p) = Ok l_i ->
  py.getitem (model.layers m) (Photon.layer p - 1) = Ok l_t ->
  py.getitem (model.cosCrit m) (Photon.layer p) = Ok cc ->
  Photon.uz p < 0 ->
  next_draw rs < 1 ->
  let uz := Photon.uz p in
  let n_i := medium.n l_i in
  let n_t := medium.n l_t in
  let r := fst (Photon.calcFresnel n_i n_t (Rabs uz)) in
  let c := snd (Photon.calcFresnel n_i n_t (Rabs uz)) in
  let rs' := snd (np.random rs) in
  (Rabs uz <= fst cc ->
   Photon.newLayerCheck m p rs = Ok (m, Photon.set_uz (- uz) p, rs')) /\
  (Rabs uz > fst cc -> next_draw rs <= r ->
   Photon.newLayerCheck m p rs = Ok (m, Photon.set_uz (- uz) p, rs')) /\
  (Rabs uz > fst cc -> next_draw rs > r -> Photon.layer p <> 1%Z ->
   Photon.newLayerCheck m p rs
   = Ok (m, Photon.transmit (-1) n_i n_t (- c) p, rs')).
Proof.
  intros Hi Ht Hc Hup Hu uz n_i n_t r c rs'.
  unfold Photon.newLayerCheck, PARTIAL_REFLECTION.
  destruct (py_lt_spec (Photon.uz p) 0) as [_ | N]; [| contradiction].
  rewrite Hi, Ht, Hc. simpl bind. simpl Z.eqb. cbv iota.
  unfold Photon.faceReflectance, np.random. rewrite Rabs_Rabsolu.
  fold uz n_i n_t. unfold next_draw in *.
  split; [| split].
  - intros Hle.
    destruct (py_le_spec (Rabs uz) (fst cc)) as [_ | N]; [| contradiction].
    destruct (py_gt_spec (np.stream rs (np.pos rs)) 1) as [G | _]; [lra |].
    reflexivity.
  - intros Hgt Hr.
    destruct (py_le_spec (Rabs uz) (fst cc)) as [L | _]; [lra |].
    subst r.
    destruct (Photon.calcFresnel n_i n_t (Rabs uz)) as [r0 c0]. simpl in Hr.
    destruct (py_gt_spec (np.stream rs (np.pos rs)) r0) as [G | _]; [lra |].
    reflexivity.
  - intros Hgt Hr Hlayer.
    destruct (py_le_spec (Rabs uz) (fst cc)) as [L | _]; [lra |].
    subst r c.
    destruct (Photon.calcFresnel n_i n_t (Rabs uz)) as [r0 c0]. simpl in *.
    destruct (py_gt_spec (np.stream rs (np.pos rs)) r0) as [_ | N];
      [| contradiction].
    destruct (Z.eqb_spec (Photon.layer p) 1) as [E | _]; [contradiction |].
    reflexivity.
Qed.

(** A packet moving down (or level) at a face. *)
Lemma newLayerCheck_down (m : model.t) (p : Photon.t) (rs : np.RandomState)
      (l_i l_t : medium.t) (cc : R * R) :
  py.getitem (model.layers m) (Photon.layer p) = Ok l_i ->
  py.getitem (model.layers m) (Photon.layer p + 1) = Ok l_t ->
  py.getitem (model.cosCrit m) (Photon.layer p) = Ok cc ->
  0 <= Photon.uz p ->
  next_draw rs < 1 ->
  let uz := Photon.uz p in
  let n_i := medium.n l_i in
  let n_t := medium.n l_t in
  let r := fst (Photon.calcFresnel n_i n_t (Rabs uz)) in
  let c := snd (Photon.calcFresnel n_i n_t (Rabs uz)) in
  let rs' := snd (np.random rs) in
  (Rabs uz <= snd cc ->
   Photon.newLayerCheck m p rs = Ok (m, Photon.set_uz (- uz) p, rs')) /\
  (Rabs uz > snd cc -> next_draw rs <= r ->
   Photon.newLayerCheck m p rs = Ok (m, Photon.set_uz (- uz) p, rs')) /\
  (Rabs uz > snd cc -> next_draw rs > r ->
   Photon.layer p <> model.numberOfLayers m ->
   Photon.newLayerCheck m p rs
   = Ok (m, Photon.transmit 1 n_i n_t c p, rs')).
Proof.
  intros Hi Ht Hc Hdown Hu uz n_i n_t r c rs'.
  unfold Photon.newLayerCheck, PARTIAL_REFLECTION.
  destruct (py_lt_spec (Photon.uz p) 0) as [L | _]; [lra |].
  rewrite Hi, Ht, Hc. simpl bind. simpl Z.eqb. cbv iota.
  unfold Photon.faceReflectance, np.random.
  fold uz n_i n_t. unfold next_draw in *.
  assert (Habs : Rabs uz = uz) by (apply Rabs_right; unfold uz; lra).
  subst r c. rewrite Habs.
  split; [| split].
  - intros Hle.
    destruct (py_le_spec uz (snd cc)) as [_ | N]; [| contradiction].
    destruct (py_gt_spec (np.stream rs (np.pos rs)) 1) as [G | _]; [lra |].
    reflexivity.
  - intros Hgt Hr.
    destruct (py_le_spec uz (snd cc)) as [L | _]; [lra |].
    destruct (Photon.calcFresnel n_i n_t uz) as [r0 c0]. simpl in Hr.
    destruct (py_gt_spec (np.stream rs (np.pos rs)) r0) as [G | _]; [lra |].
    reflexivity.
  - intros Hgt Hr Hlayer.
    destruct (py_le_spec uz (snd cc)) as [L | _]; [lra |].
    destruct (Photon.calcFresnel n_i n_t uz) as [r0 c0]. simpl in *.
    destruct (py_gt_spec (np.stream rs (np.pos rs)) r0) as [_ | N];
      [| contradiction].
    destruct (Z.eqb_spec (Photon.layer p) (model.numberOfLayers m))
      as [E | _]; [contradiction |].
    reflexivity.
Qed.

(** C5 (amended).  Boundary resolution at a face, for a draw in [0, 1).
    At or below the critical cosine of the face the packet is reflected
    whatever the draw: [uz] changes sign, nothing else changes.  Above it,
    the reflectance [r] and transmitted cosine [c] come from [calcFresnel]:
    a draw at most [r] reflects, a larger draw transmits and, when the
    neighbour is an interior layer, moves the packet one layer in its
    direction of travel, scales [ux] and [uy] by [n_i / n_t] and sets [uz]
    to [c] with the sign of travel.  In every case one draw is consumed
    from the generator. *)
Theorem boundary_resolution (m : model.t) (p : Photon.t) (rs : np.RandomState)
        (l_i : medium.t) (cc : R * R) :
  py.getitem (model.layers m) (Photon.layer p) = Ok l_i ->
  py.getitem (model.cosCrit m) (Photon.layer p) = Ok cc ->
  next_draw rs < 1 ->
  let uz := Photon.uz p in
  let n_i := medium.n l_i in
  let rs' := snd (np.random rs) in
  let reflected := Ok (m, Photon.set_uz (- uz) p, rs') in
  (forall l_t,
      uz < 0 ->
      py.getitem (model.layers m) (Photon.layer p - 1) = Ok l_t ->
      let n_t := medium.n l_t in
      let r := fst (Photon.calcFresnel n_i n_t (Rabs uz)) in
      let c := snd (Photon.calcFresnel n_i n_t (Rabs uz)) in
      (Rabs uz <= fst cc -> Photon.newLayerCheck m p rs = reflected) /\
      (Rabs uz > fst cc -> next_draw rs <= r ->
       Photon.newLayerCheck m p rs = reflected) /\
      (Rabs uz > fst cc -> next_draw rs > r -> Photon.layer p <> 1%Z ->
       Photon.newLayerCheck m p rs
       = Ok (m, Photon.transmit (-1) n_i n_t (- c) p, rs'))) /\
  (forall l_t,
      0 <= uz ->
      py.getitem (model.layers m) (Photon.layer p + 1) = Ok l_t ->
      let n_t := medium.n l_t in
      let r := fst (Photon.calcFresnel n_i n_t (Rabs uz)) in
      let c := snd (Photon.calcFresnel n_i n_t (Rabs uz)) in
      (Rabs uz <= snd cc -> Photon.newLayerCheck m p rs = reflected) /\
      (Rabs uz > snd cc -> next_draw rs <= r ->
       Photon.newLayerCheck m p rs = reflected) /\
      (Rabs uz > snd cc -> next_draw rs > r ->
       Photon.layer p <> model.numberOfLayers m ->
       Photon.newLayerCheck m p rs
       = Ok (m, Photon.transmit 1 n_i n_t c p, rs'))) /\
  np.pos rs' = S (np.pos rs).
Proof.
  intros Hi Hc Hu uz n_i rs' reflected.
  split; [| split; [| reflexivity]].
  - intros l_t Hup Ht. apply newLayerCheck_up with (cc := cc); assumption.
  - intros l_t Hdown Ht. apply newLayerCheck_down with (cc := cc); assumption.
Qed.

(** ** Arrays of zeros and single cells *)

Lemma nth_error_repeat_in {T : Type} (v : T) (n k : nat) :
  (k < n)%nat -> nth_error (repeat v n) k = Some v.
Proof.
  revert k. induction n as [| n IH]; intros [| k] H; simpl; try lia; auto.
  apply IH. lia.
Qed.

Lemma getitem_repeat {T : Type} (v : T) (n : nat) (i : Z) :
  (0 <= i < Z.of_nat n)%Z -> py.getitem (repeat v n) i = Ok v.
Proof.
  intros H. apply getitem_nth_error; [lia |].
  apply nth_error_repeat_in. lia.
Qed.

Lemma get2_zeros2 (rows cols i j : Z) :
  (0 <= i < rows)%Z -> (0 <= j < cols)%Z ->
  np.get2 (np.zeros2 rows cols) i j = Ok 0.
Proof.
  intros Hi Hj. unfold np.get2, np.zeros2, np.zeros1.
  rewrite getitem_repeat by lia. simpl.
  apply getitem_repeat. lia.
Qed.

Lemma get2_set2_same (a a' : np.array2) (i j : Z) (v : R) :
  np.set2 a i j v = Ok a' -> np.get2 a' i j = Ok v.
Proof.
  unfold np.set2, np.get2. intros H.
  inv_bind H. inv_bind H.
  rewrite (getitem_setitem_same _ _ _ _ H). simpl.
  eapply getitem_setitem_same. eassumption.
Qed.

(** ** Python's [int] *)

Lemma int_floor (x : R) : 0 <= x -> py.int x = Zfloor x.
Proof.
  intros H. unfold py.int.
  destruct (py_le_spec 0 x) as [_ | N]; [reflexivity | contradiction].
Qed.

Lemma int_zero : py.int 0 = 0%Z.
Proof.
  rewrite int_floor by lra. apply Zfloor_eq. simpl. lra.
Qed.

Lemma int_nonneg (x : R) : 0 <= x -> (0 <= py.int x)%Z.
Proof.
  intros H. rewrite int_floor by assumption.
  apply Zfloor_lub. simpl. exact H.
Qed.

(** ** Bins *)

Lemma bin_floor (v d : R) (n : Z) :
  0 <= v -> 0 < d -> (0 < n)%Z ->
  Photon.bin v d n = floor_bin v d n /\ (0 <= floor_bin v d n < n)%Z.
Proof.
  intros Hv Hd Hn. unfold Photon.bin, floor_bin.
  assert (Hq : 0 <= v / d) by (apply Rle_mult_inv_pos; assumption).
  rewrite int_floor by assumption.
  assert (0 <= Zfloor (v / d))%Z by (apply Zfloor_lub; simpl; exact Hq).
  destruct (Z.gtb_spec (Zfloor (v / d)) (n - 1)); split; lia.
Qed.

Lemma get2_in_shape (a : np.array2) (rows cols i j : Z) :
  shape2 a rows cols -> (0 <= i < rows)%Z -> (0 <= j < cols)%Z ->
  exists v, np.get2 a i j = Ok v.
Proof.
  intros [Hr Hc] Hi Hj. unfold np.get2.
  destruct (getitem_total a i) as (row & Hrow); [lia |].
  rewrite Hrow. simpl.
  apply getitem_total.
  apply getitem_index in Hrow. destruct Hrow as (k & _ & Hk).
  apply nth_error_In in Hk.
  rewrite Forall_forall in Hc. rewrite (Hc _ Hk). exact Hj.
Qed.

(** ** Drop *)

(** Drop outside a muscle layer, step by step. *)
Lemma drop_plain (m : model.t) (p : Photon.t) (rs : np.RandomState)
        (l : medium.t) :
  py.getitem (model.layers m) (Photon.layer p) = Ok l ->
  py.lower (medium.name l) <> "muscle"%string ->
  shape2 (model.A_rz m) (model.nr m) (model.nz m) ->
  0 < model.dr m -> 0 < model.dz m ->
  (0 < model.nr m)%Z -> (0 < model.nz m)%Z ->
  0 <= Photon.z p ->
  let mut := medium.mua l + medium.mus l in
  let dw := Photon.w p * medium.mua l / mut in
  let ir := floor_bin (sqrt (Photon.x p ^ 2 + Photon.y p ^ 2))
                      (model.dr m) (model.nr m) in
  let iz := floor_bin (Photon.z p) (model.dz m) (model.nz m) in
  exists old a',
    np.get2 (model.A_rz m) ir iz = Ok old /\
    np.set2 (model.A_rz m) ir iz (old + dw) = Ok a' /\
    np.get2 a' ir iz = Ok (old + dw) /\
    np.sum2 a' = np.sum2 (model.A_rz m) + dw /\
    Photon.drop m p rs
    = Ok (model.set_A_rz a' m, Photon.set_w (Photon.w p - dw) p, rs).
Proof.
  intros Hl Hname Hshape Hdr Hdz Hnr Hnz Hz mut dw ir iz.
  destruct (bin_floor (sqrt (Photon.x p ^ 2 + Photon.y p ^ 2))
                      (model.dr m) (model.nr m)) as [Hir Rir];
    [apply sqrt_pos | assumption | assumption |].
  destruct (bin_floor (Photon.z p) (model.dz m) (model.nz m)) as [Hiz Riz];
    [assumption | assumption | assumption |].
  fold ir in Hir, Rir. fold iz in Hiz, Riz.
  destruct (get2_in_shape _ _ _ ir iz Hshape Rir Riz) as (old & Hold).
  destruct (set2_total _ _ _ _ (old + dw) Hold) as (a' & Ha').
  exists old, a'.
  split; [exact Hold |]. split; [exact Ha' |].
  split; [eapply get2_set2_same; eassumption |].
  split; [eapply sum2_deposit; eassumption |].
  unfold Photon.drop. rewrite Hl. cbn [bind].
  destruct (String.eqb_spec (py.lower (medium.name l)) (py.lower "muscle"))
    as [E | _]; [contradiction |].
  cbn [bind]. rewrite Hir, Hiz, Hold. cbn [bind].
  fold mut. fold dw. rewrite Ha'. reflexivity.
Qed.

(** C3 (amended).  Drop in a layer whose name is not "muscle" and whose
    coefficients do not add up to zero, for a packet at a depth [z >= 0]
    and a grid of the allocated shape: the packet loses exactly
    [dw = w * mua / mut], with [mua], [mus] those of its layer and
    [mut = mua + mus]; cell (floor of [sqrt(x^2+y^2) / dr], floor of [z / dz]) of
    [A_rz], each index folded into the last bin, gains [dw]; no other
    field of the packet, no other field of the model and no draw of the
    generator is touched. *)
Theorem drop_step (m : model.t) (p : Photon.t) (rs : np.RandomState)
        (l : medium.t) :
  py.getitem (model.layers m) (Photon.layer p) = Ok l ->
  py.lower (medium.name l) <> "muscle"%string ->
  medium.mua l + medium.mus l <> 0 ->
  shape2 (model.A_rz m) (model.nr m) (model.nz m) ->
  0 < model.dr m -> 0 < model.dz m ->
  (0 < model.nr m)%Z -> (0 < model.nz m)%Z ->
  0 <= Photon.z p ->
  let mut := medium.mua l + medium.mus l in
  let dw := Photon.w p * medium.mua l / mut in
  let ir := floor_bin (sqrt (Photon.x p ^ 2 + Photon.y p ^ 2))
                      (model.dr m) (model.nr m) in
  let iz := floor_bin (Photon.z p) (model.dz m) (model.nz m) in
  exists old a',
    np.get2 (model.A_rz m) ir iz = Ok old /\
    np.set2 (model.A_rz m) ir iz (old + dw) = Ok a' /\
    np.get2 a' ir iz = Ok (old + dw) /\
    np.sum2 a' = np.sum2 (model.A_rz m) + dw /\
    Photon.drop m p rs
    = Ok (model.set_A_rz a' m, Photon.set_w (Photon.w p - dw) p, rs).
Proof. intros Hl Hname _. exact (drop_plain m p rs l Hl Hname). Qed.

(** ** Direction cosines *)

Lemma rotation_identity (ux uy uz ct st cp sp d : R) :
  ux ^ 2 + uy ^ 2 + uz ^ 2 = 1 ->
  st ^ 2 = 1 - ct ^ 2 -> sp ^ 2 = 1 - cp ^ 2 ->
  d ^ 2 = 1 - uz ^ 2 -> d <> 0 ->
  (st * (ux * uz * cp - uy * sp) / d + ux * ct) ^ 2
  + (st * (uy * uz * cp + ux * sp) / d + uy * ct) ^ 2
  + (- st * cp * d + uz * ct) ^ 2 = 1.
Proof.
  intros Hn Hst Hsp Hd Hd0.
  assert (Hxy : ux ^ 2 + uy ^ 2 = d ^ 2) by lra.
  replace ((st * (ux * uz * cp - uy * sp) / d + ux * ct) ^ 2
           + (st * (uy * uz * cp + ux * sp) / d + uy * ct) ^ 2
           + (- st * cp * d + uz * ct) ^ 2)
    with (st ^ 2 * ((ux ^ 2 + uy ^ 2) / d ^ 2) * (uz ^ 2 * cp ^ 2 + sp ^ 2)
          + 2 * st * ct * uz * cp * ((ux ^ 2 + uy ^ 2) / d)
          + ct ^ 2 * (ux ^ 2 + uy ^ 2)
          + st ^ 2 * cp ^ 2 * d ^ 2 - 2 * st * cp * d * uz * ct
          + uz ^ 2 * ct ^ 2)
    by (field; assumption).
  rewrite Hxy.
  replace (d ^ 2 / d ^ 2) with 1 by (field; assumption).
  replace (d ^ 2 / d) with d by (field; assumption).
  rewrite Hsp.
  replace (st ^ 2 * 1 * (uz ^ 2 * cp ^ 2 + (1 - cp ^ 2))
           + 2 * st * ct * uz * cp * d + ct ^ 2 * d ^ 2
           + st ^ 2 * cp ^ 2 * d ^ 2 - 2 * st * cp * d * uz * ct
           + uz ^ 2 * ct ^ 2)
    with (st ^ 2 * (1 - cp ^ 2 * (1 - uz ^ 2 - d ^ 2))
          + ct ^ 2 * (d ^ 2 + uz ^ 2))
    by ring.
  rewrite Hd, Hst. ring.
Qed.

Lemma sqrt_pow2 (x : R) : 0 <= x -> sqrt x ^ 2 = x.
Proof. intros H. simpl. rewrite Rmult_1_r. apply sqrt_sqrt. exact H. Qed.

Lemma sign_square (x : R) : x <> 0 -> np.sign x ^ 2 = 1.
Proof.
  intros H. unfold np.sign.
  destruct (py_lt_spec 0 x); [lra |].
  destruct (py_lt_spec x 0); lra.
Qed.

(** The direction update of [spin] keeps a unit direction a unit one,
    for any cosine/sine pairs of the two angles. *)
Lemma deflect_norm (ct st cp sp : R) (p : Photon.t) :
  norm2 p = 1 ->
  st ^ 2 = 1 - ct ^ 2 -> sp ^ 2 = 1 - cp ^ 2 ->
  norm2 (Photon.deflect ct st cp sp p) = 1.
Proof.
  unfold norm2, Photon.deflect. intros Hn Hst Hsp.
  destruct (py_gt_spec (Rabs (Photon.uz p)) COSZERO) as [G | G]; attrs.
  - assert (Hz : Photon.uz p <> 0).
    { intros E. rewrite E, Rabs_R0 in G. unfold COSZERO in G. lra. }
    pose proof (sign_square _ Hz) as Hs.
    replace ((st * cp) ^ 2 + (st * sp) ^ 2
             + (ct * np.sign (Photon.uz p)) ^ 2)
      with (st ^ 2 * (cp ^ 2 + sp ^ 2) + ct ^ 2 * np.sign (Photon.uz p) ^ 2)
      by ring.
    rewrite Hs, Hsp, Hst. ring.
  - assert (Hlt : Photon.uz p ^ 2 < 1).
    { assert (Rabs (Photon.uz p) < 1) by (unfold COSZERO in G; lra).
      apply Rabs_def2 in H. nra. }
    apply rotation_identity; try assumption.
    + apply sqrt_pow2. lra.
    + intros E. apply sqrt_eq_0 in E; lra.
Qed.

Lemma sampleCosTheta_bound (g u : R) :
  0 <= u <= 1 -> -1 <= Photon.sampleCosTheta g u <= 1.
Proof.
  intros Hu. unfold Photon.sampleCosTheta.
  destruct (py_eq_spec g 0); [lra |].
  cbv zeta.
  destruct (py_lt_spec ((1 + g ^ 2 - ((1 - g ^ 2) / (1 - g + 2 * g * u)) ^ 2)
                        / (2 * g)) (-1)); [lra |].
  destruct (py_gt_spec ((1 + g ^ 2 - ((1 - g ^ 2) / (1 - g + 2 * g * u)) ^ 2)
                        / (2 * g)) 1); lra.
Qed.

Lemma spin_norm (g : R) (p : Photon.t) (rs : np.RandomState) :
  norm2 p = 1 -> 0 <= next_draw rs <= 1 ->
  norm2 (fst (Photon.spin g p rs)) = 1.
Proof.
  intros Hn Hu. unfold Photon.spin, np.random. cbn [fst np.stream np.pos].
  pose proof (sampleCosTheta_bound g _ Hu) as Hb. unfold next_draw in Hb.
  apply deflect_norm; [exact Hn | |].
  - apply sqrt_pow2. nra.
  - set (c := cos _). pose proof (COS_bound (2.0 * PI * np.stream rs (S (np.pos rs)))) as Hc.
    fold c in Hc.
    assert (Hs : sqrt (1 - c ^ 2) ^ 2 = 1 - c ^ 2) by (apply sqrt_pow2; nra).
    destruct (py.lt _ PI); [exact Hs |].
    replace ((- sqrt (1 - c ^ 2)) ^ 2) with (sqrt (1 - c ^ 2) ^ 2) by ring.
    exact Hs.
Qed.

Lemma transmit_norm (step : Z) (n_i n_t c : R) (p : Photon.t) :
  norm2 (Photon.transmit step n_i n_t c p)
  = (n_i / n_t) ^ 2 * (Photon.ux p ^ 2 + Photon.uy p ^ 2) + c ^ 2.
Proof. unfold norm2, Photon.transmit. attrs. ring. Qed.

(** The transmitted cosine obeys Snell's law whenever transmission is
    possible and [calcFresnel] is not on its near-normal shortcut. *)
Lemma calcFresnel_snell (n_i n_t uz : R) :
  0 < n_i -> 0 < n_t ->
  fst (Photon.calcFresnel n_i n_t (Rabs uz)) < 1 ->
  n_i = n_t \/ Rabs uz <= COSZERO ->
  snd (Photon.calcFresnel n_i n_t (Rabs uz)) ^ 2
  = 1 - (n_i / n_t) ^ 2 * (1 - uz ^ 2).
Proof.
  intros Hi Ht Hr Hcase. unfold Photon.calcFresnel in *.
  rewrite Rabs_Rabsolu in *.
  destruct (py_eq_spec n_i n_t) as [E | E].
  - subst n_t. cbn [snd]. rewrite <- Rsqr_pow2, <- Rsqr_abs, Rsqr_pow2.
    field. lra.
  - destruct Hcase as [C | C]; [contradiction |].
    destruct (py_gt_spec (Rabs uz) COSZERO) as [G | _]; [lra |].
    destruct (py_lt_spec (Rabs uz) COS90) as [L | _];
      [cbn [fst] in Hr; lra |].
    assert (Hu2 : Rabs uz ^ 2 = uz ^ 2).
    { rewrite <- !Rsqr_pow2. symmetry. apply Rsqr_abs. }
    assert (Hpos : 0 <= 1 - Rabs uz ^ 2).
    { pose proof (Rabs_pos uz). unfold COSZERO in C. nra. }
    set (sinTran := n_i / n_t * sqrt (1 - Rabs uz ^ 2)) in *.
    destruct (py_ge_spec sinTran 1) as [G | G]; [cbn [fst] in Hr; lra |].
    cbn [snd].
    assert (H0 : 0 <= sinTran).
    { unfold sinTran. apply Rmult_le_pos; [| apply sqrt_pos].
      apply Rlt_le, Rdiv_lt_0_compat; assumption. }
    rewrite sqrt_pow2 by nra.
    unfold sinTran. rewrite Rpow_mult_distr, sqrt_pow2 by assumption.
    rewrite Hu2. reflexivity.
Qed.

(** C7 (amended).  For a packet with a unit direction: the direction
    update of [spin] gives a unit direction for every deflection cosine
    in [-1, 1] and every azimuth, and so does [spin] itself for a draw
    [u] in [0, 1] and an anisotropy [g] that is zero or keeps the
    divisor [1 - g + 2 g u] of its sampling formula away from zero (any
    [g] strictly between -1 and 1 does); the boundary transmission update gives a unit direction
    whenever transmission is possible (reflectance below 1) and
    [calcFresnel] does not take its near-normal shortcut with distinct
    indices, that is, when the indices are equal or [|uz| <= COSZERO].  On
    the near-normal shortcut with distinct indices the squared length
    becomes [uz^2 + (n_i/n_t)^2 * (1 - uz^2)]. *)
Theorem unit_direction (p : Photon.t) :
  norm2 p = 1 ->
  (forall cosTheta psi,
      -1 <= cosTheta <= 1 ->
      norm2 (Photon.deflect cosTheta (sqrt (1 - cosTheta ^ 2)) (cos psi)
               (if py.lt psi PI then sqrt (1 - cos psi ^ 2)
                else - sqrt (1 - cos psi ^ 2)) p) = 1) /\
  (forall g rs,
      0 <= next_draw rs <= 1 ->
      g = 0 \/ 1 - g + 2 * g * next_draw rs <> 0 ->
      norm2 (fst (Photon.spin g p rs)) = 1) /\
  (forall n_i n_t,
      0 < n_i -> 0 < n_t ->
      let r := fst (Photon.calcFresnel n_i n_t (Rabs (Photon.uz p))) in
      let c := snd (Photon.calcFresnel n_i n_t (Rabs (Photon.uz p))) in
      (r < 1 -> n_i = n_t \/ Rabs (Photon.uz p) <= COSZERO ->
       norm2 (Photon.transmit (-1) n_i n_t (- c) p) = 1 /\
       norm2 (Photon.transmit 1 n_i n_t c p) = 1) /\
      (n_i <> n_t -> Rabs (Photon.uz p) > COSZERO ->
       norm2 (Photon.transmit (-1) n_i n_t (- c) p)
       = Photon.uz p ^ 2 + (n_i / n_t) ^ 2 * (1 - Photon.uz p ^ 2) /\
       norm2 (Photon.transmit 1 n_i n_t c p)
       = Photon.uz p ^ 2 + (n_i / n_t) ^ 2 * (1 - Photon.uz p ^ 2))).
Proof.
  intros Hn. split; [| split].
  - intros ct psi Hct. apply deflect_norm; [exact Hn | |].
    + apply sqrt_pow2. nra.
    + pose proof (COS_bound psi) as Hc.
      assert (Hs : sqrt (1 - cos psi ^ 2) ^ 2 = 1 - cos psi ^ 2)
        by (apply sqrt_pow2; nra).
      destruct (py.lt psi PI); [exact Hs |].
      replace ((- sqrt (1 - cos psi ^ 2)) ^ 2)
        with (sqrt (1 - cos psi ^ 2) ^ 2) by ring.
      exact Hs.
  - intros g rs Hu _. apply spin_norm; assumption.
  - intros n_i n_t Hi Ht r c.
    assert (Hxy : Photon.ux p ^ 2 + Photon.uy p ^ 2 = 1 - Photon.uz p ^ 2)
      by (unfold norm2 in Hn; lra).
    split.
    + intros Hr Hcase.
      pose proof (calcFresnel_snell n_i n_t (Photon.uz p) Hi Ht Hr Hcase) as Hs.
      fold c in Hs.
      rewrite !transmit_norm, Hxy.
      replace ((- c) ^ 2) with (c ^ 2) by ring.
      rewrite Hs. split; ring.
    + intros Hne Hnear.
      assert (Hc : c ^ 2 = Photon.uz p ^ 2).
      { unfold c, Photon.calcFresnel. rewrite Rabs_Rabsolu.
        destruct (py_eq_spec n_i n_t) as [E | _]; [contradiction |].
        destruct (py_gt_spec (Rabs (Photon.uz p)) COSZERO) as [_ | N];
          [| contradiction].
        cbn [snd]. rewrite <- !Rsqr_pow2. symmetry. apply Rsqr_abs. }
      rewrite !transmit_norm, Hxy.
      replace ((- c) ^ 2) with (c ^ 2) by ring.
      rewrite Hc. split; ring.
Qed.

(** ** Construction of the model and launch of a packet *)

(** A loop whose every turn appends one entry to a list appends as many
    entries as it takes turns. *)
Lemma for_loop_appends {S T : Type} (body : Z -> S * list T -> result (S * list T))
      (count : nat) :
  (forall i a l a' l',
      body i (a, l) = Ok (a', l') -> exists e, l' = l ++ [e]) ->
  forall i a l a' l',
    py.for_loop count i body (a, l) = Ok (a', l') ->
    exists tail, l' = l ++ tail /\ length tail = count.
Proof.
  intros Hbody. induction count as [| c IH]; intros i a l a' l' H; simpl in H.
  - injection H as <- <-. exists []. rewrite app_nil_r. auto.
  - inv_bind H. destruct v as [a1 l1].
    apply Hbody in E. destruct E as (e & ->).
    apply IH in H. destruct H as (tail & -> & Hlen).
    exists (e :: tail). rewrite <- app_assoc. simpl. auto.
Qed.

Lemma calcSpecular_first_layer (m : model.t) (r : R) :
  model.calcSpecular m = Ok r ->
  exists l1, py.getitem (model.layers m) 1 = Ok l1.
Proof.
  unfold model.calcSpecular. intros H. inv_bind H. inv_bind H. eauto.
Qed.

(** What [model.__init__] establishes about the depths of the layers. *)
Lemma init_layerDepth (structure : list medium.t) (N : Z) (m : model.t) :
  model.__init__ structure N = Ok m ->
  model.layers m = structure /\
  (exists l1, py.getitem structure 1 = Ok l1) /\
  length (model.layerDepth m) = S (Z.to_nat N) /\
  (forall l1,
      py.getitem structure 1 = Ok l1 -> (2 <= N)%Z ->
      exists d2,
        py.getitem (model.layerDepth m) 1 = Ok (0, 0 + medium.z l1) /\
        py.getitem (model.layerDepth m) 2 = Ok (0 + medium.z l1, d2)).
Proof.
  unfold model.__init__. intros H.
  inv_bind H. destruct v as [zf ld]. inv_bind H. inv_bind H.
  injection H as <-. cbn [model.layers model.layerDepth model.set_Rsp].
  split; [reflexivity |].
  split; [apply calcSpecular_first_layer in E1; exact E1 |].
  unfold py.for_range in E.
  replace (N + 1 - 1)%Z with N in E by lia.
  split.
  - apply for_loop_appends in E.
    + destruct E as (tail & -> & Hlen). rewrite length_app. simpl. lia.
    + intros i a l a' l' Hb. inv_bind Hb. injection Hb as _ <-. eauto.
  - intros l1 Hl1 HN.
    destruct (Z.to_nat N) as [| [| k]] eqn:EN; try lia.
    simpl in E. rewrite Hl1 in E. cbn [bind] in E.
    destruct (py.getitem structure 2) as [l2 | e] eqn:Hl2; cbn [bind] in E;
      [| discriminate E].
    apply for_loop_appends in E.
    + destruct E as (tail & -> & _).
      exists (0 + medium.z l1 + medium.z l2).
      split; (apply getitem_nth_error; [lia | reflexivity]).
    + intros i a l a' l' Hb. inv_bind Hb. injection Hb as _ <-. eauto.
Qed.

Lemma getitem_beyond {T : Type} (l : list T) (i : Z) :
  (Z.of_nat (length l) <= i)%Z -> py.getitem l i = Raise IndexError.
Proof.
  intros H. unfold py.getitem, py.index.
  destruct (0 <=? i)%Z eqn:E0; [| lia].
  destruct (i <? Z.of_nat (length l))%Z eqn:E1; [lia | reflexivity].
Qed.

(** C10.  Launch state.  For a model built by [model.__init__], whose first
    tissue layer is [l1]: every packet [Photon.__init__] returns has layer
    index 1, weight [1 - Rsp], direction (0, 0, 1), [s = s_rem = 0], is
    alive and sits on the axis; its depth is the bottom depth of layer 1
    (the thickness of that layer) when layer 1 is clear, although its layer
    index is 1, and 0 otherwise.  The constructor returns whenever layer 1
    is not clear or the stack has at least two tissue layers; with a clear
    layer 1 and fewer layers, [layerDepth[2]] does not exist and it raises
    [IndexError]. *)
Theorem launch_state (structure : list medium.t) (N : Z) (m : model.t) :
  model.__init__ structure N = Ok m ->
  exists l1,
    py.getitem (model.layers m) 1 = Ok l1 /\
    (forall p,
        Photon.__init__ m = Ok p ->
        Photon.layer p = 1%Z /\ Photon.w p = 1 - model.Rsp m /\
        Photon.x p = 0 /\ Photon.y p = 0 /\
        Photon.ux p = 0 /\ Photon.uy p = 0 /\ Photon.uz p = 1 /\
        Photon.s p = 0 /\ Photon.s_rem p = 0 /\ Photon.dead p = false /\
        (medium.mua l1 = 0 /\ medium.mus l1 = 0 ->
         exists d1,
           py.getitem (model.layerDepth m) 1 = Ok d1 /\
           Photon.z p = snd d1 /\ Photon.z p = 0 + medium.z l1) /\
        (~ (medium.mua l1 = 0 /\ medium.mus l1 = 0) -> Photon.z p = 0)) /\
    (~ (medium.mua l1 = 0 /\ medium.mus l1 = 0) \/ (2 <= N)%Z ->
     exists p, Photon.__init__ m = Ok p) /\
    (medium.mua l1 = 0 /\ medium.mus l1 = 0 -> (N < 2)%Z ->
     Photon.__init__ m = Raise IndexError).
Proof.
  intros Hm.
  destruct (init_layerDepth _ _ _ Hm) as (Hlayers & (l1 & Hl1) & Hlen & Hdepth).
  exists l1. rewrite Hlayers. split; [exact Hl1 |].
  unfold Photon.__init__. rewrite Hlayers, Hl1. cbn [bind].
  destruct (py_eq_spec (medium.mua l1) 0) as [Ea | Ea];
    [destruct (py_eq_spec (medium.mus l1) 0) as [Es | Es] |]; cbn [andb].
  - (* layer 1 is clear *)
    destruct (Z_lt_le_dec N 2) as [HN | HN].
    + rewrite getitem_beyond by (rewrite Hlen; lia). cbn [bind].
      split; [intros p Hp; discriminate Hp |].
      split; [intros [Hc | Hc]; [tauto | lia] | reflexivity].
    + destruct (Hdepth l1 Hl1 HN) as (d2 & Hd1 & Hd2).
      rewrite Hd2. cbn [bind fst].
      split; [| split; [eauto | intros _ Hlt; lia]].
      intros p [= <-]. attrs. repeat (split; [reflexivity |]).
      split; [| tauto].
      intros _. exists (0, 0 + medium.z l1). auto.
  - cbn [bind].
    split; [| split; [eauto | tauto]].
    intros p [= <-]. attrs. repeat (split; [reflexivity |]).
    split; [tauto | reflexivity].
  - cbn [bind].
    split; [| split; [eauto | tauto]].
    intros p [= <-]. attrs. repeat (split; [reflexivity |]).
    split; [tauto | reflexivity].
Qed.

(** ** Loops of the normaliser *)

(** Invariant rule for [for i in range(lo, hi)]: a relation to the start
    state that every turn extends. *)
Lemma for_loop_rel {S : Type} (Rel : S -> S -> Prop)
      (body : Z -> S -> result S) (s0 : S) :
  (forall a b c, Rel a b -> Rel b c -> Rel a c) ->
  forall (count : nat) (lo : Z) (s : S),
    Rel s0 s ->
    (forall j t, (lo <= j < lo + Z.of_nat count)%Z -> Rel s0 t ->
                 exists t', body j t = Ok t' /\ Rel t t') ->
    exists s', py.for_loop count lo body s = Ok s' /\ Rel s0 s'.
Proof.
  intros Htrans count. induction count as [| c IH]; intros lo s Hs Hstep.
  - exists s. split; [reflexivity | exact Hs].
  - destruct (Hstep lo s) as (t' & Ht' & Hrel); [lia | exact Hs |].
    simpl. rewrite Ht'. cbn [bind].
    apply IH.
    + eapply Htrans; eassumption.
    + intros j t Hj Ht. apply Hstep; [lia | exact Ht].
Qed.

Lemma for_range_rel {S : Type} (Rel : S -> S -> Prop)
      (body : Z -> S -> result S) (lo hi : Z) (s0 : S) :
  (forall a b c, Rel a b -> Rel b c -> Rel a c) ->
  Rel s0 s0 ->
  (forall j t, (lo <= j < hi)%Z -> Rel s0 t ->
               exists t', body j t = Ok t' /\ Rel t t') ->
  exists s', py.for_range lo hi body s0 = Ok s' /\ Rel s0 s'.
Proof.
  intros Htrans Hrefl Hstep. unfold py.for_range.
  apply for_loop_rel; [exact Htrans | exact Hrefl |].
  intros j t Hj Ht. apply Hstep; [lia | exact Ht].
Qed.

(** A loop that only reads: it returns whenever each turn does. *)
Lemma for_range_total {S : Type} (body : Z -> S -> result S) (lo hi : Z) (s0 : S) :
  (forall j t, (lo <= j < hi)%Z -> exists t', body j t = Ok t') ->
  exists s', py.for_range lo hi body s0 = Ok s'.
Proof.
  intros Hstep.
  destruct (for_range_rel (fun _ _ => True) body lo hi s0) as (s' & Hs' & _);
    [auto | auto | | eauto].
  intros j t Hj _. destruct (Hstep j t Hj) as (t' & Ht'). eauto.
Qed.

Lemma config_eq_refl (m : model.t) : config_eq m m.
Proof. unfold config_eq. repeat split. Qed.

Lemma config_eq_trans (a b c : model.t) :
  config_eq a b -> config_eq b c -> config_eq a c.
Proof.
  unfold config_eq.
  intros (A1 & A2 & A3 & A4 & A5 & A6 & A7 & A8 & A9 & A10)
         (B1 & B2 & B3 & B4 & B5 & B6 & B7 & B8 & B9 & B10).
  repeat split; congruence.
Qed.

Lemma frame_refl (m : model.t) : grids_allocated m -> frame m m.
Proof.
  intros H. unfold frame. split; [apply config_eq_refl |]. auto.
Qed.

Lemma frame_trans (a b c : model.t) : frame a b -> frame b c -> frame a c.
Proof.
  unfold frame. intros (A1 & A2 & A3 & A4 & A5) (B1 & B2 & B3 & B4 & B5).
  split; [eapply config_eq_trans; eassumption |].
  split; [assumption |]. repeat split; congruence.
Qed.

(** ** Shapes under assignment *)

Lemma shape1_get (a : np.array1) (n i : Z) :
  shape1 a n -> (0 <= i < n)%Z -> exists v, py.getitem a i = Ok v.
Proof. unfold shape1. intros <- H. apply getitem_total. exact H. Qed.

Lemma shape1_set (a a' : np.array1) (n i : Z) (v : R) :
  shape1 a n -> py.setitem a i v = Ok a' -> shape1 a' n.
Proof.
  unfold shape1. intros <- H. rewrite (setitem_length _ _ _ _ H). reflexivity.
Qed.

(** Reading then overwriting a cell of a 1D array of known shape. *)
Lemma shape1_update (a : np.array1) (n i : Z) (f : R -> R) :
  shape1 a n -> (0 <= i < n)%Z ->
  exists v a', py.getitem a i = Ok v /\ py.setitem a i (f v) = Ok a' /\
               shape1 a' n.
Proof.
  intros Hs Hi. destruct (shape1_get a n i Hs Hi) as (v & Hv).
  destruct (setitem_total a i v (f v) Hv) as (a' & Ha').
  exists v, a'. split; [assumption |]. split; [assumption |].
  eapply shape1_set; eassumption.
Qed.

Lemma shape1_store (a : np.array1) (n i : Z) (v : R) :
  shape1 a n -> (0 <= i < n)%Z ->
  exists a', py.setitem a i v = Ok a' /\ shape1 a' n.
Proof.
  intros Hs Hi. destruct (shape1_get a n i Hs Hi) as (v0 & Hv).
  destruct (setitem_total a i v0 v Hv) as (a' & Ha').
  exists a'. split; [assumption |]. eapply shape1_set; eassumption.
Qed.

Lemma Forall_replace {T : Type} (P : T -> Prop) (k : nat) (v : T) (l : list T) :
  Forall P l -> P v -> Forall P (py.replace k v l).
Proof.
  intros Hl Hv. revert k. induction Hl as [| h t Hh Ht IH]; intros [| k];
    simpl; constructor; auto.
Qed.

Lemma shape2_set (a a' : np.array2) (rows cols i j : Z) (v : R) :
  shape2 a rows cols -> np.set2 a i j v = Ok a' -> shape2 a' rows cols.
Proof.
  unfold shape2, np.set2. intros [Hr Hc] H.
  inv_bind H. inv_bind H.
  pose proof (setitem_length _ _ _ _ E0) as Hlen.
  apply getitem_index in E. destruct E as (k & _ & Hk).
  apply nth_error_In in Hk. rewrite Forall_forall in Hc.
  pose proof (Hc _ Hk) as Hrow.
  unfold py.setitem in H. inv_bind H. injection H as <-.
  split.
  - rewrite replace_length. exact Hr.
  - apply Forall_replace.
    + apply Forall_forall. exact Hc.
    + rewrite Hlen. exact Hrow.
Qed.

(** Reading then overwriting a cell of a 2D array of known shape. *)
Lemma shape2_update (a : np.array2) (rows cols i j : Z) (f : R -> R) :
  shape2 a rows cols -> (0 <= i < rows)%Z -> (0 <= j < cols)%Z ->
  exists v a', np.get2 a i j = Ok v /\ np.set2 a i j (f v) = Ok a' /\
               shape2 a' rows cols.
Proof.
  intros Hs Hi Hj. destruct (get2_in_shape a rows cols i j Hs Hi Hj) as (v & Hv).
  destruct (set2_total a i j v (f v) Hv) as (a' & Ha').
  exists v, a'. split; [assumption |]. split; [assumption |].
  eapply shape2_set; eassumption.
Qed.


(** ** Stages of the normaliser: they return and keep the frame *)

(** Runs the next loop of the goal under the relation [Rel]. *)
Ltac run_loop Rel s Hs F :=
  match goal with
  | |- context [py.for_range ?lo ?hi ?body ?s0] =>
      destruct (for_range_rel Rel body lo hi s0) as (s & Hs & F);
      [ | | | rewrite Hs; cbn [bind] ]
  end.

(** Runs the next loop of the goal when it only reads the model. *)
Ltac read_loop s Hs :=
  match goal with
  | |- context [py.for_range ?lo ?hi ?body ?s0] =>
      destruct (for_range_total body lo hi s0) as (s & Hs);
      [ | rewrite Hs; cbn [bind] ]
  end.

(** Side conditions on shapes, bounds and kept attributes. *)
Ltac shapes :=
  unfold frame, config_eq, grids_allocated, stack_ok in *; mattrs;
  intuition (try reflexivity; try congruence; try lia).

(** Continues with the rest of a stage from an intermediate state. *)
Ltac rebase m s1 F1 :=
  match goal with
  | |- exists s, ?c = Ok s /\ frame m s =>
      let s' := fresh "s" in
      let Hs' := fresh "Hs" in
      let F' := fresh "F" in
      enough (exists s, c = Ok s /\ frame s1 s) as (s' & Hs' & F');
      [ exists s'; split; [exact Hs' | exact (frame_trans _ _ _ F1 F')] | ]
  end.

Lemma frame_shapes (m s : model.t) :
  frame m s -> grids_allocated s /\ config_eq m s.
Proof. unfold frame. tauto. Qed.

Lemma sumRT_ok (m : model.t) :
  grids_allocated m -> exists s, model.sumRT m = Ok s /\ frame m s.
Proof.
  intros Hg. unfold model.sumRT.
  run_loop frame s1 Hs1 F1;
    [exact frame_trans | apply frame_refl; exact Hg | |].
  { intros ir t Hir Ft. cbv beta.
    read_loop acc Hacc.
    { intros ia [sumR sumT] Hia.
      destruct (get2_in_shape (model.Rd_ra t) (model.nr t) (model.na t) ir ia)
        as (r & ->); [shapes | shapes | lia |].
      cbn [bind].
      destruct (get2_in_shape (model.Tt_ra t) (model.nr t) (model.na t) ir ia)
        as (x & ->); [shapes | shapes | lia |].
      cbn [bind]. eauto. }
    destruct acc as [sumR sumT].
    destruct (shape1_store (model.Rd_r t) (model.nr t) ir sumR)
      as (a1 & -> & S1); [shapes | shapes |].
    cbn [bind].
    destruct (shape1_store (model.Tt_r t) (model.nr t) ir sumT)
      as (a2 & -> & S2); [shapes | shapes |].
    cbn [bind]. eexists. split; [reflexivity |]. shapes. }
  rebase m s1 F1. clear Hs1.
  run_loop frame s2 Hs2 F2;
    [exact frame_trans | apply frame_refl; shapes | |].
  { intros ia t Hia Ft. cbv beta.
    read_loop acc Hacc.
    { intros ir [sumR sumT] Hir.
      destruct (get2_in_shape (model.Rd_ra t) (model.nr t) (model.na t) ir ia)
        as (r & ->); [shapes | lia | shapes |].
      cbn [bind].
      destruct (get2_in_shape (model.Tt_ra t) (model.nr t) (model.na t) ir ia)
        as (x & ->); [shapes | lia | shapes |].
      cbn [bind]. eauto. }
    destruct acc as [sumR sumT].
    destruct (shape1_store (model.Rd_a t) (model.na t) ia sumR)
      as (a1 & -> & S1); [shapes | shapes |].
    cbn [bind].
    destruct (shape1_store (model.Tt_a t) (model.na t) ia sumT)
      as (a2 & -> & S2); [shapes | shapes |].
    cbn [bind]. eexists. split; [reflexivity |]. shapes. }
  rebase s1 s2 F2. clear Hs2.
  read_loop acc Hacc.
  { intros ir [sumR sumT] Hir.
    destruct (shape1_get (model.Rd_r s2) (model.nr s2) ir) as (r & ->);
      [shapes | lia |].
    cbn [bind].
    destruct (shape1_get (model.Tt_r s2) (model.nr s2) ir) as (x & ->);
      [shapes | lia |].
    cbn [bind]. eauto. }
  destruct acc as [sumR sumT].
  eexists. split; [reflexivity |]. shapes.
Qed.

Lemma layerOfBin_ok (m : model.t) (iz : Z) :
  stack_ok m ->
  forall fuel i,
    (1 <= i <= model.numberOfLayers m)%Z ->
    exists il, model.layerOfBin fuel m iz i = Ok il /\
               (1 <= il <= model.numberOfLayers m)%Z.
Proof.
  intros (HN & Hld & Hl) fuel.
  induction fuel as [| f IH]; intros i Hi; simpl;
    (destruct (getitem_total (model.layerDepth m) i) as (d & ->); [lia |]);
    cbn [bind];
    destruct (py.ge _ _); cbn [andb];
    try (destruct (Z.ltb_spec i (model.numberOfLayers m)));
    try (exists i; split; [reflexivity | lia]).
  - exists (i + 1)%Z. split; [reflexivity | lia].
  - apply IH. lia.
Qed.

Lemma indexLayer_ok (m : model.t) (iz : Z) :
  stack_ok m ->
  exists il, model.indexLayer m iz = Ok il /\
             (1 <= il <= model.numberOfLayers m)%Z.
Proof.
  intros H. unfold model.indexLayer. apply layerOfBin_ok; [exact H |].
  destruct H. lia.
Qed.

Lemma muaIz_ok (m : model.t) (iz : Z) :
  stack_ok m -> exists mua, model.muaIz m iz = Ok mua.
Proof.
  intros H. unfold model.muaIz.
  destruct (layerOfBin_ok m iz H (Z.to_nat (model.numberOfLayers m)) 1)
    as (il & -> & Hil); [destruct H; lia |].
  cbn [bind].
  destruct (getitem_total (model.layers m) il) as (l & ->);
    [destruct H as (_ & _ & H); lia |].
  cbn [bind]. eauto.
Qed.

Lemma stack_ok_config (m s : model.t) :
  config_eq m s -> stack_ok m -> stack_ok s.
Proof.
  unfold config_eq, stack_ok.
  intros (-> & -> & -> & _). tauto.
Qed.

Lemma sumA_ok (m : model.t) :
  grids_allocated m -> stack_ok m ->
  exists s, model.sumA m = Ok s /\ frame m s.
Proof.
  intros Hg Hst. unfold model.sumA.
  run_loop frame s1 Hs1 F1;
    [exact frame_trans | apply frame_refl; exact Hg | |].
  { intros iz t Hiz Ft. cbv beta.
    read_loop acc Hacc.
    { intros ir sumA Hir.
      destruct (get2_in_shape (model.A_rz t) (model.nr t) (model.nz t) ir iz)
        as (r & ->); [shapes | lia | shapes |].
      cbn [bind]. eauto. }
    destruct (shape1_store (model.A_z t) (model.nz t) iz acc)
      as (a1 & -> & S1); [shapes | shapes |].
    cbn [bind]. eexists. split; [reflexivity |]. shapes. }
  rebase m s1 F1. clear Hs1.
  match goal with
  | |- context [py.for_range ?lo ?hi ?body ?s0] =>
      destruct (for_range_rel (fun a b => frame (snd a) (snd b)) body lo hi s0)
        as ([sumA s2] & Hs2 & F2);
      [ | | | rewrite Hs2; cbn [bind] ]
  end.
  { intros a b c. apply frame_trans. }
  { apply frame_refl. shapes. }
  { intros iz [sumA t] Hiz Ft. cbn [snd] in Ft. cbv beta iota.
    destruct (shape1_get (model.A_z t) (model.nz t) iz) as (a & Ha);
      [shapes | shapes |].
    rewrite Ha. cbn [bind].
    destruct (indexLayer_ok t iz) as (il & -> & Hil).
    { apply stack_ok_config with (m := m); [| exact Hst].
      eapply config_eq_trans; [apply F1 | apply Ft]. }
    cbn [bind].
    destruct (shape1_get (model.A_l t) (model.numberOfLayers t + 2) il)
      as (old & Hold); [shapes | lia |].
    rewrite Hold. cbn [bind].
    destruct (shape1_store (model.A_l t) (model.numberOfLayers t + 2) il
                (old + a)) as (a1 & -> & S1); [shapes | lia |].
    cbn [bind]. eexists. split; [reflexivity |]. cbn [snd]. shapes. }
  cbn [snd] in F2. eexists. split; [reflexivity |]. shapes.
Qed.

Lemma Fluence_ok (m : model.t) :
  grids_allocated m -> stack_ok m ->
  exists s, model.Fluence m = Ok s /\ frame m s.
Proof.
  intros Hg Hst. unfold model.Fluence.
  apply for_range_rel; [exact frame_trans | apply frame_refl; exact Hg |].
  intros iz t Hiz Ft. cbv beta.
  apply for_range_rel; [exact frame_trans | apply frame_refl; shapes |].
  intros ir u Hir Fu. cbv beta.
  assert (Fmu : frame m u) by (eapply frame_trans; eassumption).
  destruct (muaIz_ok u iz) as (mua & ->).
  { apply stack_ok_config with (m := m); [apply Fmu | exact Hst]. }
  cbn [bind].
  destruct (get2_in_shape (model.A_rz u) (model.nr u) (model.nz u) ir iz)
    as (a & ->); [shapes | shapes | shapes |].
  cbn [bind].
  destruct (get2_in_shape (model.Phi_rz u) (model.nr u) (model.nz u) ir iz)
    as (p0 & Hp0); [shapes | shapes | shapes |].
  destruct (set2_total _ _ _ _ (a / mua) Hp0) as (P' & HP').
  rewrite HP'. cbn [bind]. mattrs.
  destruct (shape1_get (model.A_z u) (model.nz u) iz) as (az & ->);
    [shapes | shapes |].
  cbn [bind].
  destruct (shape1_store (model.Phi_z u) (model.nz u) iz (az / mua))
    as (a1 & -> & S1); [shapes | shapes |].
  cbn [bind]. eexists. split; [reflexivity |].
  pose proof (shape2_set _ _ _ _ _ _ _ (proj1 (proj2 (proj2 (proj2 (proj2
                (proj2 (proj2 (proj1 (frame_shapes _ _ Fmu)))))))))
                HP') as SP.
  shapes.
Qed.

(** ** Cells of a 2D array *)

Lemma index_nonneg_inv (len : nat) (i : Z) (k : nat) :
  (0 <= i)%Z -> py.index len i = Ok k -> k = Z.to_nat i /\ (k < len)%nat.
Proof.
  intros Hi H. split; [| eapply index_bound; eassumption].
  unfold py.index in H.
  destruct (0 <=? i)%Z eqn:E0; [| lia].
  destruct (i <? Z.of_nat len)%Z; [| discriminate].
  injection H as <-. reflexivity.
Qed.

Lemma cell_get2 (a : np.array2) (i j : Z) (v : R) :
  (0 <= i)%Z -> (0 <= j)%Z -> np.get2 a i j = Ok v ->
  cell a (Z.to_nat i) (Z.to_nat j) = Some v.
Proof.
  intros Hi Hj H. unfold np.get2 in H. inv_bind H.
  apply getitem_index in E. destruct E as (k & Hk & Hrow).
  apply getitem_index in H. destruct H as (c & Hc & Hv).
  apply index_nonneg_inv in Hk; [| exact Hi]. destruct Hk as [-> _].
  apply index_nonneg_inv in Hc; [| exact Hj]. destruct Hc as [-> _].
  unfold cell. rewrite Hrow. exact Hv.
Qed.

Lemma cell_set2 (a a' : np.array2) (i j : Z) (v : R) :
  (0 <= i)%Z -> (0 <= j)%Z -> np.set2 a i j v = Ok a' ->
  forall r c,
    cell a' r c
    = if (r =? Z.to_nat i)%nat && (c =? Z.to_nat j)%nat then Some v
      else cell a r c.
Proof.
  intros Hi Hj H r c. unfold np.set2 in H. inv_bind H. inv_bind H.
  apply getitem_index in E. destruct E as (k & Hk & Hrow).
  unfold py.setitem in E0, H.
  rewrite Hk in H. cbn [bind] in H. injection H as <-.
  inv_bind E0. injection E0 as <-.
  apply index_nonneg_inv in Hk; [| exact Hi]. destruct Hk as [-> Hlt].
  apply index_nonneg_inv in E; [| exact Hj]. destruct E as [-> Hlt'].
  unfold cell.
  destruct (Nat.eqb_spec r (Z.to_nat i)) as [-> | Hr].
  - rewrite nth_error_replace_same by exact Hlt. rewrite Hrow.
    destruct (Nat.eqb_spec c (Z.to_nat j)) as [-> | Hc]; cbn [andb].
    + apply nth_error_replace_same. exact Hlt'.
    + apply nth_error_replace_other. congruence.
  - cbn [andb]. rewrite nth_error_replace_other by congruence. reflexivity.
Qed.

Lemma cell_in_shape (a : np.array2) (rows cols : Z) (r c : nat) :
  shape2 a rows cols -> cell a r c <> None ->
  (Z.of_nat r < rows)%Z /\ (Z.of_nat c < cols)%Z.
Proof.
  intros [Hr Hc] H. unfold cell in H.
  destruct (nth_error a r) as [row |] eqn:E; [| congruence].
  assert (r < length a)%nat by (apply nth_error_Some; congruence).
  assert (c < length row)%nat by (apply nth_error_Some; exact H).
  apply nth_error_In in E. rewrite Forall_forall in Hc.
  specialize (Hc _ E). lia.
Qed.

Lemma partly_scaled2_none (f : Z -> Z -> R) (a : np.array2) :
  partly_scaled2 (fun _ _ => false) f a a.
Proof. intros r c. reflexivity. Qed.

Lemma partly_scaled2_ext (d d' : nat -> nat -> bool) (f : Z -> Z -> R)
      (a a' : np.array2) :
  (forall r c, cell a r c <> None -> d r c = d' r c) ->
  partly_scaled2 d f a a' -> partly_scaled2 d' f a a'.
Proof.
  intros Hd H r c. rewrite (H r c).
  destruct (cell a r c) as [v |] eqn:E.
  - rewrite Hd by congruence. reflexivity.
  - destruct (d r c), (d' r c); reflexivity.
Qed.

Lemma partly_scaled2_all (d : nat -> nat -> bool) (f : Z -> Z -> R)
      (a a' : np.array2) :
  (forall r c, cell a r c <> None -> d r c = true) ->
  partly_scaled2 d f a a' -> scaled2 f a a'.
Proof.
  intros Hd H r c. rewrite (H r c).
  destruct (cell a r c) as [v |] eqn:E.
  - rewrite Hd by congruence. reflexivity.
  - destruct (d r c); reflexivity.
Qed.

(** Dividing one more cell, not yet done, by its factor. *)
Lemma partly_scaled2_step (d : nat -> nat -> bool) (f : Z -> Z -> R)
      (a t t' : np.array2) (i j : Z) (v : R) :
  (0 <= i)%Z -> (0 <= j)%Z ->
  partly_scaled2 d f a t ->
  d (Z.to_nat i) (Z.to_nat j) = false ->
  np.get2 t i j = Ok v ->
  np.set2 t i j (v / f i j) = Ok t' ->
  partly_scaled2
    (fun r c => d r c || ((r =? Z.to_nat i)%nat && (c =? Z.to_nat j)%nat))
    f a t'.
Proof.
  intros Hi Hj H Hd Hg Hs r c.
  rewrite (cell_set2 _ _ _ _ _ Hi Hj Hs).
  destruct ((r =? Z.to_nat i)%nat && (c =? Z.to_nat j)%nat) eqn:E.
  - apply andb_prop in E. destruct E as [Er Ec].
    apply Nat.eqb_eq in Er, Ec. subst r c.
    rewrite orb_true_r.
    pose proof (H (Z.to_nat i) (Z.to_nat j)) as Hc. rewrite Hd in Hc.
    rewrite <- Hc, (cell_get2 _ _ _ _ Hi Hj Hg). cbn [option_map].
    rewrite !Z2Nat.id by assumption. reflexivity.
  - rewrite orb_false_r. apply H.
Qed.

(** Invariant rule for [for i in range(lo, hi)] with the loop index. *)
Lemma for_loop_inv {St : Type} (I : Z -> St -> Prop) (body : Z -> St -> result St) :
  forall (count : nat) (lo : Z) (s : St),
    I lo s ->
    (forall j t, (lo <= j < lo + Z.of_nat count)%Z -> I j t ->
                 exists t', body j t = Ok t' /\ I (j + 1)%Z t') ->
    exists s', py.for_loop count lo body s = Ok s' /\
               I (lo + Z.of_nat count)%Z s'.
Proof.
  induction count as [| c IH]; intros lo s Hs Hstep.
  - exists s. split; [reflexivity |].
    replace (lo + Z.of_nat 0)%Z with lo by lia. exact Hs.
  - destruct (Hstep lo s) as (t' & Ht' & Hinv); [lia | exact Hs |].
    simpl py.for_loop. rewrite Ht'. cbn [bind].
    destruct (IH (lo + 1)%Z t' Hinv) as (s' & Hs' & Hfin).
    + intros j t Hj Ht. apply Hstep; [lia | exact Ht].
    + exists s'. split; [exact Hs' |].
      replace (lo + Z.of_nat (S c))%Z with (lo + 1 + Z.of_nat c)%Z by lia.
      exact Hfin.
Qed.

Lemma for_range_inv {St : Type} (I : Z -> St -> Prop) (body : Z -> St -> result St)
      (lo hi : Z) (s : St) :
  (lo <= hi)%Z ->
  I lo s ->
  (forall j t, (lo <= j < hi)%Z -> I j t ->
               exists t', body j t = Ok t' /\ I (j + 1)%Z t') ->
  exists s', py.for_range lo hi body s = Ok s' /\ I hi s'.
Proof.
  intros Hle Hs Hstep. unfold py.for_range.
  destruct (for_loop_inv I body (Z.to_nat (hi - lo)) lo s Hs) as (s' & Hs' & Hf).
  - intros j t Hj Ht. apply Hstep; [lia | exact Ht].
  - exists s'. split; [exact Hs' |].
    replace (lo + Z.of_nat (Z.to_nat (hi - lo)))%Z with hi in Hf by lia.
    exact Hf.
Qed.

Lemma scale_ra_config (m s : model.t) (ir ia : Z) :
  config_eq m s -> model.scale_ra s ir ia = model.scale_ra m ir ia.
Proof.
  unfold config_eq, model.scale_ra, model.dArea, model.dSolidAngle.
  intros (_ & _ & _ & _ & _ & _ & _ & -> & -> & ->). reflexivity.
Qed.

Lemma scale_rz_config (m s : model.t) (ir : Z) :
  config_eq m s -> model.scale_rz s ir = model.scale_rz m ir.
Proof.
  unfold config_eq, model.scale_rz, model.dArea.
  intros (_ & _ & _ & _ & _ & _ & -> & -> & _ & ->). reflexivity.
Qed.

Lemma shape_nonneg (m : model.t) :
  grids_allocated m ->
  (0 <= model.nr m)%Z /\ (0 <= model.na m)%Z /\ (0 <= model.nz m)%Z.
Proof.
  unfold grids_allocated, shape1, shape2.
  intros (_ & H1 & H2 & _ & H3 & _). lia.
Qed.

Lemma scaleRT_grids (m : model.t) :
  grids_allocated m ->
  exists s,
    py.for_range 0 (model.nr m)
      (fun ir m =>
         py.for_range 0 (model.na m)
           (fun ia m =>
              let scale := model.scale_ra m ir ia in
              r <- np.get2 (model.Rd_ra m) ir ia ;;
              Rd_ra' <- np.set2 (model.Rd_ra m) ir ia (r / scale) ;;
              let m := model.set_Rd_ra Rd_ra' m in
              t <- np.get2 (model.Tt_ra m) ir ia ;;
              Tt_ra' <- np.set2 (model.Tt_ra m) ir ia (t / scale) ;;
              Ok (model.set_Tt_ra Tt_ra' m))
           m)
      m = Ok s /\
    scalingRT (fun _ _ => true) m s.
Proof.
  intros Hg.
  destruct (shape_nonneg m Hg) as (Hnr & Hna & _).
  assert (SRm : shape2 (model.Rd_ra m) (model.nr m) (model.na m)) by shapes.
  assert (STm : shape2 (model.Tt_ra m) (model.nr m) (model.na m)) by shapes.
  match goal with
  | |- exists s, py.for_range 0 ?hi ?body ?s0 = Ok s /\ _ =>
      destruct (for_range_inv
                  (fun i s => scalingRT (fun r _ => (Z.of_nat r <? i)%Z) m s)
                  body 0 hi s0) as (s1 & Hs1 & Inv1)
  end.
  - exact Hnr.
  - split; [apply config_eq_refl |]. split; [exact Hg |].
    split; [reflexivity |].
    split; (eapply partly_scaled2_ext; [| apply partly_scaled2_none]);
      intros r c _; symmetry; apply Z.ltb_ge; lia.
  - intros ir t Hir (Ct & Gt & At & Rt & Tt). cbv beta.
    assert (Hna_t : model.na t = model.na m) by shapes.
    match goal with
    | |- exists s, py.for_range 0 ?hi ?body ?s0 = Ok s /\ _ =>
        destruct (for_range_inv
                    (fun j s =>
                       scalingRT (fun r c => (Z.of_nat r <? ir)%Z
                                             || ((r =? Z.to_nat ir)%nat
                                                 && (Z.of_nat c <? j)%Z)) m s)
                    body 0 hi s0) as (s2 & Hs2 & Inv2)
    end.
    + lia.
    + split; [exact Ct |]. split; [exact Gt |]. split; [exact At |].
      split; (eapply partly_scaled2_ext; [| eassumption]);
        intros r c _;
        replace (Z.of_nat c <? 0)%Z with false
          by (symmetry; apply Z.ltb_ge; lia);
        rewrite andb_false_r, orb_false_r; reflexivity.
    + intros ia u Hia (Cu & Gu & Au & Ru & Tu). cbv beta zeta.
      rewrite (scale_ra_config m u) by exact Cu.
      destruct (shape2_update (model.Rd_ra u) (model.nr u) (model.na u) ir ia
                  (fun v => v / model.scale_ra m ir ia))
        as (v & R' & Hv & HR' & SR'); [shapes | shapes | shapes |].
      rewrite Hv. cbn [bind]. rewrite HR'. cbn [bind]. mattrs.
      destruct (shape2_update (model.Tt_ra u) (model.nr u) (model.na u) ir ia
                  (fun v => v / model.scale_ra m ir ia))
        as (x & T' & Hx & HT' & ST'); [shapes | shapes | shapes |].
      rewrite Hx. cbn [bind]. rewrite HT'. cbn [bind].
      eexists. split; [reflexivity |].
      assert (Hd : (Z.of_nat (Z.to_nat ir) <? ir)%Z
                   || ((Z.to_nat ir =? Z.to_nat ir)%nat
                       && (Z.of_nat (Z.to_nat ia) <? ia)%Z) = false).
      { rewrite Nat.eqb_refl.
        replace (Z.of_nat (Z.to_nat ir) <? ir)%Z with false
          by (symmetry; apply Z.ltb_ge; lia).
        replace (Z.of_nat (Z.to_nat ia) <? ia)%Z with false
          by (symmetry; apply Z.ltb_ge; lia).
        reflexivity. }
      assert (Hext : forall r c : nat,
                 (Z.of_nat r <? ir)%Z
                 || ((r =? Z.to_nat ir)%nat && (Z.of_nat c <? ia)%Z)
                 || ((r =? Z.to_nat ir)%nat && (c =? Z.to_nat ia)%nat)
                 = (Z.of_nat r <? ir)%Z
                   || ((r =? Z.to_nat ir)%nat && (Z.of_nat c <? ia + 1)%Z)).
      { intros r c.
        destruct (Z.ltb_spec (Z.of_nat r) ir), (Nat.eqb_spec r (Z.to_nat ir)),
          (Z.ltb_spec (Z.of_nat c) ia), (Nat.eqb_spec c (Z.to_nat ia)),
          (Z.ltb_spec (Z.of_nat c) (ia + 1)); cbn; try reflexivity; lia. }
      split; [shapes |]. split; [shapes |]. split; [shapes |]. mattrs.
      split.
      * eapply partly_scaled2_ext; [intros r c _; apply Hext |].
        eapply partly_scaled2_step with (t := model.Rd_ra u);
          try eassumption; lia.
      * eapply partly_scaled2_ext; [intros r c _; apply Hext |].
        eapply partly_scaled2_step with (t := model.Tt_ra u);
          try eassumption; lia.
    + rewrite Hna_t in *. exists s2. split; [exact Hs2 |].
      destruct Inv2 as (Cs & Gs & As & Rs & Ts).
      assert (Hext : forall r c : nat,
                 cell (model.Rd_ra m) r c <> None \/
                 cell (model.Tt_ra m) r c <> None ->
                 (Z.of_nat r <? ir)%Z
                 || ((r =? Z.to_nat ir)%nat && (Z.of_nat c <? model.na m)%Z)
                 = (Z.of_nat r <? ir + 1)%Z).
      { intros r c Hc.
        assert (Z.of_nat c < model.na m)%Z.
        { destruct Hc as [Hc | Hc].
          - apply (cell_in_shape _ _ _ _ _ SRm Hc).
          - apply (cell_in_shape _ _ _ _ _ STm Hc). }
        destruct (Z.ltb_spec (Z.of_nat r) ir), (Nat.eqb_spec r (Z.to_nat ir)),
          (Z.ltb_spec (Z.of_nat c) (model.na m)),
          (Z.ltb_spec (Z.of_nat r) (ir + 1)); cbn; try reflexivity; lia. }
      split; [exact Cs |]. split; [exact Gs |]. split; [exact As |].
      split; (eapply partly_scaled2_ext; [| eassumption]);
        intros r c Hc; apply Hext; tauto.
  - exists s1. split; [exact Hs1 |].
    destruct Inv1 as (Cs & Gs & As & Rs & Ts).
    split; [exact Cs |]. split; [exact Gs |]. split; [exact As |].
    split; (eapply partly_scaled2_ext; [| eassumption]);
      intros r c Hc; apply Z.ltb_lt.
    + apply (cell_in_shape _ _ _ _ _ SRm Hc).
    + apply (cell_in_shape _ _ _ _ _ STm Hc).
Qed.

Lemma scalingRT_frame (done : nat -> nat -> bool) (m s1 s : model.t) :
  scalingRT done m s1 -> frame s1 s -> scalingRT done m s.
Proof.
  intros (C1 & G1 & A1 & R1 & T1) (C & G & R & T & A).
  split; [eapply config_eq_trans; eassumption |].
  split; [exact G |]. split; [congruence |].
  rewrite R, T. split; assumption.
Qed.

Lemma scaleRT_ok (m : model.t) :
  grids_allocated m ->
  exists s, model.scaleRT m = Ok s /\ scalingRT (fun _ _ => true) m s.
Proof.
  intros Hg. unfold model.scaleRT.
  destruct (scaleRT_grids m Hg) as (s1 & Hs1 & K1).
  cbv zeta in Hs1. cbv zeta. rewrite Hs1. cbn [bind]. clear Hs1.
  assert (G1 : grids_allocated s1) by apply K1.
  match goal with
  | |- exists s, ?c = Ok s /\ _ =>
      enough (exists s, c = Ok s /\ frame s1 s) as (s' & Hs' & F')
  end.
  { exists s'. split; [exact Hs' |]. eapply scalingRT_frame; eassumption. }
  run_loop frame s2 Hs2 F2;
    [exact frame_trans | apply frame_refl; exact G1 | |].
  { intros ir t Hir Ft. cbv beta zeta.
    destruct (shape1_update (model.Rd_r t) (model.nr t) ir
                (fun v => v / model.scale_r t ir))
      as (v & a1 & -> & Ha1 & S1); [shapes | shapes |].
    cbn [bind]. rewrite Ha1. cbn [bind]. mattrs.
    destruct (shape1_update (model.Tt_r t) (model.nr t) ir
                (fun v => v / model.scale_r t ir))
      as (x & a2 & -> & Ha2 & S2); [shapes | shapes |].
    cbn [bind]. rewrite Ha2. cbn [bind].
    eexists. split; [reflexivity |]. shapes. }
  rebase s1 s2 F2. clear Hs2.
  run_loop frame s3 Hs3 F3;
    [exact frame_trans | apply frame_refl; shapes | |].
  { intros ia t Hia Ft. cbv beta zeta.
    destruct (shape1_update (model.Rd_a t) (model.na t) ia
                (fun v => v / model.scale_a t ia))
      as (v & a1 & -> & Ha1 & S1); [shapes | shapes |].
    cbn [bind]. rewrite Ha1. cbn [bind]. mattrs.
    destruct (shape1_update (model.Tt_a t) (model.na t) ia
                (fun v => v / model.scale_a t ia))
      as (x & a2 & -> & Ha2 & S2); [shapes | shapes |].
    cbn [bind]. rewrite Ha2. cbn [bind].
    eexists. split; [reflexivity |]. shapes. }
  cbv zeta. eexists. split; [reflexivity |]. shapes.
Qed.

Lemma scaleA_grid (m : model.t) :
  grids_allocated m ->
  exists s,
    py.for_range 0 (model.nz m)
      (fun iz m =>
         py.for_range 0 (model.nr m)
           (fun ir m =>
              a <- np.get2 (model.A_rz m) ir iz ;;
              A_rz' <- np.set2 (model.A_rz m) ir iz (a / model.scale_rz m ir) ;;
              Ok (model.set_A_rz A_rz' m))
           m)
      m = Ok s /\
    scalingA (fun _ _ => true) m s.
Proof.
  intros Hg.
  destruct (shape_nonneg m Hg) as (Hnr & _ & Hnz).
  assert (SAm : shape2 (model.A_rz m) (model.nr m) (model.nz m)) by shapes.
  match goal with
  | |- exists s, py.for_range 0 ?hi ?body ?s0 = Ok s /\ _ =>
      destruct (for_range_inv
                  (fun i s => scalingA (fun _ c => (Z.of_nat c <? i)%Z) m s)
                  body 0 hi s0) as (s1 & Hs1 & Inv1)
  end.
  - exact Hnz.
  - split; [apply config_eq_refl |]. split; [exact Hg |].
    split; [reflexivity |]. split; [reflexivity |].
    eapply partly_scaled2_ext; [| apply partly_scaled2_none].
    intros r c _; symmetry; apply Z.ltb_ge; lia.
  - intros iz t Hiz (Ct & Gt & Rt & Tt & At). cbv beta.
    assert (Hnr_t : model.nr t = model.nr m) by shapes.
    match goal with
    | |- exists s, py.for_range 0 ?hi ?body ?s0 = Ok s /\ _ =>
        destruct (for_range_inv
                    (fun j s =>
                       scalingA (fun r c => (Z.of_nat c <? iz)%Z
                                            || ((c =? Z.to_nat iz)%nat
                                                && (Z.of_nat r <? j)%Z)) m s)
                    body 0 hi s0) as (s2 & Hs2 & Inv2)
    end.
    + lia.
    + split; [exact Ct |]. split; [exact Gt |]. split; [exact Rt |].
      split; [exact Tt |].
      eapply partly_scaled2_ext; [| eassumption].
      intros r c _.
      replace (Z.of_nat r <? 0)%Z with false
        by (symmetry; apply Z.ltb_ge; lia).
      rewrite andb_false_r, orb_false_r. reflexivity.
    + intros ir u Hir (Cu & Gu & Ru & Tu & Au). cbv beta.
      rewrite (scale_rz_config m u) by exact Cu.
      destruct (shape2_update (model.A_rz u) (model.nr u) (model.nz u) ir iz
                  (fun v => v / model.scale_rz m ir))
        as (v & A' & Hv & HA' & SA'); [shapes | shapes | shapes |].
      rewrite Hv. cbn [bind]. rewrite HA'. cbn [bind].
      eexists. split; [reflexivity |].
      assert (Hd : (Z.of_nat (Z.to_nat iz) <? iz)%Z
                   || ((Z.to_nat iz =? Z.to_nat iz)%nat
                       && (Z.of_nat (Z.to_nat ir) <? ir)%Z) = false).
      { rewrite Nat.eqb_refl.
        replace (Z.of_nat (Z.to_nat iz) <? iz)%Z with false
          by (symmetry; apply Z.ltb_ge; lia).
        replace (Z.of_nat (Z.to_nat ir) <? ir)%Z with false
          by (symmetry; apply Z.ltb_ge; lia).
        reflexivity. }
      assert (Hext : forall r c : nat,
                 (Z.of_nat c <? iz)%Z
                 || ((c =? Z.to_nat iz)%nat && (Z.of_nat r <? ir)%Z)
                 || ((r =? Z.to_nat ir)%nat && (c =? Z.to_nat iz)%nat)
                 = (Z.of_nat c <? iz)%Z
                   || ((c =? Z.to_nat iz)%nat && (Z.of_nat r <? ir + 1)%Z)).
      { intros r c.
        destruct (Z.ltb_spec (Z.of_nat c) iz), (Nat.eqb_spec c (Z.to_nat iz)),
          (Z.ltb_spec (Z.of_nat r) ir), (Nat.eqb_spec r (Z.to_nat ir)),
          (Z.ltb_spec (Z.of_nat r) (ir + 1)); cbn; try reflexivity; lia. }
      split; [shapes |]. split; [shapes |]. split; [shapes |].
      split; [shapes |]. mattrs.
      eapply partly_scaled2_ext; [intros r c _; apply Hext |].
      eapply (partly_scaled2_step _ (fun ir _ => model.scale_rz m ir))
        with (t := model.A_rz u); try eassumption; lia.
    + rewrite Hnr_t in *. exists s2. split; [exact Hs2 |].
      destruct Inv2 as (Cs & Gs & Rs & Ts & As).
      split; [exact Cs |]. split; [exact Gs |]. split; [exact Rs |].
      split; [exact Ts |].
      eapply partly_scaled2_ext; [| eassumption].
      intros r c Hc.
      pose proof (cell_in_shape _ _ _ _ _ SAm Hc) as [Hr _].
      destruct (Z.ltb_spec (Z.of_nat c) iz), (Nat.eqb_spec c (Z.to_nat iz)),
        (Z.ltb_spec (Z.of_nat r) (model.nr m)),
        (Z.ltb_spec (Z.of_nat c) (iz + 1)); cbn; try reflexivity; lia.
  - exists s1. split; [exact Hs1 |].
    destruct Inv1 as (Cs & Gs & Rs & Ts & As).
    split; [exact Cs |]. split; [exact Gs |]. split; [exact Rs |].
    split; [exact Ts |].
    eapply partly_scaled2_ext; [| eassumption].
    intros r c Hc. apply Z.ltb_lt.
    apply (cell_in_shape _ _ _ _ _ SAm Hc).
Qed.

Lemma scalingA_frame (done : nat -> nat -> bool) (m s1 s : model.t) :
  scalingA done m s1 -> frame s1 s -> scalingA done m s.
Proof.
  intros (C1 & G1 & R1 & T1 & A1) (C & G & R & T & A).
  split; [eapply config_eq_trans; eassumption |].
  split; [exact G |]. split; [congruence |]. split; [congruence |].
  rewrite A. assumption.
Qed.

Lemma scaleA_ok (m : model.t) :
  grids_allocated m ->
  exists s, model.scaleA m = Ok s /\ scalingA (fun _ _ => true) m s.
Proof.
  intros Hg. unfold model.scaleA.
  destruct (scaleA_grid m Hg) as (s1 & Hs1 & K1).
  cbv zeta in Hs1. cbv zeta. rewrite Hs1. cbn [bind]. clear Hs1.
  assert (G1 : grids_allocated s1) by apply K1.
  match goal with
  | |- exists s, ?c = Ok s /\ _ =>
      enough (exists s, c = Ok s /\ frame s1 s) as (s' & Hs' & F')
  end.
  { exists s'. split; [exact Hs' |]. eapply scalingA_frame; eassumption. }
  run_loop frame s2 Hs2 F2;
    [exact frame_trans | apply frame_refl; exact G1 | |].
  { intros iz t Hiz Ft. cbv beta.
    destruct (shape1_update (model.A_z t) (model.nz t) iz
                (fun v => v / model.scale_z s1))
      as (v & a1 & -> & Ha1 & S1); [shapes | shapes |].
    cbn [bind]. rewrite Ha1. cbn [bind].
    eexists. split; [reflexivity |]. shapes. }
  rebase s1 s2 F2. clear Hs2.
  run_loop frame s3 Hs3 F3;
    [exact frame_trans | apply frame_refl; shapes | |].
  { intros il t Hil Ft. cbv beta.
    destruct (shape1_update (model.A_l t) (model.numberOfLayers t + 2) il
                (fun v => v / IZR (model.numberOfPhotons s2)))
      as (v & a1 & -> & Ha1 & S1); [shapes | shapes |].
    cbn [bind]. rewrite Ha1. cbn [bind].
    eexists. split; [reflexivity |]. shapes. }
  eexists. split; [reflexivity |]. shapes.
Qed.

Lemma scaled2_factor (f g : Z -> Z -> R) (a a' : np.array2) :
  (forall i j, g i j = f i j) -> scaled2 f a a' -> scaled2 g a a'.
Proof.
  intros Hfg H i j. rewrite (H i j), Hfg. reflexivity.
Qed.

Lemma computeAndScaleArraySums_ok (m : model.t) :
  grids_allocated m -> stack_ok m ->
  exists s, model.computeAndScaleArraySums m = Ok s /\ normalised m s.
Proof.
  intros Hg Hst. unfold model.computeAndScaleArraySums.
  destruct (sumRT_ok m Hg) as (s1 & -> & F1). cbn [bind].
  destruct (frame_shapes _ _ F1) as [G1 C1].
  destruct (scaleRT_ok s1 G1) as (s2 & -> & (C2 & G2 & A2 & R2 & T2)).
  cbn [bind].
  assert (C02 : config_eq m s2) by (eapply config_eq_trans; eassumption).
  destruct (sumA_ok s2 G2 (stack_ok_config _ _ C02 Hst)) as (s3 & -> & F3).
  cbn [bind].
  destruct (frame_shapes _ _ F3) as [G3 C3].
  destruct (scaleA_ok s3 G3) as (s4 & -> & (C4 & G4 & R4 & T4 & A4)).
  cbn [bind].
  assert (C04 : config_eq m s4).
  { eapply config_eq_trans; [exact C02 |].
    eapply config_eq_trans; eassumption. }
  destruct (Fluence_ok s4 G4 (stack_ok_config _ _ C04 Hst)) as (s5 & -> & F5).
  exists s5. split; [reflexivity |].
  destruct F1 as (_ & _ & R1 & T1 & A1).
  destruct F3 as (_ & _ & R3 & T3 & A3).
  destruct F5 as (C5 & G5 & R5 & T5 & A5).
  split; [eapply config_eq_trans; eassumption |].
  split; [exact G5 |].
  rewrite R5, T5, A5, R4, T4, R3, T3.
  rewrite R1, T1 in *. rewrite A3, A2, A1 in A4.
  split; [| split].
  - apply scaled2_factor with (f := model.scale_ra s1).
    + intros i j. symmetry. apply scale_ra_config. exact C1.
    + eapply partly_scaled2_all; [| exact R2]. reflexivity.
  - apply scaled2_factor with (f := model.scale_ra s1).
    + intros i j. symmetry. apply scale_ra_config. exact C1.
    + eapply partly_scaled2_all; [| exact T2]. reflexivity.
  - apply scaled2_factor with (f := fun ir _ => model.scale_rz s3 ir).
    + intros i j. symmetry. apply scale_rz_config.
      exact (config_eq_trans _ _ _ C02 C3).
    + eapply partly_scaled2_all; [| exact A4]. reflexivity.
Qed.

Lemma stack_ok_normalised (m s : model.t) :
  normalised m s -> stack_ok m -> stack_ok s.
Proof. intros (C & _). apply stack_ok_config. exact C. Qed.

(** C8 (amended).  A second call of [computeAndScaleArraySums], on a
    model with allocated grids and a layer table reaching every layer:
    both calls return, the factors are those of the first call, and every
    cell of the 2D grids [Rd_ra], [Tt_ra] and [A_rz] is divided once more
    by its own factor, that is, by the factor squared relative to the data
    before the first call. *)
Theorem double_normalisation (m : model.t) :
  grids_allocated m -> stack_ok m ->
  exists m1 m2,
    model.computeAndScaleArraySums m = Ok m1 /\
    model.computeAndScaleArraySums m1 = Ok m2 /\
    (forall ir ia, model.scale_ra m1 ir ia = model.scale_ra m ir ia) /\
    (forall ir, model.scale_rz m1 ir = model.scale_rz m ir) /\
    scaled2 (model.scale_ra m) (model.Rd_ra m) (model.Rd_ra m1) /\
    scaled2 (model.scale_ra m) (model.Rd_ra m1) (model.Rd_ra m2) /\
    scaled2 (model.scale_ra m) (model.Tt_ra m) (model.Tt_ra m1) /\
    scaled2 (model.scale_ra m) (model.Tt_ra m1) (model.Tt_ra m2) /\
    scaled2 (fun ir _ => model.scale_rz m ir) (model.A_rz m) (model.A_rz m1) /\
    scaled2 (fun ir _ => model.scale_rz m ir) (model.A_rz m1) (model.A_rz m2) /\
    scaled2 (fun ir ia => model.scale_ra m ir ia ^ 2)
            (model.Rd_ra m) (model.Rd_ra m2) /\
    scaled2 (fun ir ia => model.scale_ra m ir ia ^ 2)
            (model.Tt_ra m) (model.Tt_ra m2) /\
    scaled2 (fun ir _ => model.scale_rz m ir ^ 2)
            (model.A_rz m) (model.A_rz m2).
Proof.
  intros Hg Hst.
  destruct (computeAndScaleArraySums_ok m Hg Hst)
    as (m1 & H1 & (C1 & G1 & R1 & T1 & A1)).
  destruct (computeAndScaleArraySums_ok m1 G1 (stack_ok_config _ _ C1 Hst))
    as (m2 & H2 & (C2 & G2 & R2 & T2 & A2)).
  assert (Hra : forall ir ia, model.scale_ra m1 ir ia = model.scale_ra m ir ia)
    by (intros; apply scale_ra_config; exact C1).
  assert (Hrz : forall ir, model.scale_rz m1 ir = model.scale_rz m ir)
    by (intros; apply scale_rz_config; exact C1).
  assert (R2' : scaled2 (model.scale_ra m) (model.Rd_ra m1) (model.Rd_ra m2)).
  { eapply scaled2_factor; [| exact R2]. intros. symmetry. apply Hra. }
  assert (T2' : scaled2 (model.scale_ra m) (model.Tt_ra m1) (model.Tt_ra m2)).
  { eapply scaled2_factor; [| exact T2]. intros. symmetry. apply Hra. }
  assert (A2' : scaled2 (fun ir _ => model.scale_rz m ir)
                        (model.A_rz m1) (model.A_rz m2)).
  { eapply scaled2_factor; [| exact A2]. intros. symmetry. apply Hrz. }
  assert (Htwice : forall f a b c,
             scaled2 f a b -> scaled2 f b c ->
             scaled2 (fun i j => f i j ^ 2) a c).
  { intros f a b c Hab Hbc i j. rewrite (Hbc i j), (Hab i j).
    destruct (cell a i j); cbn [option_map]; [| reflexivity].
    f_equal. unfold Rdiv. rewrite Rmult_assoc, <- Rinv_mult.
    f_equal. f_equal. ring. }
  exists m1, m2.
  repeat (split; [assumption |]).
  split; [eapply Htwice; eassumption |].
  split; [eapply Htwice; eassumption |].
  eapply (Htwice (fun ir _ => model.scale_rz m ir)); eassumption.
Qed.


(** ** The example stacks *)


Lemma arm_model_init : model.__init__ example.arm 1 = Ok example.arm_model.
Proof.
  unfold model.__init__, py.for_range. simpl py.for_loop.
  unfold example.arm. cbn [bind].
  unfold model.calcSpecular. simpl.
  destruct (py_eq_spec 0.0816 0) as [E | E]; [lra |]. reflexivity.
Qed.

Lemma window_model_init :
  model.__init__ example.window 2 = Ok example.window_model.
Proof.
  unfold model.__init__, py.for_range. simpl py.for_loop.
  unfold example.window. cbn [bind].
  unfold model.calcSpecular. simpl.
  destruct (py_eq_spec 0 0) as [_ | N]; [| contradiction]. reflexivity.
Qed.

Lemma slab_layer : py.getitem (model.layers example.slab_model) 1 = Ok example.dermis.
Proof. reflexivity. Qed.

Lemma slab_below : py.getitem (model.layers example.slab_model) (1 + 1) = Ok example.air.
Proof. reflexivity. Qed.

Lemma slab_depth :
  py.getitem (model.layerDepth example.slab_model) 1 = Ok (0, 0 + 1.0).
Proof. reflexivity. Qed.

Lemma slab_cosCrit :
  py.getitem (model.cosCrit example.slab_model) 1
  = Ok (model.cosCritFace 1.25 1.0, model.cosCritFace 1.25 1.0).
Proof. reflexivity. Qed.

Lemma cosCritFace_slab : model.cosCritFace 1.25 1.0 = 0.6.
Proof.
  unfold model.cosCritFace.
  destruct (py_ge_spec 1.25 1.0) as [_ | N]; [| lra].
  replace (1 - 1.0 ^ 2 / 1.25 ^ 2) with (0.6 * 0.6) by lra.
  apply sqrt_square. lra.
Qed.

Lemma zeros1_shape (n : Z) : (0 <= n)%Z -> shape1 (np.zeros1 n) n.
Proof.
  intros H. unfold shape1, np.zeros1. rewrite repeat_length. lia.
Qed.

Lemma zeros2_shape (rows cols : Z) :
  (0 <= rows)%Z -> (0 <= cols)%Z -> shape2 (np.zeros2 rows cols) rows cols.
Proof.
  intros Hr Hc. unfold shape2, np.zeros2. split.
  - rewrite repeat_length. lia.
  - apply Forall_forall. intros row Hin. apply repeat_spec in Hin. subst row.
    apply zeros1_shape. exact Hc.
Qed.

Lemma slab_model_allocated : grids_allocated example.slab_model.
Proof.
  unfold grids_allocated, example.slab_model. mattrs.
  repeat split; try (apply zeros1_shape; lia); try (apply zeros2_shape; lia).
Qed.


Lemma draw_of_constant (u : R) :
  np.random (example.constant_draws u) = (u, np.mkRandomState (fun _ => u) 1).
Proof. reflexivity. Qed.

(** ** Witnesses and counterexamples *)

Lemma calcFresnel_edge_cases_witness :
  Photon.calcFresnel 1.4 1.4 0.5 = (0, 0.5) /\
  Photon.calcFresnel 1.0 1.4 1 = (((1.4 - 1.0) / (1.4 + 1.0)) ^ 2, 1) /\
  Photon.calcFresnel 1.0 1.4 0 = (1, 0) /\
  Photon.calcFresnel 2.0 1.0 0.6 = (1, 0).
Proof.
  destruct (calcFresnel_edge_cases 1.4 1.4 0.5) as (H1 & _).
  destruct (calcFresnel_edge_cases 1.0 1.4 1) as (_ & H2 & _).
  destruct (calcFresnel_edge_cases 1.0 1.4 0) as (_ & _ & H3 & _).
  destruct (calcFresnel_edge_cases 2.0 1.0 0.6) as (_ & _ & _ & H4).
  split; [apply H1; reflexivity |].
  split; [apply H2; [lra | rewrite Rabs_R1; lra] |].
  split; [apply H3; [lra | rewrite Rabs_R0; lra] |].
  apply H4.
  - lra.
  - lra.
  - rewrite Rabs_right by lra. lra.
  - rewrite Rabs_right by lra.
    replace (1 - 0.6 ^ 2) with (0.8 * 0.8) by lra.
    rewrite sqrt_square by lra. lra.
Defined.

Lemma dermis_name : py.lower (medium.name example.dermis) <> "muscle"%string.
Proof. cbn. discriminate. Qed.

(** A drop in the slab leaves the carried weight as it was, and the
    roulette of a faint packet that draws below [M] does not. *)
Lemma weight_conservation_witness :
  (exists m' p' rs',
      Photon.drop example.slab_model example.probe (example.constant_draws 0.5)
      = Ok (m', p', rs') /\
      carried m' p' = carried example.slab_model example.probe) /\
  carried example.slab_model
          (fst (Photon.roulette example.faint (example.constant_draws 0.05)))
  <> carried example.slab_model example.faint.
Proof.
  split.
  - destruct (drop_plain example.slab_model example.probe
                (example.constant_draws 0.5) example.dermis)
      as (old & a' & _ & _ & _ & _ & Hdrop).
    + exact slab_layer.
    + exact dermis_name.
    + apply slab_model_allocated.
    + cbn. lra.
    + cbn. lra.
    + cbn. lia.
    + cbn. lia.
    + cbn. lra.
    + eexists _, _, _. split; [exact Hdrop |].
      destruct (weight_conservation example.slab_model example.probe
                  (example.constant_draws 0.5)) as (_ & _ & Hd & _).
      apply (Hd _ _ _ Hdrop).
  - destruct (weight_conservation example.slab_model example.faint
                (example.constant_draws 0.05))
      as (_ & _ & _ & _ & _ & _ & _ & _ & Hr & _).
    apply Hr; [cbn; lra | unfold M; cbn; lra].
Defined.

(** C1, counterexample.  Roulette on a packet of half the threshold
    weight in the slab: over a uniform draw the mean of the packet weight
    plus the deposits is the value before roulette plus [(1 - M) * w],
    and is not the value before roulette. *)
Lemma roulette_mean_not_preserved :
  uniform_mean
    (after_roulette (carried example.slab_model) example.faint
                    (example.constant_draws 0.5))
    (carried example.slab_model example.faint
     + (1 - M) * Photon.w example.faint) /\
  ~ uniform_mean
      (after_roulette (carried example.slab_model) example.faint
                      (example.constant_draws 0.5))
      (carried example.slab_model example.faint).
Proof.
  split; [apply roulette_mean_carried |].
  intros H.
  pose proof (uniform_mean_unique _ _ _ H
                (roulette_mean_carried example.slab_model example.faint
                   (example.constant_draws 0.5))) as E.
  unfold M in E. cbn [Photon.w example.faint] in E. lra.
Qed.

(** The bin of a coordinate that lies in bin [k]. *)
Lemma bin_value (v d : R) (n k : Z) :
  0 < d -> IZR k * d <= v < (IZR k + 1) * d -> (0 <= k < n)%Z ->
  Photon.bin v d n = k.
Proof.
  intros Hd [Hlo Hhi] Hk.
  assert (Hq : IZR k <= v / d < IZR k + 1).
  { split.
    - apply Rmult_le_reg_r with d; [exact Hd |].
      unfold Rdiv. rewrite Rmult_assoc, Rinv_l by lra. lra.
    - apply Rmult_lt_reg_r with d; [exact Hd |].
      unfold Rdiv. rewrite Rmult_assoc, Rinv_l by lra. lra. }
  assert (H0 : 0 <= v / d).
  { apply Rle_trans with (IZR k); [apply IZR_le; lia | tauto]. }
  unfold Photon.bin. rewrite int_floor by exact H0.
  rewrite (Zfloor_eq k _ Hq).
  destruct (Z.gtb_spec k (n - 1)); [lia | reflexivity].
Qed.

Lemma arm_layer :
  py.getitem (model.layers example.arm_model) (Photon.layer example.falling)
  = Ok example.muscle.
Proof. reflexivity. Qed.

Lemma muscle_reflectance :
  Photon.calcFresnel 1.4 2.0 (Rabs 1)
  = (((2.0 - 1.4) / (2.0 + 1.4)) ^ 2, Rabs 1).
Proof.
  apply calcFresnel_cases. rewrite Rabs_Rabsolu, Rabs_R1. lra.
Qed.

(** [drop] on the packet [falling] in the muscle layer, for a constant
    draw [u]: above the bone reflectance the packet enters the bone and
    the bone coefficients are used; otherwise it is turned back. *)
Lemma drop_in_muscle (u : R) :
  exists a',
    Photon.drop example.arm_model example.falling (example.constant_draws u)
    = Ok (model.set_A_rz a' example.arm_model,
          (if py.gt u (((2.0 - 1.4) / (2.0 + 1.4)) ^ 2)
           then Photon.set_w (0.5 - 0.5 * 0.0351 / (0.0351 + 34.45))
                  (Photon.set_uz (Rabs 1)
                     (Photon.set_uy (0 * (1.4 / 2.0))
                        (Photon.set_ux (0 * (1.4 / 2.0)) example.falling)))
           else Photon.set_w (0.5 - 0.5 * 0.0816 / (0.0816 + 8.61))
                  (Photon.set_uz (- 1) example.falling)),
          np.mkRandomState (fun _ => u) 1).
Proof.
  unfold Photon.drop. rewrite arm_layer. cbn [bind].
  replace (String.eqb (py.lower (medium.name example.muscle))
                      (py.lower "muscle")) with true by reflexivity.
  unfold Photon.inBone. rewrite arm_layer. cbn [bind].
  cbn [medium.bone_attr medium.bone example.muscle Bone.nBone bind
       medium.n Photon.uz example.falling].
  rewrite muscle_reflectance, draw_of_constant.
  assert (Hir : forall p,
             Photon.x p = 0 -> Photon.y p = 0 ->
             Photon.bin (sqrt (Photon.x example.falling ^ 2
                               + Photon.y example.falling ^ 2))
                        (model.dr example.arm_model)
                        (model.nr example.arm_model) = 0%Z).
  { intros. cbn. replace (0 * (0 * 1) + 0 * (0 * 1)) with 0 by ring.
    rewrite sqrt_0. apply bin_value; [lra | simpl; lra | lia]. }
  assert (Hiz : Photon.bin 0.5 (model.dz example.arm_model)
                           (model.nz example.arm_model) = 25%Z).
  { cbn. apply bin_value; [lra | simpl; lra | lia]. }
  destruct (set2_total (model.A_rz example.arm_model) 0 25 0
              (0 + (if py.gt u (((2.0 - 1.4) / (2.0 + 1.4)) ^ 2)
                    then 0.5 * 0.0351 / (0.0351 + 34.45)
                    else 0.5 * 0.0816 / (0.0816 + 8.61))))
    as (a' & Ha').
  { apply get2_zeros2; lia. }
  exists a'.
  destruct (py.gt u (((2.0 - 1.4) / (2.0 + 1.4)) ^ 2)).
  - destruct (py_gt_spec 1 0) as [_ | N]; [| lra].
    cbn [bind medium.bone_attr medium.bone example.muscle Bone.muaBone
         Bone.musBone]. attrs.
    rewrite (Hir example.falling) by reflexivity.
    cbn [Photon.z example.falling]. rewrite Hiz.
    cbn [model.A_rz example.arm_model].
    rewrite get2_zeros2 by lia. cbn [bind].
    cbn [model.A_rz example.arm_model] in Ha'.
    cbn [Photon.w example.falling]. rewrite Ha'. reflexivity.
  - cbn [bind medium.mua medium.mus example.muscle]. attrs.
    rewrite (Hir example.falling) by reflexivity.
    cbn [Photon.z example.falling]. rewrite Hiz.
    cbn [model.A_rz example.arm_model].
    rewrite get2_zeros2 by lia. cbn [bind].
    cbn [model.A_rz example.arm_model] in Ha'.
    cbn [Photon.w example.falling]. rewrite Ha'. reflexivity.
Qed.

(** C3, counterexample.  In a layer named "muscle" the drop first asks
    [inBone]: with a draw above the bone reflectance the packet loses
    [w * muaBone / (muaBone + musBone)] instead of [w * mua / mut], and
    with a draw below it the packet is turned round. *)
Lemma drop_in_muscle_differs :
  (exists m' p' rs',
      Photon.drop example.arm_model example.falling
                  (example.constant_draws 0.5) = Ok (m', p', rs') /\
      Photon.w p'
      <> Photon.w example.falling
         - Photon.w example.falling * medium.mua example.muscle
           / (medium.mua example.muscle + medium.mus example.muscle)) /\
  (exists m' p' rs',
      Photon.drop example.arm_model example.falling
                  (example.constant_draws 0) = Ok (m', p', rs') /\
      Photon.uz p' <> Photon.uz example.falling).
Proof.
  split.
  - destruct (drop_in_muscle 0.5) as (a' & H).
    destruct (py_gt_spec 0.5 (((2.0 - 1.4) / (2.0 + 1.4)) ^ 2)) as [_ | N];
      [| exfalso; apply N; lra].
    eexists _, _, _. split; [exact H |]. cbn. lra.
  - destruct (drop_in_muscle 0) as (a' & H).
    destruct (py_gt_spec 0 (((2.0 - 1.4) / (2.0 + 1.4)) ^ 2)) as [G | _];
      [exfalso; lra |].
    eexists _, _, _. split; [exact H |]. cbn. lra.
Qed.

(** A drop of the probe packet in the slab: the cell it lands in and the
    weight it leaves there. *)
Lemma drop_step_witness :
  exists a',
    Photon.drop example.slab_model example.probe (example.constant_draws 0.5)
    = Ok (model.set_A_rz a' example.slab_model,
          Photon.set_w (0.5 - 0.5 * 0.1 / (0.1 + 10.0)) example.probe,
          example.constant_draws 0.5) /\
    np.get2 a' 25 25 = Ok (0 + 0.5 * 0.1 / (0.1 + 10.0)).
Proof.
  destruct (drop_step example.slab_model example.probe
              (example.constant_draws 0.5) example.dermis)
    as (old & a' & Hold & _ & Hnew & _ & Hdrop).
  - exact slab_layer.
  - exact dermis_name.
  - cbn. lra.
  - apply slab_model_allocated.
  - cbn. lra.
  - cbn. lra.
  - cbn. lia.
  - cbn. lia.
  - cbn. lra.
  - assert (Hir : floor_bin (sqrt (Photon.x example.probe ^ 2
                                   + Photon.y example.probe ^ 2))
                            (model.dr example.slab_model)
                            (model.nr example.slab_model) = 25%Z).
    { cbn [Photon.x Photon.y example.probe].
      replace (0.3 ^ 2 + 0.4 ^ 2) with (0.5 * 0.5) by lra.
      rewrite sqrt_square by lra.
      unfold floor_bin. cbn [model.dr model.nr example.slab_model].
      rewrite (Zfloor_eq 25); [reflexivity |]. simpl. lra. }
    assert (Hiz : floor_bin (Photon.z example.probe)
                            (model.dz example.slab_model)
                            (model.nz example.slab_model) = 25%Z).
    { unfold floor_bin.
      cbn [Photon.z example.probe model.dz model.nz example.slab_model].
      rewrite (Zfloor_eq 25); [reflexivity |]. simpl. lra. }
    rewrite Hir, Hiz in *.
    cbn [model.A_rz example.slab_model] in Hold.
    rewrite get2_zeros2 in Hold by lia. injection Hold as <-.
    exists a'. split; [exact Hdrop | exact Hnew].
Defined.

Lemma slab_reflectance :
  Photon.calcFresnel 1.25 1.0 1
  = (((1.0 - 1.25) / (1.0 + 1.25)) ^ 2, 1).
Proof. apply calcFresnel_cases. rewrite Rabs_R1. lra. Qed.

(** C4.  The code at the failing input: in the single-layer slab, a
    packet crossing the bottom face (draw 0.5, above the reflectance)
    leaves the stack downwards and is terminated with weight 0, but its
    weight 0.5 lands in cell (0, 0) of [Rd_ra], the reflectance grid,
    while [Tt_ra] stays as it was. *)
Theorem bottom_exit_of_single_layer :
  exists m' p' rs',
    Photon.newLayerCheck example.slab_model example.landed
                         (example.constant_draws 0.5) = Ok (m', p', rs') /\
    Photon.uz p' = 1 /\ Photon.dead p' = true /\ Photon.w p' = 0.5 * 0 /\
    np.get2 (model.Rd_ra m') 0 0 = Ok (0 + 0.5 * (1 - 0)) /\
    model.Tt_ra m' = model.Tt_ra example.slab_model /\
    model.Tt_ra m' = np.zeros2 250 30.
Proof.
  unfold Photon.newLayerCheck, PARTIAL_REFLECTION.
  cbn [Photon.uz Photon.layer example.landed].
  destruct (py_lt_spec 1 0) as [L | _]; [lra |].
  rewrite slab_layer, slab_below, slab_cosCrit. cbn [bind snd].
  rewrite cosCritFace_slab.
  unfold Photon.faceReflectance.
  destruct (py_le_spec (Rabs 1) 0.6) as [L | _];
    [rewrite Rabs_R1 in L; lra |].
  cbn [medium.n example.dermis example.air].
  rewrite slab_reflectance, draw_of_constant.
  cbn [Z.eqb Pos.eqb].
  destruct (py_gt_spec 0.5 (((1.0 - 1.25) / (1.0 + 1.25)) ^ 2)) as [_ | N];
    [| exfalso; apply N; lra].
  cbn [model.numberOfLayers example.slab_model Z.eqb Pos.eqb Photon.local bind].
  unfold Photon.recordReduce. attrs.
  cbn [Photon.x Photon.y Photon.w Photon.layer example.landed].
  assert (Hir : Photon.bin (sqrt (0 ^ 2 + 0 ^ 2))
                           (model.dr example.slab_model)
                           (model.nr example.slab_model) = 0%Z).
  { replace (0 ^ 2 + 0 ^ 2) with 0 by ring. rewrite sqrt_0.
    apply bin_value; [cbn; lra | simpl; lra | cbn; lia]. }
  assert (Hia : Photon.bin (acos (Rabs 1)) (model.da example.slab_model)
                           (model.na example.slab_model) = 0%Z).
  { rewrite Rabs_R1, acos_1.
    assert (0 < PI) by apply PI_RGT_0.
    apply bin_value; [cbn; lra | simpl; lra | cbn; lia]. }
  rewrite Hir, Hia. cbn [Z.eqb Pos.eqb model.Rd_ra example.slab_model].
  rewrite get2_zeros2 by lia. cbn [bind].
  destruct (set2_total (np.zeros2 250 30) 0 0 0 (0 + 0.5 * (1 - 0)))
    as (a' & Ha'); [apply get2_zeros2; lia |].
  rewrite Ha'. cbn [bind].
  eexists _, _, _. split; [reflexivity |]. attrs. mattrs.
  repeat (split; [reflexivity |]).
  split; [eapply get2_set2_same; exact Ha' |].
  split; reflexivity.
Qed.

(** C5, counterexample.  In the slab, a packet reaching the bottom face
    below the critical cosine (0.28 against 0.6) is reflected, and the
    generator has moved on by one draw. *)
Lemma critical_reflection_consumes_a_draw :
  Rabs (Photon.uz example.shallow) <= model.cosCritFace 1.25 1.0 /\
  exists rs',
    Photon.newLayerCheck example.slab_model example.shallow
                         (example.constant_draws 0.5)
    = Ok (example.slab_model,
          Photon.set_uz (- Photon.uz example.shallow) example.shallow, rs') /\
    np.pos rs' = S (np.pos (example.constant_draws 0.5)) /\
    rs' <> example.constant_draws 0.5.
Proof.
  assert (Hcrit : Rabs (Photon.uz example.shallow)
                  <= model.cosCritFace 1.25 1.0).
  { rewrite cosCritFace_slab. cbn. rewrite Rabs_right; lra. }
  split; [exact Hcrit |].
  exists (snd (np.random (example.constant_draws 0.5))).
  split; [| apply random_advances].
  destruct (newLayerCheck_down example.slab_model example.shallow
              (example.constant_draws 0.5) example.dermis example.air
              (model.cosCritFace 1.25 1.0, model.cosCritFace 1.25 1.0))
    as (H & _).
  - reflexivity.
  - reflexivity.
  - reflexivity.
  - cbn. lra.
  - cbn. lra.
  - apply H. exact Hcrit.
Qed.

(** The shallow packet at the bottom face of the slab is reflected. *)
Lemma boundary_resolution_witness :
  Photon.newLayerCheck example.slab_model example.shallow
                       (example.constant_draws 0.5)
  = Ok (example.slab_model,
        Photon.set_uz (- Photon.uz example.shallow) example.shallow,
        snd (np.random (example.constant_draws 0.5))).
Proof.
  destruct (boundary_resolution example.slab_model example.shallow
              (example.constant_draws 0.5) example.dermis
              (model.cosCritFace 1.25 1.0, model.cosCritFace 1.25 1.0))
    as (_ & Hdown & _).
  - reflexivity.
  - reflexivity.
  - cbn. lra.
  - destruct (Hdown example.air) as (H & _).
    + cbn. lra.
    + reflexivity.
    + apply H. cbn [snd]. rewrite cosCritFace_slab. cbn.
      rewrite Rabs_right; lra.
Defined.

(** The probe packet, with a step of 1.0, is stopped at the bottom face
    of the slab and keeps the rest of its optical path. *)
Lemma residual_step_witness :
  exists p1,
    Photon.boundaryHit example.slab_model example.probe = Ok (true, p1) /\
    Photon.s p1 = (0 + 1.0 - 0.5) / 0.8 /\
    Photon.s_rem p1 = (1.0 - (0 + 1.0 - 0.5) / 0.8) * (0.1 + 10.0) /\
    Photon.s_rem p1 <> 0.
Proof.
  pose proof (residual_step example.slab_model example.probe example.dermis
                (0, 0 + 1.0) slab_layer slab_depth) as H.
  cbn [Photon.uz Photon.z Photon.s example.probe medium.mua medium.mus
       example.dermis fst snd] in H.
  destruct (py_gt_spec 0.8 0) as [_ | N]; [| exfalso; lra].
  destruct H as (Hhit & Hrem & _); try lra.
  eexists. split; [exact Hhit |]. attrs.
  split; [reflexivity |]. split; [reflexivity | exact Hrem].
Defined.

(** C7, counterexample.  A packet with a unit direction within [1e-12]
    of the axis, transmitted from index 1.25 into index 1.0 (reflectance
    below 1, so a draw can transmit it): the updated direction is not a
    unit one. *)
Lemma near_normal_transmission_not_unit :
  norm2 example.nearly_vertical = 1 /\
  Rabs (Photon.uz example.nearly_vertical) > COSZERO /\
  fst (Photon.calcFresnel 1.25 1.0 (Rabs (Photon.uz example.nearly_vertical)))
  < 1 /\
  norm2 (Photon.transmit 1 1.25 1.0
           (snd (Photon.calcFresnel 1.25 1.0
                   (Rabs (Photon.uz example.nearly_vertical))))
           example.nearly_vertical) <> 1.
Proof.
  assert (Hn : norm2 example.nearly_vertical = 1).
  { unfold norm2. cbn [Photon.ux Photon.uy Photon.uz example.nearly_vertical].
    field. }
  assert (Habs : Rabs (Photon.uz example.nearly_vertical)
                 = Photon.uz example.nearly_vertical).
  { apply Rabs_right. cbn. lra. }
  assert (Hnear : Rabs (Photon.uz example.nearly_vertical) > COSZERO).
  { rewrite Habs. unfold COSZERO. cbn. lra. }
  assert (Hf : Photon.calcFresnel 1.25 1.0
                 (Rabs (Photon.uz example.nearly_vertical))
               = (((1.0 - 1.25) / (1.0 + 1.25)) ^ 2,
                  Rabs (Photon.uz example.nearly_vertical))).
  { apply calcFresnel_cases. rewrite Rabs_Rabsolu.
    unfold COSZERO in Hnear. lra. }
  split; [exact Hn |]. split; [exact Hnear |].
  rewrite Hf. cbn [fst snd]. split; [lra |].
  rewrite transmit_norm, Habs.
  unfold norm2 in Hn.
  cbn [Photon.ux Photon.uy Photon.uz example.nearly_vertical] in *.
  lra.
Qed.

(** A spin of the probe packet keeps its direction a unit one. *)
Lemma unit_direction_witness :
  norm2 (fst (Photon.spin 0.9 example.probe (example.constant_draws 0.5))) = 1.
Proof.
  assert (Hn : norm2 example.probe = 1).
  { unfold norm2. cbn [Photon.ux Photon.uy Photon.uz example.probe]. lra. }
  destruct (unit_direction example.probe Hn) as (_ & Hspin & _).
  apply Hspin; [cbn; lra | right; cbn; lra].
Defined.

(** A level packet in the slab makes the tissue turn raise. *)
Lemma boundaryHit_partial_witness :
  Photon.boundaryHit example.slab_model example.level
  = Raise UnboundLocalError /\
  Photon.hopDropSpinTissue example.slab_model example.level
                           (example.constant_draws 0.5)
  = Raise UnboundLocalError.
Proof.
  destruct (boundaryHit_partial example.slab_model example.level
              (example.constant_draws 0.5)) as (_ & H & _).
  destruct (H example.dermis) as (Hraise & _); [reflexivity |].
  destruct Hraise as (Hhit & Hturn); [reflexivity |].
  split; [exact Hhit |]. apply Hturn. cbn. lra.
Defined.

(** Under a cover glass the packet starts at the bottom of the glass
    with layer index 1. *)
Lemma launch_state_witness :
  exists p,
    Photon.__init__ example.window_model = Ok p /\
    Photon.layer p = 1%Z /\ Photon.z p = 0 + 0.1 /\
    Photon.w p = 1 - example.window_Rsp.
Proof.
  destruct (launch_state example.window 2 example.window_model
              window_model_init) as (l1 & Hl1 & Hstate & Hreturns & _).
  assert (Hg : py.getitem (model.layers example.window_model) 1
               = Ok example.glass) by reflexivity.
  rewrite Hg in Hl1. injection Hl1 as <-.
  destruct Hreturns as (p & Hp); [right; lia |].
  exists p. split; [exact Hp |].
  destruct (Hstate p Hp)
    as (Hlayer & Hw & _ & _ & _ & _ & _ & _ & _ & _ & Hglass & _).
  split; [exact Hlayer |].
  split; [| exact Hw].
  destruct Hglass as (d1 & _ & _ & Hz); [split; reflexivity |].
  exact Hz.
Defined.


(** ** The normaliser on a single-bin grid *)

Lemma for_range_once {St : Type} (body : Z -> St -> result St) (s : St) :
  py.for_range 0 1 body s = (s' <- body 0%Z s ;; Ok s').
Proof. reflexivity. Qed.

Lemma for_range_thrice {St : Type} (body : Z -> St -> result St) (s : St) :
  py.for_range 0 (1 + 2) body s
  = (s1 <- body 0%Z s ;; s2 <- body 1%Z s1 ;; s3 <- body 2%Z s2 ;; Ok s3).
Proof. reflexivity. Qed.

Lemma getitem_single {T : Type} (x : T) : py.getitem [x] 0 = Ok x.
Proof. reflexivity. Qed.

Lemma setitem_single {T : Type} (x v : T) : py.setitem [x] 0 v = Ok [v].
Proof. reflexivity. Qed.

Lemma get2_single (x : R) : np.get2 [[x]] 0 0 = Ok x.
Proof. reflexivity. Qed.

Lemma set2_single (x v : R) : np.set2 [[x]] 0 0 v = Ok [[v]].
Proof. reflexivity. Qed.

Lemma getitem_triple {T : Type} (a b c : T) :
  py.getitem [a; b; c] 0 = Ok a /\ py.getitem [a; b; c] 1 = Ok b /\
  py.getitem [a; b; c] 2 = Ok c.
Proof. repeat split. Qed.

Lemma setitem_triple {T : Type} (a b c v : T) :
  py.setitem [a; b; c] 0 v = Ok [v; b; c] /\
  py.setitem [a; b; c] 1 v = Ok [a; v; c] /\
  py.setitem [a; b; c] 2 v = Ok [a; b; v].
Proof. repeat split. Qed.

Lemma layerOfBin_single (m : model.t) (fuel : nat) :
  model.layerDepth m = [(0, 0); (0, 1)] ->
  model.numberOfLayers m = 1%Z ->
  model.layerOfBin fuel m 0 1 = Ok 1%Z.
Proof.
  intros Hd Hn.
  destruct fuel; simpl; rewrite Hd, Hn; simpl; rewrite andb_false_r;
    reflexivity.
Qed.

(** Full reduction of attribute reads and updates on explicit models. *)
Ltac mnorm :=
  cbv beta iota delta [model.layers model.numberOfLayers model.layerDepth
       model.W_th model.cosCrit model.nx model.ny model.nz model.nr
       model.na model.dx model.dy model.dz model.dr model.da
       model.numberOfPhotons model.Rsp model.Rd model.A model.Tt
       model.Rd_ra model.Rd_r model.Rd_a model.A_rz model.A_z model.A_l
       model.Phi_rz model.Phi_z model.Tt_ra model.Tt_r model.Tt_a
       model.set_numberOfPhotons model.set_Rd model.set_A model.set_Tt
       model.set_Rd_ra model.set_Rd_r model.set_Rd_a model.set_A_rz
       model.set_A_z model.set_A_l model.set_Phi_rz model.set_Phi_z
       model.set_Tt_ra model.set_Tt_r model.set_Tt_a model.set_Rsp].

(** Evaluation of the loops of the normaliser on one-cell arrays. *)
Ltac one_cell :=
  repeat (first
            [ rewrite for_range_once
            | rewrite for_range_thrice
            | rewrite get2_single
            | rewrite set2_single
            | rewrite getitem_single
            | rewrite setitem_single
            | rewrite (proj1 (getitem_triple _ _ _))
            | rewrite (proj1 (proj2 (getitem_triple _ _ _)))
            | rewrite (proj2 (proj2 (getitem_triple _ _ _)))
            | rewrite (proj1 (setitem_triple _ _ _ _))
            | rewrite (proj1 (proj2 (setitem_triple _ _ _ _)))
            | rewrite (proj2 (proj2 (setitem_triple _ _ _ _)))
            | rewrite layerOfBin_single by reflexivity
            | progress cbn [bind]
            | progress mnorm ]).

Lemma one_bin_sumRT (N : Z) (Rd A Tt rd_ra rd_r rd_a a_rz a_z al0 al1 al2
      phi_rz phi_z tt_ra tt_r tt_a : R) :
  model.sumRT (example.one_bin N Rd A Tt rd_ra rd_r rd_a a_rz a_z al0 al1 al2 phi_rz phi_z tt_ra tt_r tt_a)
  = Ok (example.one_bin N (0 + (0 + rd_ra)) A (0 + (0 + tt_ra))
          rd_ra (0 + rd_ra) (0 + rd_ra) a_rz a_z al0 al1 al2 phi_rz phi_z
          tt_ra (0 + tt_ra) (0 + tt_ra)).
Proof. unfold model.sumRT, example.one_bin. one_cell. reflexivity. Qed.

Lemma one_bin_scaleRT (N : Z) (Rd A Tt rd_ra rd_r rd_a a_rz a_z al0 al1 al2
      phi_rz phi_z tt_ra tt_r tt_a : R) :
  let m := example.one_bin N Rd A Tt rd_ra rd_r rd_a a_rz a_z al0 al1 al2 phi_rz phi_z tt_ra tt_r tt_a in
  model.scaleRT m
  = Ok (example.one_bin N (Rd / IZR N) A (Tt / IZR N)
          (rd_ra / model.scale_ra m 0 0) (rd_r / model.scale_r m 0)
          (rd_a / model.scale_a m 0) a_rz a_z al0 al1 al2 phi_rz phi_z
          (tt_ra / model.scale_ra m 0 0) (tt_r / model.scale_r m 0)
          (tt_a / model.scale_a m 0)).
Proof. intros m. unfold m, model.scaleRT, example.one_bin. one_cell. reflexivity. Qed.

Lemma one_bin_sumA (N : Z) (Rd A Tt rd_ra rd_r rd_a a_rz a_z al0 al1 al2
      phi_rz phi_z tt_ra tt_r tt_a : R) :
  model.sumA (example.one_bin N Rd A Tt rd_ra rd_r rd_a a_rz a_z al0 al1 al2 phi_rz phi_z tt_ra tt_r tt_a)
  = Ok (example.one_bin N Rd (0 + (0 + a_rz)) Tt rd_ra rd_r rd_a
          a_rz (0 + a_rz) al0 (al1 + (0 + a_rz)) al2 phi_rz phi_z
          tt_ra tt_r tt_a).
Proof.
  unfold model.sumA, model.indexLayer, example.one_bin. one_cell. reflexivity.
Qed.

Lemma one_bin_scaleA (N : Z) (Rd A Tt rd_ra rd_r rd_a a_rz a_z al0 al1 al2
      phi_rz phi_z tt_ra tt_r tt_a : R) :
  let m := example.one_bin N Rd A Tt rd_ra rd_r rd_a a_rz a_z al0 al1 al2 phi_rz phi_z tt_ra tt_r tt_a in
  model.scaleA m
  = Ok (example.one_bin N Rd (A / IZR N) Tt rd_ra rd_r rd_a
          (a_rz / model.scale_rz m 0) (a_z / model.scale_z m)
          (al0 / IZR N) (al1 / IZR N) (al2 / IZR N) phi_rz phi_z
          tt_ra tt_r tt_a).
Proof. intros m. unfold m, model.scaleA, example.one_bin. one_cell. reflexivity. Qed.

Lemma one_bin_Fluence (N : Z) (Rd A Tt rd_ra rd_r rd_a a_rz a_z al0 al1 al2
      phi_rz phi_z tt_ra tt_r tt_a : R) :
  model.Fluence (example.one_bin N Rd A Tt rd_ra rd_r rd_a a_rz a_z al0 al1 al2 phi_rz phi_z tt_ra tt_r tt_a)
  = Ok (example.one_bin N Rd A Tt rd_ra rd_r rd_a a_rz a_z al0 al1 al2
          (a_rz / 0.1) (a_z / 0.1) tt_ra tt_r tt_a).
Proof.
  unfold model.Fluence, model.muaIz, example.one_bin. one_cell. reflexivity.
Qed.

(** One call of the normaliser on a single-bin grid. *)
Lemma one_bin_normalised (N : Z) (Rd A Tt rd_ra rd_r rd_a a_rz a_z al0 al1 al2
      phi_rz phi_z tt_ra tt_r tt_a : R) :
  let m := example.one_bin N Rd A Tt rd_ra rd_r rd_a a_rz a_z al0 al1 al2 phi_rz phi_z tt_ra tt_r tt_a in
  model.computeAndScaleArraySums m
  = Ok (example.one_bin N
          ((0 + (0 + rd_ra)) / IZR N) ((0 + (0 + a_rz)) / IZR N)
          ((0 + (0 + tt_ra)) / IZR N)
          (rd_ra / model.scale_ra m 0 0)
          ((0 + rd_ra) / model.scale_r m 0)
          ((0 + rd_ra) / model.scale_a m 0)
          (a_rz / model.scale_rz m 0)
          ((0 + a_rz) / model.scale_z m)
          (al0 / IZR N) ((al1 + (0 + a_rz)) / IZR N) (al2 / IZR N)
          (a_rz / model.scale_rz m 0 / 0.1)
          ((0 + a_rz) / model.scale_z m / 0.1)
          (tt_ra / model.scale_ra m 0 0)
          ((0 + tt_ra) / model.scale_r m 0)
          ((0 + tt_ra) / model.scale_a m 0)).
Proof.
  intros m. unfold m, model.computeAndScaleArraySums.
  rewrite one_bin_sumRT. cbn [bind].
  rewrite one_bin_scaleRT. cbn [bind].
  rewrite one_bin_sumA. cbn [bind].
  rewrite one_bin_scaleA. cbn [bind].
  rewrite one_bin_Fluence. reflexivity.
Qed.

Lemma tiny_one_bin :
  example.tiny = example.one_bin 2 0 0 0 0 0 0 2 0 0 0 0 0 0 0 0 0.
Proof. reflexivity. Qed.

Lemma tiny_allocated : grids_allocated example.tiny.
Proof.
  unfold grids_allocated, shape2, shape1, example.tiny. mattrs.
  cbn [length Z.of_nat Pos.of_succ_nat Pos.succ Z.add Pos.add].
  repeat split; repeat constructor.
Qed.

Lemma tiny_stack : stack_ok example.tiny.
Proof. unfold stack_ok, example.tiny. mattrs. cbn. lia. Qed.

Lemma tiny_scale_rz : model.scale_rz example.tiny 0 = 2 * PI.
Proof.
  unfold model.scale_rz, model.dArea, example.tiny. mattrs. lra.
Qed.

(** C8 (counterexample).  On a single-bin grid holding a weight of 2 from
    two packets, the first call leaves [A = 1], [A_z = [1]] and
    [A_l[1] = 1]; the second call recomputes the totals from the cell
    already divided by [2 PI] instead of dividing the results of the
    first call: [A] and [A_z[0]] become [1 / (2 PI)], not [1 / 2], and
    [A_l[1]], which is never reset, becomes [(1 + 1 / PI) / 2]. *)
Lemma second_call_recomputes_totals :
  exists m1 m2,
    model.computeAndScaleArraySums example.tiny = Ok m1 /\
    model.computeAndScaleArraySums m1 = Ok m2 /\
    model.A m1 = 1 /\
    model.A m2 = 1 / (2 * PI) /\
    model.A m2 <> model.A m1 / IZR (model.numberOfPhotons m1) /\
    model.A_z m1 = [1] /\
    model.A_z m2 = [1 / (2 * PI)] /\
    1 / (2 * PI) <> 1 / model.scale_z m1 /\
    model.A_l m1 = [0; 1; 0] /\
    model.A_l m2 = [0; (1 + 1 / PI) / 2; 0] /\
    (1 + 1 / PI) / 2 <> 1 / IZR (model.numberOfPhotons m1).
Proof.
  assert (Hpi : 0 < PI) by apply PI_RGT_0.
  assert (Hpi2 : 2 < PI) by (pose proof PI2_1; lra).
  assert (Hinv : 0 < / PI) by (apply Rinv_0_lt_compat; exact Hpi).
  assert (Hinv1 : / PI < 1).
  { rewrite <- Rinv_1. apply Rinv_lt_contravar; lra. }
  pose proof tiny_scale_rz as Hrz.
  eexists _, _. split.
  { rewrite tiny_one_bin. apply one_bin_normalised. }
  split; [apply one_bin_normalised |].
  unfold example.one_bin. mnorm.
  rewrite tiny_one_bin in Hrz. unfold example.one_bin in Hrz. rewrite Hrz.
  unfold model.scale_z. mnorm.
  repeat split.
  - lra.
  - field. lra.
  - intros H. replace ((0 + (0 + 2 / (2 * PI))) / 2) with (/ PI / 2) in H
      by (field; lra). lra.
  - f_equal. lra.
  - f_equal. field. lra.
  - intros H. replace (1 / (2 * PI)) with (/ PI / 2) in H by (field; lra).
    lra.
  - f_equal. lra. f_equal. lra. f_equal. lra.
  - f_equal. lra. f_equal. field. lra. f_equal. lra.
  - unfold Rdiv. lra.
Qed.

(** Two calls on the single-bin model: the cell of [A_rz] is divided by
    the square of its factor. *)
Lemma double_normalisation_witness :
  grids_allocated example.tiny /\ stack_ok example.tiny /\
  exists m1 m2,
    model.computeAndScaleArraySums example.tiny = Ok m1 /\
    model.computeAndScaleArraySums m1 = Ok m2 /\
    scaled2 (fun ir _ => model.scale_rz example.tiny ir ^ 2)
            (model.A_rz example.tiny) (model.A_rz m2).
Proof.
  split; [exact tiny_allocated |]. split; [exact tiny_stack |].
  destruct (double_normalisation example.tiny tiny_allocated tiny_stack)
    as (m1 & m2 & H1 & H2 & H).
  exists m1, m2. split; [exact H1 |]. split; [exact H2 |].
  apply H.
Defined.

(** * Further properties of the code *)

(** ** Range of the Fresnel reflectance *)




(** ** The critical cosine *)





(** ** Specular reflection and the launch weight *)






(** ** Sampling of the deflection and of the step *)




(** ** Hops end inside the layer *)





(** ** The tables [model.__init__] builds *)












(** ** Errors and bounds of the deposits *)







(** ** What a walk leaves alone *)


















(** ** Totals computed by the normaliser *)



























(** ** The layer of a depth bin *)



(** ** Turns that cannot fail *)










(** ** The layer classes *)





(** ** A packet crossing the slab *)







(** ** The further properties at concrete inputs *)































